(** * A virtual terminal emulator: shallow embedding and verification

    The development follows [src/virtual-terminal.js], class
    [VirtualTerminal].  Every method of the class that takes part in
    consuming input is transcribed below under its own name; where a
    statement of the source had to be given a name of its own, the
    statement is quoted above the definition.

    Conventions of the embedding.

    - A JavaScript string is the list of its UTF-16 code units
      ([JsString]); [data[i]] is one code unit, [charCodeAt(0)] is the
      identity on it.
    - Numbers are natural numbers.  The screen has at least one row and
      one column; under that reading every subtraction [n - 1] and
      [Math.max(0, a - b)] of the source is the truncated subtraction of
      [nat].  The numbers of the source are doubles: [parseInt] is exact
      and a counting loop ends on safe integers only (up to 2^53 - 1),
      which is the reading of [parseInt] and [times] below.  Where a
      statement needs one of these readings it says so ([1 <= cols],
      [safeInteger], [smallNumbers]).
    - A row of the buffer is a JavaScript array and is modelled with its
      holes ([Js.Array]): assigning past the end extends the array, the
      spread of a hole is [undefined], [map] skips holes, [join] prints
      holes and [undefined] as the empty string.  The buffer is the
      list of its rows: no method leaves a hole between two rows.
    - A method that indexes a row which does not exist raises a
      [TypeError].  Methods are computations in a state-and-exception
      monad [M] in which the state reached at the raise survives, as an
      object mutated in place does.  No two fields of the object share
      a mutable part (rows, cursors and attribute records are copied
      or replaced, never aliased), so fields are values.
    - Console output ([debug], [verbose]) is not part of the model, and
      the clock read by [write] is an argument of it.
    - Listeners are callbacks known by identity; what a callback does
      when invoked is given by a [behaviour] function.  Callbacks do not
      re-enter the terminal. *)

From Stdlib Require Import String Ascii ZArith List Arith PeanoNat Lia Bool.
Import ListNotations.

Local Open Scope nat_scope.

(** ** Strings and code units *)

Definition CodeUnit : Type := nat.
Definition JsString : Type := list CodeUnit.

Definition str (s : string) : JsString :=
  map nat_of_ascii (list_ascii_of_string s).

Definition isChar (c : CodeUnit) (a : ascii) : bool := c =? nat_of_ascii a.

Definition ESC : CodeUnit := 27.
Definition SPACE : CodeUnit := 32.
Definition NEWLINE : CodeUnit := 10.

(** ** JavaScript arrays with holes *)

Module Js.

Inductive Slot (A : Type) : Type :=
| Hole
| Undefined
| Val (a : A).
Arguments Hole {A}.
Arguments Undefined {A}.
Arguments Val {A} a.

Definition Array (A : Type) : Type := list (Slot A).

(** [a[i]] read: a hole, [undefined] and an index past the end all
    read as [undefined] ([None]). *)
Definition get {A} (a : Array A) (i : nat) : option A :=
  match nth_error a i with
  | Some (Val v) => Some v
  | _ => None
  end.

(** [a[i] = v]: in range replaces, at the end appends, past the end
    pads with holes. *)
Fixpoint set {A} (a : Array A) (i : nat) (v : A) : Array A :=
  match i, a with
  | 0, [] => [Val v]
  | 0, _ :: t => Val v :: t
  | S j, [] => Hole :: set [] j v
  | S j, h :: t => h :: set t j v
  end.

(** [Array(n).fill(null).map(() => v)] *)
Definition make {A} (n : nat) (v : A) : Array A := repeat (Val v) n.

(** [[...a]]: iteration reads holes as [undefined]. *)
Definition spread {A} (a : Array A) : Array A :=
  map (fun s => match s with Hole => Undefined | _ => s end) a.

(** [a.map(f)] for a callback that cannot raise; [f] receives
    [None] for an [undefined] element and is not called on holes. *)
Definition map {A B} (f : option A -> B) (a : Array A) : Array B :=
  List.map (fun s => match s with
                     | Hole => Hole
                     | Undefined => Val (f None)
                     | Val v => Val (f (Some v))
                     end) a.

(** [a.join('')] on an array of strings: holes and [undefined] print
    as the empty string. *)
Definition join (a : Array (option JsString)) : JsString :=
  concat (List.map (fun s => match s with
                             | Val (Some w) => w
                             | _ => []
                             end) a).

(** [rows.join(sep)] on a list of strings. *)
Fixpoint joinWith (sep : JsString) (l : list JsString) : JsString :=
  match l with
  | [] => []
  | [w] => w
  | w :: t => w ++ sep ++ joinWith sep t
  end.

(** [v || d] on a possibly missing number. *)
Definition orElse (v : option nat) (d : nat) : nat :=
  match v with
  | Some (S n) => S n
  | _ => d
  end.

End Js.

(** ** Data model *)

Inductive Color : Type :=
  black | red | green | yellow | blue | magenta | cyan | white.

Module Attr.
Record t : Type := mk {
  fg : Color;
  bg : Color;
  bold : bool;
  underline : bool;
  reverse : bool
}.
Definition default : t := mk white black false false false.
End Attr.

(** A cell object: [{char, attr}], or the empty object [{}] that
    [{...undefined}] produces.  The attribute object of a cell is a
    copy of the current attributes, or the empty object ([None]) when
    there were none to copy. *)
Inductive Cell : Type :=
| EmptyObject
| mkCell (char : CodeUnit) (attr : option Attr.t).

Definition charOf (c : Cell) : option JsString :=
  match c with
  | EmptyObject => None
  | mkCell ch _ => Some [ch]
  end.

Definition Row : Type := Js.Array Cell.
Definition Buffer : Type := list Row.

Module Cursor.
Record t : Type := mk { x : nat; y : nat }.
End Cursor.

Module ScrollRegion.
Record t : Type := mk { top : nat; bottom : nat }.
End ScrollRegion.

Module ParseState.
Inductive Mode : Type := normal | escape | csi | osc.
Record t : Type := mk {
  state : Mode;
  params : list nat;
  current : JsString;
  intermediate : JsString
}.
Definition with_state (m : Mode) (p : t) : t :=
  mk m (params p) (current p) (intermediate p).
Definition with_params (l : list nat) (p : t) : t :=
  mk (state p) l (current p) (intermediate p).
Definition with_current (w : JsString) (p : t) : t :=
  mk (state p) (params p) w (intermediate p).
Definition with_intermediate (w : JsString) (p : t) : t :=
  mk (state p) (params p) (current p) w.
End ParseState.

Module AltScreen.
Record t : Type := mk { buffer : Buffer; cursor : Cursor.t }.
End AltScreen.

Definition ListenerId : Type := nat.

(** The fields of a [VirtualTerminal] instance, as the constructor
    declares them. *)
Record VirtualTerminal : Type := mkVirtualTerminal {
  cols : nat;
  rows : nat;
  buffer : Buffer;
  cursor : Cursor.t;
  savedCursor : Cursor.t;
  cursorVisible : bool;
  scrollRegion : ScrollRegion.t;
  altScreenBuffer : option AltScreen.t;
  isAltScreen : bool;
  currentAttr : Attr.t;
  parseState : ParseState.t;
  debug : bool;
  verbose : bool;
  frameCounter : nat;
  changeListeners : list ListenerId;
  lastScreenHash : option Z;
  hasChangedSinceLastCheck : bool
}.

(** Field assignment [this.f = v]. *)
Definition set_cols (v : nat) (t : VirtualTerminal) : VirtualTerminal :=
  mkVirtualTerminal v (rows t) (buffer t) (cursor t) (savedCursor t)
    (cursorVisible t) (scrollRegion t) (altScreenBuffer t) (isAltScreen t)
    (currentAttr t) (parseState t) (debug t) (verbose t) (frameCounter t)
    (changeListeners t) (lastScreenHash t) (hasChangedSinceLastCheck t).

Definition set_rows (v : nat) (t : VirtualTerminal) : VirtualTerminal :=
  mkVirtualTerminal (cols t) v (buffer t) (cursor t) (savedCursor t)
    (cursorVisible t) (scrollRegion t) (altScreenBuffer t) (isAltScreen t)
    (currentAttr t) (parseState t) (debug t) (verbose t) (frameCounter t)
    (changeListeners t) (lastScreenHash t) (hasChangedSinceLastCheck t).

Definition set_buffer (v : Buffer) (t : VirtualTerminal) : VirtualTerminal :=
  mkVirtualTerminal (cols t) (rows t) v (cursor t) (savedCursor t)
    (cursorVisible t) (scrollRegion t) (altScreenBuffer t) (isAltScreen t)
    (currentAttr t) (parseState t) (debug t) (verbose t) (frameCounter t)
    (changeListeners t) (lastScreenHash t) (hasChangedSinceLastCheck t).

Definition set_cursor (v : Cursor.t) (t : VirtualTerminal) : VirtualTerminal :=
  mkVirtualTerminal (cols t) (rows t) (buffer t) v (savedCursor t)
    (cursorVisible t) (scrollRegion t) (altScreenBuffer t) (isAltScreen t)
    (currentAttr t) (parseState t) (debug t) (verbose t) (frameCounter t)
    (changeListeners t) (lastScreenHash t) (hasChangedSinceLastCheck t).

Definition set_savedCursor (v : Cursor.t) (t : VirtualTerminal) : VirtualTerminal :=
  mkVirtualTerminal (cols t) (rows t) (buffer t) (cursor t) v
    (cursorVisible t) (scrollRegion t) (altScreenBuffer t) (isAltScreen t)
    (currentAttr t) (parseState t) (debug t) (verbose t) (frameCounter t)
    (changeListeners t) (lastScreenHash t) (hasChangedSinceLastCheck t).

Definition set_cursorVisible (v : bool) (t : VirtualTerminal) : VirtualTerminal :=
  mkVirtualTerminal (cols t) (rows t) (buffer t) (cursor t) (savedCursor t)
    v (scrollRegion t) (altScreenBuffer t) (isAltScreen t) (currentAttr t)
    (parseState t) (debug t) (verbose t) (frameCounter t)
    (changeListeners t) (lastScreenHash t) (hasChangedSinceLastCheck t).

Definition set_scrollRegion (v : ScrollRegion.t) (t : VirtualTerminal) : VirtualTerminal :=
  mkVirtualTerminal (cols t) (rows t) (buffer t) (cursor t) (savedCursor t)
    (cursorVisible t) v (altScreenBuffer t) (isAltScreen t) (currentAttr t)
    (parseState t) (debug t) (verbose t) (frameCounter t)
    (changeListeners t) (lastScreenHash t) (hasChangedSinceLastCheck t).

Definition set_altScreenBuffer (v : option AltScreen.t) (t : VirtualTerminal) : VirtualTerminal :=
  mkVirtualTerminal (cols t) (rows t) (buffer t) (cursor t) (savedCursor t)
    (cursorVisible t) (scrollRegion t) v (isAltScreen t) (currentAttr t)
    (parseState t) (debug t) (verbose t) (frameCounter t)
    (changeListeners t) (lastScreenHash t) (hasChangedSinceLastCheck t).

Definition set_isAltScreen (v : bool) (t : VirtualTerminal) : VirtualTerminal :=
  mkVirtualTerminal (cols t) (rows t) (buffer t) (cursor t) (savedCursor t)
    (cursorVisible t) (scrollRegion t) (altScreenBuffer t) v (currentAttr t)
    (parseState t) (debug t) (verbose t) (frameCounter t)
    (changeListeners t) (lastScreenHash t) (hasChangedSinceLastCheck t).

Definition set_currentAttr (v : Attr.t) (t : VirtualTerminal) : VirtualTerminal :=
  mkVirtualTerminal (cols t) (rows t) (buffer t) (cursor t) (savedCursor t)
    (cursorVisible t) (scrollRegion t) (altScreenBuffer t) (isAltScreen t) v
    (parseState t) (debug t) (verbose t) (frameCounter t)
    (changeListeners t) (lastScreenHash t) (hasChangedSinceLastCheck t).

Definition set_parseState (v : ParseState.t) (t : VirtualTerminal) : VirtualTerminal :=
  mkVirtualTerminal (cols t) (rows t) (buffer t) (cursor t) (savedCursor t)
    (cursorVisible t) (scrollRegion t) (altScreenBuffer t) (isAltScreen t)
    (currentAttr t) v (debug t) (verbose t) (frameCounter t)
    (changeListeners t) (lastScreenHash t) (hasChangedSinceLastCheck t).

Definition set_frameCounter (v : nat) (t : VirtualTerminal) : VirtualTerminal :=
  mkVirtualTerminal (cols t) (rows t) (buffer t) (cursor t) (savedCursor t)
    (cursorVisible t) (scrollRegion t) (altScreenBuffer t) (isAltScreen t)
    (currentAttr t) (parseState t) (debug t) (verbose t) v
    (changeListeners t) (lastScreenHash t) (hasChangedSinceLastCheck t).

Definition set_changeListeners (v : list ListenerId) (t : VirtualTerminal) : VirtualTerminal :=
  mkVirtualTerminal (cols t) (rows t) (buffer t) (cursor t) (savedCursor t)
    (cursorVisible t) (scrollRegion t) (altScreenBuffer t) (isAltScreen t)
    (currentAttr t) (parseState t) (debug t) (verbose t) (frameCounter t) v
    (lastScreenHash t) (hasChangedSinceLastCheck t).

Definition set_lastScreenHash (v : option Z) (t : VirtualTerminal) : VirtualTerminal :=
  mkVirtualTerminal (cols t) (rows t) (buffer t) (cursor t) (savedCursor t)
    (cursorVisible t) (scrollRegion t) (altScreenBuffer t) (isAltScreen t)
    (currentAttr t) (parseState t) (debug t) (verbose t) (frameCounter t)
    (changeListeners t) v (hasChangedSinceLastCheck t).

Definition set_hasChangedSinceLastCheck (v : bool) (t : VirtualTerminal) : VirtualTerminal :=
  mkVirtualTerminal (cols t) (rows t) (buffer t) (cursor t) (savedCursor t)
    (cursorVisible t) (scrollRegion t) (altScreenBuffer t) (isAltScreen t)
    (currentAttr t) (parseState t) (debug t) (verbose t) (frameCounter t)
    (changeListeners t) (lastScreenHash t) v.

(** ** Computations over a terminal

    A method either returns or raises; the terminal it leaves behind
    is kept in both cases. *)

Inductive Exn : Type := TypeError.

Inductive Completion (A : Type) : Type :=
| Normal (a : A)
| Throw (e : Exn).
Arguments Normal {A} a.
Arguments Throw {A} e.

Definition M (A : Type) : Type :=
  VirtualTerminal -> Completion A * VirtualTerminal.

Definition ret {A} (a : A) : M A := fun t => (Normal a, t).

Definition bind {A B} (m : M A) (k : A -> M B) : M B :=
  fun t => match m t with
           | (Normal a, t') => k a t'
           | (Throw e, t') => (Throw e, t')
           end.

Definition throw {A} (e : Exn) : M A := fun t => (Throw e, t).

Definition get : M VirtualTerminal := fun t => (Normal t, t).

Definition modify (f : VirtualTerminal -> VirtualTerminal) : M unit :=
  fun t => (Normal tt, f t).

Declare Scope vt_scope.
Delimit Scope vt_scope with vt.
Notation "x <- m ;; k" := (bind m (fun x => k))
  (at level 61, m at next level, right associativity) : vt_scope.
Notation "m ;; k" := (bind m (fun _ => k))
  (at level 61, right associativity) : vt_scope.
Local Open Scope vt_scope.

Definition when (b : bool) (m : M unit) : M unit :=
  if b then m else ret tt.

(** [for (const i of l) body(i)] *)
Fixpoint forEach (l : list nat) (body : nat -> M unit) : M unit :=
  match l with
  | [] => ret tt
  | i :: rest => body i ;; forEach rest body
  end.

(** [for (let i = a; i < b; i++)] visits [range a b]. *)
Definition range (a b : nat) : list nat := seq a (b - a).

(** [for (let i = a; i > b; i--)] visits [rangeDown a b]. *)
Definition rangeDown (a b : nat) : list nat := rev (seq (S b) (a - b)).

(** [for (let i = 0; i < count; i++) body()], for a [count] the counter
    reaches: past 2^53 the increment of the source no longer advances
    and its loop does not end.  The theorems about a call with a count
    ([scrollUp], [scrollDown], [insertLines], [deleteLines],
    [deleteCharacters]) take counts that are safe integers. *)
Definition times (count : nat) (body : M unit) : M unit :=
  forEach (range 0 count) (fun _ => body).

(** The state a computation leaves, and how it completed. *)
Definition stateAfter {A} (m : M A) (t : VirtualTerminal) : VirtualTerminal :=
  snd (m t).
Definition completionOf {A} (m : M A) (t : VirtualTerminal) : Completion A :=
  fst (m t).

(** ** Buffer access *)

(** [createEmptyBuffer()]: [rows] fresh rows of [cols] blank cells that
    carry a copy of the attributes current at the call.  The
    constructor calls it before [currentAttr] is assigned, so the cells
    of a new terminal carry the empty attribute object ([None]). *)
Definition emptyBuffer (attr : option Attr.t) (cols rows : nat) : Buffer :=
  repeat (Js.make cols (mkCell SPACE attr)) rows.

Definition createEmptyBuffer (t : VirtualTerminal) : Buffer :=
  emptyBuffer (Some (currentAttr t)) (cols t) (rows t).

(** [{ char: ' ', attr: { ...this.currentAttr } }] *)
Definition blank (t : VirtualTerminal) : Cell :=
  mkCell SPACE (Some (currentAttr t)).

(** [{ ...cell }] *)
Definition cloneCell (c : option Cell) : Cell :=
  match c with
  | Some c => c
  | None => EmptyObject
  end.

(** [this.buffer[y] = r].  The source assigns a row only after it has
    read row [y + 1] or row [y - 1], so [y] never lies past the end of
    the buffer and the buffer itself never gets holes; at the end the
    assignment appends. *)
Fixpoint putRow (b : Buffer) (y : nat) (r : Row) : Buffer :=
  match y, b with
  | 0, [] => [r]
  | 0, _ :: rest => r :: rest
  | S j, [] => [r]
  | S j, h :: rest => h :: putRow rest j r
  end.

(** [this.buffer[y]] used as an array: a missing row raises. *)
Definition readRow (y : nat) : M Row :=
  t <- get ;;
  match nth_error (buffer t) y with
  | Some r => ret r
  | None => throw TypeError
  end.

(** [this.buffer[y][x] = v] *)
Definition setCell (y x : nat) (v : Cell) : M unit :=
  r <- readRow y ;;
  modify (fun t => set_buffer (putRow (buffer t) y (Js.set r x v)) t).

(** ** Cursor movement *)

Definition moveCursorUp (count : nat) : M unit :=
  modify (fun t =>
    set_cursor (Cursor.mk (Cursor.x (cursor t))
                          (Nat.max 0 (Cursor.y (cursor t) - count))) t).

Definition moveCursorDown (count : nat) : M unit :=
  modify (fun t =>
    set_cursor (Cursor.mk (Cursor.x (cursor t))
                          (Nat.min (rows t - 1) (Cursor.y (cursor t) + count))) t).

Definition moveCursorRight (count : nat) : M unit :=
  modify (fun t =>
    set_cursor (Cursor.mk (Nat.min (cols t - 1) (Cursor.x (cursor t) + count))
                          (Cursor.y (cursor t))) t).

Definition moveCursorLeft (count : nat) : M unit :=
  modify (fun t =>
    set_cursor (Cursor.mk (Nat.max 0 (Cursor.x (cursor t) - count))
                          (Cursor.y (cursor t))) t).

Definition setCursorPosition (col row : nat) : M unit :=
  modify (fun t =>
    set_cursor (Cursor.mk (Nat.max 0 (Nat.min (cols t - 1) (col - 1)))
                          (Nat.max 0 (Nat.min (rows t - 1) (row - 1)))) t).

Definition saveCursor : M unit :=
  modify (fun t => set_savedCursor (cursor t) t).

Definition restoreCursor : M unit :=
  modify (fun t => set_cursor (savedCursor t) t).

(** ** Lines, scrolling, erasing *)

Definition clearLine (y : nat) : M unit :=
  t <- get ;;
  forEach (range 0 (cols t)) (fun x => t <- get ;; setCell y x (blank t)).

Definition clearScreen : M unit :=
  modify (fun t => set_cursor (Cursor.mk 0 0) (set_buffer (createEmptyBuffer t) t)).

Definition scrollUp (count : nat) : M unit :=
  times count (
    t <- get ;;
    forEach (range (ScrollRegion.top (scrollRegion t))
                   (ScrollRegion.bottom (scrollRegion t)))
      (fun y =>
         r <- readRow (y + 1) ;;
         modify (fun t => set_buffer (putRow (buffer t) y (Js.map cloneCell r)) t)) ;;
    t <- get ;;
    clearLine (ScrollRegion.bottom (scrollRegion t))).

Definition scrollDown (count : nat) : M unit :=
  times count (
    t <- get ;;
    forEach (rangeDown (ScrollRegion.bottom (scrollRegion t))
                       (ScrollRegion.top (scrollRegion t)))
      (fun y =>
         r <- readRow (y - 1) ;;
         modify (fun t => set_buffer (putRow (buffer t) y (Js.spread r)) t)) ;;
    t <- get ;;
    clearLine (ScrollRegion.top (scrollRegion t))).

Definition carriageReturn : M unit :=
  modify (fun t => set_cursor (Cursor.mk 0 (Cursor.y (cursor t))) t).

Definition lineFeed : M unit :=
  modify (fun t => set_cursor (Cursor.mk 0 (Cursor.y (cursor t))) t) ;;
  t <- get ;;
  if rows t - 1 <=? Cursor.y (cursor t)
  then scrollUp 1
  else modify (fun t =>
         set_cursor (Cursor.mk (Cursor.x (cursor t)) (Cursor.y (cursor t) + 1)) t).

Definition nextLine : M unit := carriageReturn ;; lineFeed.

(** On a screen with at least one column, where [cols - 1] is not
    negative. *)
Definition tab : M unit :=
  modify (fun t =>
    let nextTab := Cursor.x (cursor t) / 8 * 8 + 8 in
    set_cursor (Cursor.mk (Nat.min nextTab (cols t - 1)) (Cursor.y (cursor t))) t).

Definition index : M unit := lineFeed.

Definition reverseIndex : M unit :=
  t <- get ;;
  if Cursor.y (cursor t) <=? ScrollRegion.top (scrollRegion t)
  then scrollDown 1
  else modify (fun t =>
         set_cursor (Cursor.mk (Cursor.x (cursor t)) (Cursor.y (cursor t) - 1)) t).

Definition printChar (char : CodeUnit) : M unit :=
  t <- get ;;
  when (cols t <=? Cursor.x (cursor t))
    (modify (fun t => set_cursor (Cursor.mk 0 (Cursor.y (cursor t))) t) ;;
     lineFeed) ;;
  t <- get ;;
  setCell (Cursor.y (cursor t)) (Cursor.x (cursor t))
          (mkCell char (Some (currentAttr t))) ;;
  modify (fun t =>
    set_cursor (Cursor.mk (Cursor.x (cursor t) + 1) (Cursor.y (cursor t))) t).

Definition eraseInLine (mode : nat) : M unit :=
  t <- get ;;
  let y := Cursor.y (cursor t) in
  match mode with
  | 0 => forEach (range (Cursor.x (cursor t)) (cols t))
           (fun x => t <- get ;; setCell y x (blank t))
  | 1 => forEach (range 0 (Cursor.x (cursor t) + 1))
           (fun x => t <- get ;; setCell y x (blank t))
  | 2 => clearLine y
  | _ => ret tt
  end.

Definition eraseInDisplay (mode : nat) : M unit :=
  match mode with
  | 0 => eraseInLine 0 ;;
         t <- get ;;
         forEach (range (Cursor.y (cursor t) + 1) (rows t)) clearLine
  | 1 => t <- get ;;
         forEach (range 0 (Cursor.y (cursor t))) clearLine ;;
         eraseInLine 1
  | 2 => clearScreen
  | _ => ret tt
  end.

Definition insertLines (count : nat) : M unit :=
  times count (
    t <- get ;;
    forEach (rangeDown (ScrollRegion.bottom (scrollRegion t)) (Cursor.y (cursor t)))
      (fun y =>
         r <- readRow (y - 1) ;;
         modify (fun t => set_buffer (putRow (buffer t) y (Js.spread r)) t)) ;;
    t <- get ;;
    clearLine (Cursor.y (cursor t))).

Definition deleteLines (count : nat) : M unit :=
  times count (
    t <- get ;;
    forEach (range (Cursor.y (cursor t)) (ScrollRegion.bottom (scrollRegion t)))
      (fun y =>
         r <- readRow (y + 1) ;;
         modify (fun t => set_buffer (putRow (buffer t) y (Js.spread r)) t)) ;;
    t <- get ;;
    clearLine (ScrollRegion.bottom (scrollRegion t))).

Definition deleteCharacters (count : nat) : M unit :=
  t <- get ;;
  let y := Cursor.y (cursor t) in
  times count (
    t <- get ;;
    forEach (range (Cursor.x (cursor t)) (cols t - 1))
      (fun x =>
         r <- readRow y ;;
         setCell y x (cloneCell (Js.get r (x + 1)))) ;;
    t <- get ;;
    setCell y (cols t - 1) (blank t)).

(** ** Modes and settings *)

Definition setScrollRegion (top bottom : nat) : M unit :=
  modify (fun t =>
    let top' := Nat.max 0 (top - 1) in
    let bottom' := Nat.min (rows t - 1) (bottom - 1) in
    set_cursor (Cursor.mk 0 top')
      (set_scrollRegion (ScrollRegion.mk top' bottom') t)).

(** One [case] of the [switch] of [setGraphicRendition]. *)
Definition applyRendition (param : nat) (a : Attr.t) : Attr.t :=
  let '(Attr.mk f b bo un re) := a in
  match param with
  | 0 => Attr.default
  | 1 => Attr.mk f b true un re
  | 4 => Attr.mk f b bo true re
  | 7 => Attr.mk f b bo un true
  | 22 => Attr.mk f b false un re
  | 24 => Attr.mk f b bo false re
  | 27 => Attr.mk f b bo un false
  | 30 => Attr.mk black b bo un re
  | 31 => Attr.mk red b bo un re
  | 32 => Attr.mk green b bo un re
  | 33 => Attr.mk yellow b bo un re
  | 34 => Attr.mk blue b bo un re
  | 35 => Attr.mk magenta b bo un re
  | 36 => Attr.mk cyan b bo un re
  | 37 => Attr.mk white b bo un re
  | 40 => Attr.mk f black bo un re
  | 41 => Attr.mk f red bo un re
  | 42 => Attr.mk f green bo un re
  | 43 => Attr.mk f yellow bo un re
  | 44 => Attr.mk f blue bo un re
  | 45 => Attr.mk f magenta bo un re
  | 46 => Attr.mk f cyan bo un re
  | 47 => Attr.mk f white bo un re
  | _ => a
  end.

Definition setGraphicRendition (params : list nat) : M unit :=
  let params := match params with [] => [0] | _ => params end in
  forEach params (fun param =>
    modify (fun t => set_currentAttr (applyRendition param (currentAttr t)) t)).

Definition enableAltScreen : M unit :=
  t <- get ;;
  when (negb (isAltScreen t))
    (modify (fun t =>
       set_altScreenBuffer
         (Some (AltScreen.mk (map (Js.map cloneCell) (buffer t)) (cursor t))) t) ;;
     modify (set_isAltScreen true) ;;
     clearScreen).

Definition disableAltScreen : M unit :=
  t <- get ;;
  match isAltScreen t, altScreenBuffer t with
  | true, Some saved =>
      modify (set_buffer (AltScreen.buffer saved)) ;;
      modify (set_cursor (AltScreen.cursor saved)) ;;
      modify (set_altScreenBuffer None) ;;
      modify (set_isAltScreen false)
  | _, _ => ret tt
  end.

(** [intermediate === '?'] *)
Definition isPrivate (intermediate : JsString) : bool :=
  match intermediate with
  | [c] => isChar c "?"
  | _ => false
  end.

Definition setMode (params : list nat) (intermediate : JsString) : M unit :=
  forEach params (fun param =>
    if isPrivate intermediate then
      if param =? 25 then modify (set_cursorVisible true)
      else if param =? 1049 then enableAltScreen
      else ret tt
    else ret tt).

Definition resetMode (params : list nat) (intermediate : JsString) : M unit :=
  forEach params (fun param =>
    if isPrivate intermediate then
      if param =? 25 then modify (set_cursorVisible false)
      else if param =? 1049 then disableAltScreen
      else ret tt
    else ret tt).

Definition reset : M unit :=
  modify (fun t => set_buffer (createEmptyBuffer t) t) ;;
  modify (set_cursor (Cursor.mk 0 0)) ;;
  modify (set_savedCursor (Cursor.mk 0 0)) ;;
  modify (fun t => set_scrollRegion (ScrollRegion.mk 0 (rows t - 1)) t) ;;
  modify (set_currentAttr Attr.default) ;;
  modify (set_cursorVisible true) ;;
  modify (set_isAltScreen false) ;;
  modify (set_altScreenBuffer None).

(** ** The escape-sequence parser *)

Definition setParseMode (m : ParseState.Mode) : M unit :=
  modify (fun t => set_parseState (ParseState.with_state m (parseState t)) t).

Definition isDigit (c : CodeUnit) : bool := (48 <=? c) && (c <=? 57).

(** [parseInt] on a run of decimal digits; [None] is [NaN].  The value
    is the exact one, as in the source for runs that denote a safe
    integer; on longer runs the source rounds. *)
Fixpoint digitsValue (acc : nat) (w : JsString) : nat :=
  match w with
  | [] => acc
  | d :: rest => if isDigit d then digitsValue (10 * acc + (d - 48)) rest else acc
  end.

Definition parseInt (w : JsString) : option nat :=
  match w with
  | d :: _ => if isDigit d then Some (digitsValue 0 w) else None
  | [] => None
  end.

(** [this.parseState.params.push(parseInt(this.parseState.current) || 0)] *)
Definition pushParam : M unit :=
  modify (fun t =>
    let p := parseState t in
    set_parseState
      (ParseState.with_params
         (ParseState.params p ++ [Js.orElse (parseInt (ParseState.current p)) 0]) p) t).

(** [params[i]] *)
Definition param (params : list nat) (i : nat) : option nat := nth_error params i.

Definition handleCSISequence (finalChar : CodeUnit) (params : list nat)
    (intermediate : JsString) : M unit :=
  if isChar finalChar "A" then moveCursorUp (Js.orElse (param params 0) 1)
  else if isChar finalChar "B" then moveCursorDown (Js.orElse (param params 0) 1)
  else if isChar finalChar "C" then moveCursorRight (Js.orElse (param params 0) 1)
  else if isChar finalChar "D" then moveCursorLeft (Js.orElse (param params 0) 1)
  else if isChar finalChar "H" || isChar finalChar "f" then
    setCursorPosition (Js.orElse (param params 1) 1) (Js.orElse (param params 0) 1)
  else if isChar finalChar "J" then eraseInDisplay (Js.orElse (param params 0) 0)
  else if isChar finalChar "K" then eraseInLine (Js.orElse (param params 0) 0)
  else if isChar finalChar "L" then insertLines (Js.orElse (param params 0) 1)
  else if isChar finalChar "M" then deleteLines (Js.orElse (param params 0) 1)
  else if isChar finalChar "P" then deleteCharacters (Js.orElse (param params 0) 1)
  else if isChar finalChar "S" then scrollUp (Js.orElse (param params 0) 1)
  else if isChar finalChar "T" then scrollDown (Js.orElse (param params 0) 1)
  else if isChar finalChar "d" then
    t <- get ;;
    setCursorPosition (Cursor.x (cursor t) + 1) (Js.orElse (param params 0) 1)
  else if isChar finalChar "G" then
    t <- get ;;
    setCursorPosition (Js.orElse (param params 0) 1) (Cursor.y (cursor t) + 1)
  else if isChar finalChar "r" then
    t <- get ;;
    setScrollRegion (Js.orElse (param params 0) 1) (Js.orElse (param params 1) (rows t))
  else if isChar finalChar "m" then setGraphicRendition params
  else if isChar finalChar "h" then setMode params intermediate
  else if isChar finalChar "l" then resetMode params intermediate
  else if isChar finalChar "s" then saveCursor
  else if isChar finalChar "u" then restoreCursor
  else ret tt.

(** [this.parseState.intermediate += char] *)
Definition appendIntermediate (char : CodeUnit) : M unit :=
  modify (fun t =>
    let p := parseState t in
    set_parseState
      (ParseState.with_intermediate (ParseState.intermediate p ++ [char]) p) t).

Definition handleNormalChar (code : CodeUnit) : M unit :=
  if code =? 27 then
    modify (set_parseState (ParseState.mk ParseState.escape [] [] []))
  else if code =? 8 then moveCursorLeft 1
  else if code =? 9 then tab
  else if code =? 10 then lineFeed
  else if code =? 13 then carriageReturn
  else if code =? 7 then ret tt
  else if (32 <=? code) || (code =? 10) then printChar code
  else ret tt.

Definition handleEscapeChar (char : CodeUnit) : M unit :=
  if isChar char "[" then setParseMode ParseState.csi
  else if isChar char "]" then setParseMode ParseState.osc
  else if isChar char "D" then index ;; setParseMode ParseState.normal
  else if isChar char "M" then reverseIndex ;; setParseMode ParseState.normal
  else if isChar char "E" then nextLine ;; setParseMode ParseState.normal
  else if isChar char "7" then saveCursor ;; setParseMode ParseState.normal
  else if isChar char "8" then restoreCursor ;; setParseMode ParseState.normal
  else if isChar char "c" then reset ;; setParseMode ParseState.normal
  else setParseMode ParseState.normal.

Definition handleCSIChar (code : CodeUnit) : M unit :=
  if isDigit code then
    modify (fun t =>
      let p := parseState t in
      set_parseState (ParseState.with_current (ParseState.current p ++ [code]) p) t)
  else if isChar code ";" then
    pushParam ;;
    modify (fun t => set_parseState (ParseState.with_current [] (parseState t)) t)
  else if (32 <=? code) && (code <=? 47) then appendIntermediate code
  else if isChar code "?" then appendIntermediate code
  else
    t <- get ;;
    when (negb (Nat.eqb (length (ParseState.current (parseState t))) 0)) pushParam ;;
    t <- get ;;
    handleCSISequence code (ParseState.params (parseState t))
                      (ParseState.intermediate (parseState t)) ;;
    setParseMode ParseState.normal.

Definition handleOSCChar (code : CodeUnit) : M unit :=
  when ((code =? 7) || isChar code "\") (setParseMode ParseState.normal).

Definition processChar (char : CodeUnit) : M unit :=
  t <- get ;;
  match ParseState.state (parseState t) with
  | ParseState.normal => handleNormalChar char
  | ParseState.escape => handleEscapeChar char
  | ParseState.csi => handleCSIChar char
  | ParseState.osc => handleOSCChar char
  end.

(** The loop of [write]: [for (i = 0; i < data.length; i++) processChar(data[i])]. *)
Definition processChars (data : JsString) : M unit := forEach data processChar.

(** ** Rendering *)

(** [row.map(cell => cell.char).join('')]: reading [char] of an
    [undefined] element raises. *)
Fixpoint rowChars (r : Row) : option (Js.Array (option JsString)) :=
  match r with
  | [] => Some []
  | Js.Undefined :: _ => None
  | Js.Hole :: rest => option_map (cons Js.Hole) (rowChars rest)
  | Js.Val c :: rest => option_map (cons (Js.Val (charOf c))) (rowChars rest)
  end.

Definition rowText (r : Row) : option JsString :=
  option_map Js.join (rowChars r).

Fixpoint rowTexts (b : Buffer) : option (list JsString) :=
  match b with
  | [] => Some []
  | r :: rest =>
      match rowText r with
      | None => None
      | Some w => option_map (cons w) (rowTexts rest)
      end
  end.

Definition render (b : Buffer) : option JsString :=
  option_map (Js.joinWith [NEWLINE]) (rowTexts b).

Definition toString : M JsString :=
  t <- get ;;
  match render (buffer t) with
  | Some w => ret w
  | None => throw TypeError
  end.

Definition getScreenText : M JsString := toString.

Definition getCursorPosition (t : VirtualTerminal) : Cursor.t := cursor t.

(** ** Change detection and listeners *)

Record ChangeData : Type := mkChangeData {
  frameNumber : nat;
  timestamp : nat;
  screenBefore : JsString;
  screenAfter : JsString;
  cursorPosition : Cursor.t;
  inputData : JsString
}.

(** What the surroundings of the terminal observe during a call: a
    listener being invoked, and [console.error] reporting what a
    listener raised. *)
Inductive Effect : Type :=
| Invoke (listener : ListenerId) (changeData : ChangeData)
| ConsoleError (listener : ListenerId) (raised : nat).

(** The result of a public call: how it completed, the terminal it
    left, the change event it constructed (if it did), and the effects
    in the order they happened. *)
Record Outcome : Type := mkOutcome {
  completion : Completion unit;
  after : VirtualTerminal;
  fired : option ChangeData;
  effects : list Effect
}.

Definition silent {A} (r : Completion A * VirtualTerminal) : Outcome :=
  match r with
  | (Normal _, t) => mkOutcome (Normal tt) t None []
  | (Throw e, t) => mkOutcome (Throw e) t None []
  end.

(** [changeListeners.add(callback)] on a [Set]: a callback already
    present keeps its place. *)
Definition onScreenChange (callback : ListenerId) (t : VirtualTerminal)
  : VirtualTerminal :=
  if existsb (Nat.eqb callback) (changeListeners t) then t
  else set_changeListeners (changeListeners t ++ [callback]) t.

Definition offScreenChange (callback : ListenerId) (t : VirtualTerminal)
  : VirtualTerminal :=
  set_changeListeners
    (filter (fun l => negb (Nat.eqb callback l)) (changeListeners t)) t.

Section Listeners.

(** [behaviour l d] is [None] when callback [l] returns on [d] and
    [Some e] when it raises [e]. *)
Variable behaviour : ListenerId -> ChangeData -> option nat.

(** The loop of [notifyChangeListeners]; a [Set] iterates in
    insertion order.  The [try]/[catch] turns a raise into a
    [console.error] and the loop goes on. *)
Fixpoint notifyChangeListeners (listeners : list ListenerId)
    (changeData : ChangeData) : list Effect :=
  match listeners with
  | [] => []
  | listener :: rest =>
      Invoke listener changeData ::
      match behaviour listener changeData with
      | None => notifyChangeListeners rest changeData
      | Some e => ConsoleError listener e :: notifyChangeListeners rest changeData
      end
  end.

Definition write (now : nat) (data : JsString) (t : VirtualTerminal) : Outcome :=
  match toString t with
  | (Throw e, t0) => mkOutcome (Throw e) t0 None []
  | (Normal screenBefore, t0) =>
      match processChars data t0 with
      | (Throw e, t1) => mkOutcome (Throw e) t1 None []
      | (Normal _, t1) =>
          match toString t1 with
          | (Throw e, t2) => mkOutcome (Throw e) t2 None []
          | (Normal screenAfter, t2) =>
              if list_eq_dec Nat.eq_dec screenBefore screenAfter
              then mkOutcome (Normal tt) t2 None []
              else
                let t3 := set_hasChangedSinceLastCheck true
                            (set_frameCounter (frameCounter t2 + 1) t2) in
                let changeData :=
                  mkChangeData (frameCounter t3) now screenBefore screenAfter
                               (getCursorPosition t3) data in
                mkOutcome (Normal tt) t3 (Some changeData)
                  (notifyChangeListeners (changeListeners t3) changeData)
          end
      end
  end.

End Listeners.

(** ** The rest of the public surface *)

Definition hasChangedSinceLastRead (t : VirtualTerminal) : bool * VirtualTerminal :=
  (hasChangedSinceLastCheck t, set_hasChangedSinceLastCheck false t).

(** [ToInt32] *)
Definition toInt32 (z : Z) : Z := ((z + 2147483648) mod 4294967296 - 2147483648)%Z.

Definition getScreenHash : M Z :=
  screen <- toString ;;
  ret (fold_left (fun hash char =>
                    toInt32 (toInt32 (hash * 32) - hash + Z.of_nat char)%Z)
                 screen 0%Z).

Definition markAsRead : M unit :=
  modify (set_hasChangedSinceLastCheck false) ;;
  h <- getScreenHash ;;
  modify (set_lastScreenHash (Some h)).

(** For new dimensions of at least 1x1, where [newCols - 1] and
    [newRows - 1] are not negative. *)
Definition resize (newCols newRows : nat) : M unit :=
  t <- get ;;
  let oldBuffer := buffer t in
  let oldCols := cols t in
  let oldRows := rows t in
  modify (set_cols newCols) ;;
  modify (set_rows newRows) ;;
  modify (fun t => set_buffer (createEmptyBuffer t) t) ;;
  let copyRows := Nat.min oldRows newRows in
  forEach (range 0 copyRows) (fun y =>
    let copyCols := Nat.min oldCols newCols in
    forEach (range 0 copyCols) (fun x =>
      match nth_error oldBuffer y with
      | None => throw TypeError
      | Some old => setCell y x (cloneCell (Js.get old x))
      end)) ;;
  modify (fun t =>
    set_cursor (Cursor.mk (Nat.min (Cursor.x (cursor t)) (newCols - 1))
                          (Cursor.y (cursor t))) t) ;;
  modify (fun t =>
    set_cursor (Cursor.mk (Cursor.x (cursor t))
                          (Nat.min (Cursor.y (cursor t)) (newRows - 1))) t) ;;
  modify (fun t =>
    set_scrollRegion
      (ScrollRegion.mk (ScrollRegion.top (scrollRegion t))
                       (Nat.min (ScrollRegion.bottom (scrollRegion t)) (newRows - 1))) t).

(** [new VirtualTerminal(cols, rows)] *)
Definition new (cols rows : nat) : VirtualTerminal :=
  mkVirtualTerminal cols rows (emptyBuffer None cols rows)
    (Cursor.mk 0 0) (Cursor.mk 0 0) true
    (ScrollRegion.mk 0 (rows - 1)) None false
    Attr.default
    (ParseState.mk ParseState.normal [] [] [])
    false false 0 [] None false.

(** ** Sequences of public calls *)

Inductive Call : Type :=
| Write (now : nat) (data : JsString)
| Resize (newCols newRows : nat)
| Reset
| OnScreenChange (callback : ListenerId)
| OffScreenChange (callback : ListenerId)
| HasChangedSinceLastRead
| MarkAsRead.

Section Calls.

Variable behaviour : ListenerId -> ChangeData -> option nat.

Definition perform (c : Call) (t : VirtualTerminal) : Outcome :=
  match c with
  | Write now data => write behaviour now data t
  | Resize newCols newRows => silent (resize newCols newRows t)
  | Reset => silent (reset t)
  | OnScreenChange callback => mkOutcome (Normal tt) (onScreenChange callback t) None []
  | OffScreenChange callback => mkOutcome (Normal tt) (offScreenChange callback t) None []
  | HasChangedSinceLastRead => mkOutcome (Normal tt) (snd (hasChangedSinceLastRead t)) None []
  | MarkAsRead => silent (markAsRead t)
  end.

(** A caller performs the calls one after the other on the same
    instance, whether or not an earlier one raised. *)
Fixpoint performAll (calls : list Call) (t : VirtualTerminal) : list Outcome :=
  match calls with
  | [] => []
  | c :: rest => let o := perform c t in o :: performAll rest (after o)
  end.

Fixpoint finalState (calls : list Call) (t : VirtualTerminal) : VirtualTerminal :=
  match calls with
  | [] => t
  | c :: rest => finalState rest (after (perform c t))
  end.

(** The change events fired so far, oldest first. *)
Definition firedEvents (outcomes : list Outcome) : list ChangeData :=
  flat_map (fun o => match fired o with Some d => [d] | None => [] end) outcomes.

End Calls.

(** The listener invocations among the effects of a call. *)
Definition invocations (l : list Effect) : list (ListenerId * ChangeData) :=
  flat_map (fun e => match e with
                     | Invoke listener d => [(listener, d)]
                     | ConsoleError _ _ => []
                     end) l.

(** * Specification vocabulary *)

(** [preserves R m]: the terminal [m] leaves is related by [R] to the
    one it started from, whether [m] returns or raises. *)
Definition preserves {A} (R : VirtualTerminal -> VirtualTerminal -> Prop)
    (m : M A) : Prop :=
  forall t, R t (stateAfter m t).

(** ** What consuming input never touches

    The dimensions, the frame counter, the listener registry, the
    unread-change flag, the stored hash and the logging switches are
    not assigned by any method reachable from [processChar]. *)

Definition sameHost (t t' : VirtualTerminal) : Prop :=
  cols t' = cols t /\ rows t' = rows t /\
  frameCounter t' = frameCounter t /\
  changeListeners t' = changeListeners t /\
  hasChangedSinceLastCheck t' = hasChangedSinceLastCheck t /\
  lastScreenHash t' = lastScreenHash t /\
  debug t' = debug t /\ verbose t' = verbose t.

(** The frame counter and the listener registry are left alone by
    every public call but [write] and the two subscription calls. *)
Definition sameFrame (t t' : VirtualTerminal) : Prop :=
  frameCounter t' = frameCounter t /\ changeListeners t' = changeListeners t.


(** [console.error] reports among the effects of a call. *)
Definition consoleErrors (l : list Effect) : list (ListenerId * nat) :=
  flat_map (fun e => match e with
                     | Invoke _ _ => []
                     | ConsoleError listener raised => [(listener, raised)]
                     end) l.

(** What the listeners in [listeners] raise on [d], in order. *)
Definition raisedBy (behaviour : ListenerId -> ChangeData -> option nat)
    (listeners : list ListenerId) (d : ChangeData) : list (ListenerId * nat) :=
  flat_map (fun l => match behaviour l d with
                     | Some e => [(l, e)]
                     | None => []
                     end) listeners.

(** Callbacks subscribed one after the other. *)
Definition subscribeAll (callbacks : list ListenerId) (t : VirtualTerminal)
  : VirtualTerminal :=
  fold_left (fun t l => onScreenChange l t) callbacks t.

(** A listener that always returns. *)
Definition quiet : ListenerId -> ChangeData -> option nat := fun _ _ => None.

(** ** Trajectories

    The terminals a chunk passes through: one after each character,
    up to and including the one at which a method raised. *)
Fixpoint charStates (data : JsString) (t : VirtualTerminal) : list VirtualTerminal :=
  match data with
  | [] => []
  | char :: rest =>
      match processChar char t with
      | (Normal _, t') => t' :: charStates rest t'
      | (Throw _, t') => [t']
      end
  end.

(** The terminals a public call passes through.  [write] consumes no
    character when rendering the screen raises before the loop. *)
Definition visitedBy (behaviour : ListenerId -> ChangeData -> option nat)
    (c : Call) (t : VirtualTerminal) : list VirtualTerminal :=
  match c with
  | Write _ data =>
      match render (buffer t) with
      | Some _ => charStates data t
      | None => []
      end
  | _ => [after (perform behaviour c t)]
  end.

Fixpoint visited (behaviour : ListenerId -> ChangeData -> option nat)
    (calls : list Call) (t : VirtualTerminal) : list VirtualTerminal :=
  match calls with
  | [] => []
  | c :: rest =>
      visitedBy behaviour c t ++ visited behaviour rest (after (perform behaviour c t))
  end.

(** ** Alternate screen *)

(** The alternate-screen fields are as they were. *)
Definition sameAlt (t t' : VirtualTerminal) : Prop :=
  isAltScreen t' = isAltScreen t /\ altScreenBuffer t' = altScreenBuffer t.

(** A step that may leave the alternate screen but never enters it
    and never replaces the snapshot. *)
Definition altKept (t t' : VirtualTerminal) : Prop :=
  (isAltScreen t = true ->
   (isAltScreen t' = true /\ altScreenBuffer t' = altScreenBuffer t) \/
   isAltScreen t' = false) /\
  (isAltScreen t = false -> isAltScreen t' = false).

(** A step that, if it starts and ends in the alternate screen, has
    kept the snapshot. *)
Definition altHeld (t t' : VirtualTerminal) : Prop :=
  isAltScreen t = true -> isAltScreen t' = true ->
  altScreenBuffer t' = altScreenBuffer t.

(** DEC private mode 1049 set and reset, as [handleCSISequence]
    dispatches them. *)
Definition enterAltScreen : M unit := setMode [1049] (str "?").
Definition leaveAltScreen : M unit := resetMode [1049] (str "?").

(** Entering the alternate screen on [t], performing [inside], and
    leaving it gives back the screen text and the cursor of [t]. *)
Definition altScreenRoundTrip (behaviour : ListenerId -> ChangeData -> option nat)
    (t : VirtualTerminal) (inside : list Call) : Prop :=
  let t1 := stateAfter enterAltScreen t in
  let t2 := finalState behaviour inside t1 in
  let t3 := stateAfter leaveAltScreen t2 in
  render (buffer t3) = render (buffer t) /\ cursor t3 = cursor t.

(** ** Cursor bounds *)

(** A position on the screen, the column just past the last one
    included: that is where the cursor waits after a character was
    printed in the last column. *)
Definition inBounds (t : VirtualTerminal) (c : Cursor.t) : Prop :=
  Cursor.x c <= cols t /\ Cursor.y c < rows t.

(** The cursor, the saved cursor and the cursor of the alternate-screen
    snapshot are positions on the screen. *)
Definition cursorsInBounds (t : VirtualTerminal) : Prop :=
  1 <= cols t /\
  inBounds t (cursor t) /\
  inBounds t (savedCursor t) /\
  match altScreenBuffer t with
  | Some saved => inBounds t (AltScreen.cursor saved)
  | None => True
  end.

(** The top of the scroll region is a row of the screen. *)
Definition topInside (t : VirtualTerminal) : Prop :=
  ScrollRegion.top (scrollRegion t) < rows t.

(** Everything cursor positions are measured against, and the
    positions themselves, are as they were. *)
Definition sameCursors (t t' : VirtualTerminal) : Prop :=
  cols t' = cols t /\ rows t' = rows t /\
  cursor t' = cursor t /\ savedCursor t' = savedCursor t /\
  altScreenBuffer t' = altScreenBuffer t /\
  scrollRegion t' = scrollRegion t.

(** A step that keeps the dimensions and the cursor bounds. *)
Definition boundsKept (t t' : VirtualTerminal) : Prop :=
  cols t' = cols t /\ rows t' = rows t /\
  (cursorsInBounds t -> cursorsInBounds t').


(** In the alternate screen, holding snapshot [saved]. *)
Definition holdsSnapshot (saved : AltScreen.t) (t : VirtualTerminal) : Prop :=
  isAltScreen t = true /\ altScreenBuffer t = Some saved.

Definition inAltScreen (t : VirtualTerminal) : Prop := isAltScreen t = true.

(** [ESC c], and the two mode sequences. *)
Definition sequenceReset : JsString := ESC :: str "c".
Definition sequenceAltOn : JsString := ESC :: str "[?1049h".
Definition sequenceAltOff : JsString := ESC :: str "[?1049l".

(** ** The rendered grid *)

(** [text.split('\n')] *)
Fixpoint splitLines (w : JsString) : list JsString :=
  match w with
  | [] => [[]]
  | c :: rest =>
      if c =? NEWLINE then [] :: splitLines rest
      else match splitLines rest with
           | l :: ls => (c :: l) :: ls
           | [] => [[c]]
           end
  end.

(** [getScreenText()] returns, and what it returns is [rows] lines of
    [cols] characters each. *)
Definition rendersGrid (t : VirtualTerminal) : bool :=
  match render (buffer t) with
  | Some w =>
      (length (splitLines w) =? rows t) &&
      forallb (fun l => length l =? cols t) (splitLines w)
  | None => false
  end.

(** [CSI 1 K] and [CSI 100 r]. *)
Definition sequenceEraseToCursor : JsString := ESC :: str "[1K".
Definition sequenceRegionFrom100 : JsString := ESC :: str "[100r".

(** ** Rows after scrolling *)

(** A row whose first [cols] cells were assigned [v]. *)
Definition clearedRow (cols : nat) (v : Cell) (r : Row) : Row :=
  Js.make cols v ++ skipn cols r.

(** Row [i] after the scroll region of [t] moved up by one: the rows
    of the region take the content of the row below, the bottom row of
    the region is cleared, the rows outside are untouched. *)
Definition regionScrolledUp (t : VirtualTerminal) (i : nat) : option Row :=
  let top := ScrollRegion.top (scrollRegion t) in
  let bottom := ScrollRegion.bottom (scrollRegion t) in
  if i =? bottom then
    option_map (clearedRow (cols t) (blank t)) (nth_error (buffer t) bottom)
  else if (top <=? i) && (i <? bottom) then
    option_map (Js.map cloneCell) (nth_error (buffer t) (i + 1))
  else nth_error (buffer t) i.

(** Row [i] after the scroll region of [t] moved down by one. *)
Definition regionScrolledDown (t : VirtualTerminal) (i : nat) : option Row :=
  let top := ScrollRegion.top (scrollRegion t) in
  let bottom := ScrollRegion.bottom (scrollRegion t) in
  if i =? top then
    option_map (clearedRow (cols t) (blank t)) (nth_error (buffer t) top)
  else if (top <? i) && (i <=? bottom) then
    option_map Js.spread (nth_error (buffer t) (i - 1))
  else nth_error (buffer t) i.

(** Row [i] after the whole buffer of [t] moved up by one. *)
Definition wholeBufferScrolledUp (t : VirtualTerminal) (i : nat) : option Row :=
  if i =? rows t - 1 then
    option_map (clearedRow (cols t) (blank t)) (nth_error (buffer t) (rows t - 1))
  else if i <? rows t - 1 then
    option_map (Js.map cloneCell) (nth_error (buffer t) (i + 1))
  else nth_error (buffer t) i.

(** Two screens with a scroll region that is not the whole screen:
    rows "A", "B", "C" on 5x3 with region rows 1..2 and the cursor on
    the last row; rows "A".."D" on 5x4 with region rows 2..3 and the
    cursor on row 1, above the region. *)
Definition screenABC : VirtualTerminal :=
  after (write quiet 0
           (str "A" ++ [NEWLINE] ++ str "B" ++ [NEWLINE] ++ str "C"
            ++ ESC :: str "[2;3r" ++ ESC :: str "[3;1H")
           (new 5 3)).

Definition screenABCD : VirtualTerminal :=
  after (write quiet 0
           (str "A" ++ [NEWLINE] ++ str "B" ++ [NEWLINE] ++ str "C"
            ++ [NEWLINE] ++ str "D" ++ ESC :: str "[3;4r" ++ ESC :: str "[2;1H")
           (new 5 4)).

(** ** Printed text *)

(** The cell [printChar] stores for [char] under attributes [attr]. *)
Definition printed (attr : Attr.t) (char : CodeUnit) : Js.Slot Cell :=
  Js.Val (mkCell char (Some attr)).

(** Row [r] after the characters of [data] were stored from column [x]
    on, one column each. *)
Fixpoint typed (attr : Attr.t) (r : Row) (x : nat) (data : JsString) : Row :=
  match data with
  | [] => r
  | char :: rest => typed attr (Js.set r x (mkCell char (Some attr))) (S x) rest
  end.

(** What a character is to [handleNormalChar] when it is not a control
    code. *)
Definition printable (c : CodeUnit) : Prop := 32 <= c.

(** The text of row [i] of the screen. *)
Definition lineAt (t : VirtualTerminal) (i : nat) : option JsString :=
  match nth_error (buffer t) i with
  | Some r => rowText r
  | None => None
  end.

(** ** Sessions *)

(** The terminal after [chunks] were written, one call each, to a new
    terminal with listeners that never raise. *)
Definition session (ncols nrows : nat) (chunks : list JsString) : VirtualTerminal :=
  finalState quiet (map (Write 0) chunks) (new ncols nrows).

(** The lines of the screen text. *)
Definition screenLines (t : VirtualTerminal) : option (list JsString) :=
  rowTexts (buffer t).

(** A chunk made of text and control codes. *)
Definition CR : CodeUnit := 13.
Definition TAB : CodeUnit := 9.
Definition BS : CodeUnit := 8.

(** A 10x3 terminal that left the alternate screen with the 5-column
    buffer it had entered it with, then printed "a" in column 7. *)
Definition screenWithShortRows : VirtualTerminal :=
  finalState quiet
    [Write 0 sequenceAltOn; Resize 10 3; Write 1 sequenceAltOff;
     Write 2 (ESC :: str "[1;8H"); Write 3 (str "a")]
    (new 5 3).

(** ** Well-formed terminals *)

(** An element that is a cell: neither a hole nor [undefined]. *)
Definition isVal {A} (s : Js.Slot A) : Prop :=
  match s with
  | Js.Val _ => True
  | _ => False
  end.

(** A row that spans the screen and has a cell at every index. *)
Definition wholeRow (ncols : nat) (r : Row) : Prop :=
  ncols <= length r /\ Forall isVal r.

(** A buffer of [nrows] such rows. *)
Definition wholeBuffer (ncols nrows : nat) (b : Buffer) : Prop :=
  length b = nrows /\ Forall (wholeRow ncols) b.

Definition whole (t : VirtualTerminal) : Prop :=
  wholeBuffer (cols t) (rows t) (buffer t).

(** What the constructor establishes and every method relies on: the
    cursors are positions on the screen, the buffer and the snapshot
    of the alternate screen have a cell for every position, and the
    scroll region lies on the screen. *)
Definition wellFormed (t : VirtualTerminal) : Prop :=
  cursorsInBounds t /\ whole t /\
  ScrollRegion.bottom (scrollRegion t) < rows t /\
  topInside t /\
  match altScreenBuffer t with
  | Some saved => wholeBuffer (cols t) (rows t) (AltScreen.buffer saved)
  | None => True
  end.

(** [m] returns and has only assigned cells, leaving every row whole. *)
Definition paints (m : M unit) (t : VirtualTerminal) : Prop :=
  completionOf m t = Normal tt /\
  sameCursors t (stateAfter m t) /\
  whole (stateAfter m t).

(** [m] returns and leaves a well-formed terminal. *)
Definition fine (m : M unit) (t : VirtualTerminal) : Prop :=
  completionOf m t = Normal tt /\ wellFormed (stateAfter m t).

(** [m] returns and leaves a well-formed terminal, except that it may
    have moved the top of the scroll region off the screen. *)
Definition held (m : M unit) (t : VirtualTerminal) : Prop :=
  completionOf m t = Normal tt /\
  (topInside (stateAfter m t) -> wellFormed (stateAfter m t)).


(** ** Safe integers

    [Number.MAX_SAFE_INTEGER]: up to it [parseInt] of a digit run is
    the decimal value of the run, and a loop that counts up to a number
    ends. *)
Definition maxSafeInteger : Z := 9007199254740991.

Definition safeInteger (n : nat) : bool := (Z.of_nat n <=? maxSafeInteger)%Z.

(** The numbers the parser holds are safe integers: the parameters it
    has read, and the one the digits read so far would give. *)
Definition smallNumbers (t : VirtualTerminal) : bool :=
  forallb safeInteger
    (Js.orElse (parseInt (ParseState.current (parseState t))) 0
     :: ParseState.params (parseState t)).


(** ** The parser as an automaton *)

(** The parse mode [processChar] leaves when it returns, read off the
    four handlers: it depends on the mode and the character only. *)
Definition nextMode (m : ParseState.Mode) (c : CodeUnit) : ParseState.Mode :=
  match m with
  | ParseState.normal =>
      if c =? 27 then ParseState.escape else ParseState.normal
  | ParseState.escape =>
      if isChar c "[" then ParseState.csi
      else if isChar c "]" then ParseState.osc
      else ParseState.normal
  | ParseState.csi =>
      if isDigit c || isChar c ";" || ((32 <=? c) && (c <=? 47)) || isChar c "?"
      then ParseState.csi
      else ParseState.normal
  | ParseState.osc =>
      if (c =? 7) || isChar c "\" then ParseState.normal else ParseState.osc
  end.

Definition modeAfter (m : ParseState.Mode) (data : JsString) : ParseState.Mode :=
  fold_left nextMode data m.

(** The characters on which a handler calls a method that assigns to
    the buffer: line feed and the characters that print, in normal
    mode; [ESC D], [ESC M], [ESC E], [ESC c]; the CSI final characters
    J K L M P S T h l. *)
Definition mayPaint (m : ParseState.Mode) (c : CodeUnit) : bool :=
  match m with
  | ParseState.normal => (c =? 10) || (32 <=? c)
  | ParseState.escape =>
      isChar c "D" || isChar c "M" || isChar c "E" || isChar c "c"
  | ParseState.csi =>
      isChar c "J" || isChar c "K" || isChar c "L" || isChar c "M" ||
      isChar c "P" || isChar c "S" || isChar c "T" || isChar c "h" ||
      isChar c "l"
  | ParseState.osc => false
  end.

(** No character of [data], read from mode [m] on, is one of those. *)
Fixpoint paintFree (m : ParseState.Mode) (data : JsString) : bool :=
  match data with
  | [] => true
  | c :: rest => negb (mayPaint m c) && paintFree (nextMode m c) rest
  end.

(** [m] returns, whatever the terminal. *)
Definition returns {A} (m : M A) : Prop :=
  forall t, exists a, completionOf m t = Normal a.

(** The buffer and the alternate-screen fields are as they were. *)
Definition sameScreen (t t' : VirtualTerminal) : Prop :=
  buffer t' = buffer t /\
  isAltScreen t' = isAltScreen t /\ altScreenBuffer t' = altScreenBuffer t.

(** The control codes [write] is sent for CTRL+C, CTRL+D and CTRL+Z. *)
Definition controlCodes : JsString := [3; 4; 26].

(** The parse state is as it was. *)
Definition sameParse (t t' : VirtualTerminal) : Prop :=
  parseState t' = parseState t.

(** The parse mode of a terminal. *)
Definition mode (t : VirtualTerminal) : ParseState.Mode :=
  ParseState.state (parseState t).

(** The characters of [data] that [processChar] returned on, before
    the first one it raised on. *)
Fixpoint consumed (data : JsString) (t : VirtualTerminal) : JsString :=
  match data with
  | [] => []
  | c :: rest =>
      match processChar c t with
      | (Normal _, t') => c :: consumed rest t'
      | (Throw _, _) => []
      end
  end.

(** The control codes [handleNormalChar] has no case for: below 32
    and none of ESC, BS, TAB, LF, CR.  BEL is one of them. *)
Definition ignoredControl (c : CodeUnit) : bool :=
  (c <? 32) &&
  negb ((c =? 27) || (c =? 8) || (c =? 9) || (c =? 10) || (c =? 13)).

(** The characters that end an OSC string: BEL and the backslash. *)
Definition endsOSC (c : CodeUnit) : bool := (c =? 7) || isChar c "\".

(** The parse state of a terminal that has just read ESC. *)
Definition freshParse (m : ParseState.Mode) : ParseState.t :=
  ParseState.mk m [] [] [].

(** ** Polling for changes *)

(** The calls that clear the unread-change flag. *)
Definition polls (c : Call) : bool :=
  match c with
  | HasChangedSinceLastRead | MarkAsRead => true
  | _ => false
  end.

(** Some call among [outcomes] fired a change event. *)
Definition someFired (outcomes : list Outcome) : bool :=
  existsb (fun o => match fired o with Some _ => true | None => false end) outcomes.

(** ** The shape of the screen text *)

(** A cell that [printChar] or an erasing method stored: it has a
    character, and the character is not a control code. *)
Definition printedSlot (s : Js.Slot Cell) : Prop :=
  match s with
  | Js.Val (mkCell c _) => 32 <= c
  | _ => False
  end.

(** A row of such cells, as wide as the screen or one cell wider. *)
Definition tidyRow (ncols : nat) (r : Row) : Prop :=
  ncols <= length r <= ncols + 1 /\ Forall printedSlot r.

Definition tidyBuffer (ncols nrows : nat) (b : Buffer) : Prop :=
  length b = nrows /\ Forall (tidyRow ncols) b.

(** The buffer and the snapshot of the alternate screen are made of
    such rows. *)
Definition tidy (t : VirtualTerminal) : Prop :=
  tidyBuffer (cols t) (rows t) (buffer t) /\
  match altScreenBuffer t with
  | Some saved => tidyBuffer (cols t) (rows t) (AltScreen.buffer saved)
  | None => True
  end.

(** A line of the screen text of a terminal [ncols] wide. *)
Definition tidyLine (ncols : nat) (l : JsString) : Prop :=
  ncols <= length l <= ncols + 1 /\ Forall (fun c => 32 <= c) l.

(** A blank screen: [nrows] lines of [ncols] spaces. *)
Definition blankLines (ncols nrows : nat) : list JsString :=
  repeat (repeat SPACE ncols) nrows.

(** [CSI 2 J] *)
Definition sequenceClearScreen : JsString := ESC :: str "[2J".

Definition tidyScreen (t : VirtualTerminal) : Prop :=
  tidyBuffer (cols t) (rows t) (buffer t).

(** [m] returns and has only assigned cells, leaving every row tidy. *)
Definition repaints (m : M unit) (t : VirtualTerminal) : Prop :=
  completionOf m t = Normal tt /\
  sameCursors t (stateAfter m t) /\
  tidyScreen (stateAfter m t).

(** A step that keeps a well-formed terminal tidy. *)
Definition tidyKept (t t' : VirtualTerminal) : Prop :=
  wellFormed t -> tidy t -> tidy t'.

(** Nothing but the parse state differs. *)
Definition parseOnly (t t' : VirtualTerminal) : Prop :=
  exists p, t' = set_parseState p t.

(** [m] returns and leaves a well-formed, tidy terminal. *)
Definition keepsTidy (m : M unit) (t : VirtualTerminal) : Prop :=
  completionOf m t = Normal tt /\
  wellFormed (stateAfter m t) /\ tidy (stateAfter m t).

(** ** Erasing and scrolling, in closed form *)

(** The cursor row [r] after [eraseInLine(mode)]. *)
Definition erasedRow (mode : nat) (t : VirtualTerminal) (r : Row) : Row :=
  let x := Cursor.x (cursor t) in
  match mode with
  | 0 => firstn x r ++ Js.make (cols t - x) (blank t) ++ skipn (Nat.max x (cols t)) r
  | 1 => clearedRow (x + 1) (blank t) r
  | 2 => clearedRow (cols t) (blank t) r
  | _ => r
  end.

(** Row [i] after [eraseInDisplay(mode)] for a mode other than 2: mode 0
    erases the cursor row from the cursor on and clears the rows below
    it, mode 1 clears the rows above it and erases the cursor row
    through the cursor. *)
Definition erasedDisplay (mode : nat) (t : VirtualTerminal) (i : nat) : option Row :=
  let y := Cursor.y (cursor t) in
  match mode with
  | 0 => if i =? y then option_map (erasedRow 0 t) (nth_error (buffer t) i)
         else if (y <? i) && (i <? rows t)
              then option_map (clearedRow (cols t) (blank t)) (nth_error (buffer t) i)
              else nth_error (buffer t) i
  | 1 => if i =? y then option_map (erasedRow 1 t) (nth_error (buffer t) i)
         else if i <? y
              then option_map (clearedRow (cols t) (blank t)) (nth_error (buffer t) i)
              else nth_error (buffer t) i
  | _ => nth_error (buffer t) i
  end.

(** Row [i] after the scroll region of [t] moved up by [n] rows: a row
    of the region takes the content of the row [n] below it while that
    one is in the region, and is blank otherwise. *)
Definition scrolledUpBy (n : nat) (t : VirtualTerminal) (i : nat) : option Row :=
  let top := ScrollRegion.top (scrollRegion t) in
  let bottom := ScrollRegion.bottom (scrollRegion t) in
  if n =? 0 then nth_error (buffer t) i
  else if (i =? bottom) || ((top <=? i) && (i <? bottom)) then
    if i + n <=? bottom then nth_error (buffer t) (i + n)
    else option_map (clearedRow (cols t) (blank t)) (nth_error (buffer t) bottom)
  else nth_error (buffer t) i.

(** Row [i] after the scroll region of [t] moved down by [n] rows: a row
    of the region takes the content of the row [n] above it while that
    one is in the region, and is blank otherwise. *)
Definition scrolledDownBy (n : nat) (t : VirtualTerminal) (i : nat) : option Row :=
  let top := ScrollRegion.top (scrollRegion t) in
  let bottom := ScrollRegion.bottom (scrollRegion t) in
  if n =? 0 then nth_error (buffer t) i
  else if (i =? top) || ((top <? i) && (i <=? bottom)) then
    if top + n <=? i then nth_error (buffer t) (i - n)
    else option_map (clearedRow (cols t) (blank t)) (nth_error (buffer t) top)
  else nth_error (buffer t) i.

(** [t] with the scroll region starting at the row of the cursor. *)
Definition regionFromCursor (t : VirtualTerminal) : VirtualTerminal :=
  set_scrollRegion
    (ScrollRegion.mk (Cursor.y (cursor t)) (ScrollRegion.bottom (scrollRegion t))) t.

(** The 5x3 terminal that shows "abcde" with the cursor on "c". *)
Definition screenAbcde : VirtualTerminal :=
  after (write quiet 0 (str "abcde" ++ ESC :: str "[1;3H") (new 5 3)).




(** ** Deleting characters *)

(** Element [j] of the cursor row [r] after [deleteCharacters(k)]: the
    cells right of the cursor move [k] columns to the left, and the
    columns they leave at the end of the line are blank. *)
Definition deletedCell (k : nat) (t : VirtualTerminal) (r : Row) (j : nat)
  : option (Js.Slot Cell) :=
  if j <? Cursor.x (cursor t) then nth_error r j
  else if j + k <? cols t then nth_error r (j + k)
  else if j <? cols t then Some (Js.Val (blank t))
  else nth_error r j.

(** ** CSI parameters *)

(** A run of decimal digits. *)
Definition digits (w : JsString) : Prop := Forall (fun d => isDigit d = true) w.

(** What [parseInt(current) || 0] gives for a run of digits. *)
Definition paramValue (w : JsString) : nat := Js.orElse (parseInt w) 0.

(** The parameter strings of a sequence, joined by [;]. *)
Fixpoint joinParams (dss : list JsString) : JsString :=
  match dss with
  | [] => []
  | [ds] => ds
  | ds :: rest => ds ++ nat_of_ascii ";" :: joinParams rest
  end.

(** The parameter list the parser has built when the final character
    arrives: one number for every string that is followed by [;], and
    one for the last string unless it is empty. *)
Fixpoint decodedParams (dss : list JsString) : list nat :=
  match dss with
  | [] => []
  | [ds] => match ds with [] => [] | _ => [paramValue ds] end
  | ds :: rest => paramValue ds :: decodedParams rest
  end.

(** A character that ends a CSI sequence. *)
Definition isFinal (c : CodeUnit) : bool :=
  negb (isDigit c || isChar c ";" || ((32 <=? c) && (c <=? 47)) || isChar c "?").

(** ** Saving and restoring the cursor *)

(** The characters on which a handler assigns the saved cursor:
    [ESC 7] and [CSI s] save, [ESC c] resets. *)
Definition maySave (m : ParseState.Mode) (c : CodeUnit) : bool :=
  match m with
  | ParseState.escape => isChar c "7" || isChar c "c"
  | ParseState.csi => isChar c "s"
  | _ => false
  end.

(** No character of [data], read from mode [m] on, is one of those. *)
Fixpoint saveFree (m : ParseState.Mode) (data : JsString) : bool :=
  match data with
  | [] => true
  | c :: rest => negb (maySave m c) && saveFree (nextMode m c) rest
  end.

(** The saved cursor is as it was. *)
Definition sameSaved (t t' : VirtualTerminal) : Prop :=
  savedCursor t' = savedCursor t.

(** [ESC 7] and [ESC 8]; [CSI s] and [CSI u]. *)
Definition sequenceSave : JsString := ESC :: str "7".
Definition sequenceRestore : JsString := ESC :: str "8".
Definition sequenceSaveCSI : JsString := ESC :: str "[s".
Definition sequenceRestoreCSI : JsString := ESC :: str "[u".

(** ** The screen hash *)

(** The numbers of a signed 32-bit integer. *)
Definition isInt32 (z : Z) : Prop := (- 2147483648 <= z < 2147483648)%Z.

(** ** Writing in chunks *)

(** [t] with the frame counter and the unread-change flag replaced. *)
Definition withEvents (frames : nat) (unread : bool) (t : VirtualTerminal)
  : VirtualTerminal :=
  set_hasChangedSinceLastCheck unread (set_frameCounter frames t).

(** Two terminals that differ at most in the frame counter and the
    unread-change flag. *)
Definition sameButEvents (t t' : VirtualTerminal) : Prop :=
  withEvents 0 false t' = withEvents 0 false t.

(** [m] neither reads nor assigns the frame counter and the
    unread-change flag: it runs the same way whatever they hold. *)
Definition ignoresEvents {A} (m : M A) : Prop :=
  forall frames unread t,
    m (withEvents frames unread t)
    = (completionOf m t, withEvents frames unread (stateAfter m t)).

(** * The embedding on the scenarios of the test suite

    Each example replays a test of the repository's suite for the
    terminal, or a scenario of its documentation, and states what the
    test asserts. *)

Example test_basic_character_printing :
  screenLines (session 10 3 [str "Hello"])
  = Some [str "Hello     "; str "          "; str "          "] /\
  cursor (session 10 3 [str "Hello"]) = Cursor.mk 5 0.
Proof. vm_compute. split; reflexivity. Qed.

Example test_line_wrapping :
  screenLines (session 5 3 [str "HelloWorld"])
  = Some [str "Hello"; str "World"; str "     "] /\
  cursor (session 5 3 [str "HelloWorld"]) = Cursor.mk 5 1.
Proof. vm_compute. split; reflexivity. Qed.

Example test_carriage_return_and_line_feed :
  screenLines (session 10 3 [str "Hello" ++ [CR; NEWLINE] ++ str "World"])
  = Some [str "Hello     "; str "World     "; str "          "] /\
  cursor (session 10 3 [str "Hello" ++ [CR; NEWLINE] ++ str "World"]) = Cursor.mk 5 1.
Proof. vm_compute. split; reflexivity. Qed.

Example test_cursor_up :
  cursor (session 10 5 [str "Line1" ++ [NEWLINE] ++ str "Line2" ++ [NEWLINE] ++ str "Line3"])
  = Cursor.mk 5 2 /\
  cursor (session 10 5 [str "Line1" ++ [NEWLINE] ++ str "Line2" ++ [NEWLINE] ++ str "Line3";
                        ESC :: str "[2A"])
  = Cursor.mk 5 0.
Proof. vm_compute. split; reflexivity. Qed.

Example test_cursor_save_and_restore :
  cursor (session 10 5 [ESC :: str "[3;4H"]) = Cursor.mk 3 2 /\
  cursor (session 10 5 [ESC :: str "[3;4H"; ESC :: str "[s"; ESC :: str "[1;1H";
                        ESC :: str "[u"])
  = Cursor.mk 3 2.
Proof. vm_compute. split; reflexivity. Qed.

Example test_clear_screen :
  screenLines (session 5 3 [str "Hello" ++ [NEWLINE] ++ str "World" ++ [NEWLINE] ++ str "Test";
                            ESC :: str "[2J"])
  = Some [str "     "; str "     "; str "     "] /\
  cursor (session 5 3 [str "Hello" ++ [NEWLINE] ++ str "World" ++ [NEWLINE] ++ str "Test";
                       ESC :: str "[2J"])
  = Cursor.mk 0 0.
Proof. vm_compute. split; reflexivity. Qed.

Example test_clear_line :
  lineAt (session 15 3 [str "Hello World" ++ [NEWLINE] ++ str "Second Line" ++ [NEWLINE]
                        ++ str "Third Line";
                        ESC :: str "[2;6H"; ESC :: str "[K"]) 1
  = Some (str "Secon          ").
Proof. vm_compute. reflexivity. Qed.

Example test_scrolling_with_multiple_lines :
  screenLines (session 5 3 [str "L1" ++ [NEWLINE] ++ str "L2" ++ [NEWLINE] ++ str "L3"
                            ++ [NEWLINE] ++ str "L4" ++ [NEWLINE] ++ str "L5"])
  = Some [str "L3   "; str "L4   "; str "L5   "].
Proof. vm_compute. reflexivity. Qed.

Example test_complex_cursor_movements :
  lineAt (session 10 5 [str "1234567890" ++ [NEWLINE] ++ str "ABCDEFGHIJ" ++ [NEWLINE]
                        ++ str "qwertyuiop";
                        ESC :: str "[2;3H"; str "X"]) 1
  = Some (str "ABXDEFGHIJ").
Proof. vm_compute. reflexivity. Qed.

Example test_alternative_screen_buffer :
  screenLines (session 5 3 [str "Main" ++ [NEWLINE] ++ str "Screen" ++ [NEWLINE] ++ str "Text";
                            sequenceAltOn;
                            str "Alt" ++ [NEWLINE] ++ str "Buffer" ++ [NEWLINE] ++ str "Mode"])
  <> screenLines (session 5 3 [str "Main" ++ [NEWLINE] ++ str "Screen" ++ [NEWLINE] ++ str "Text"]) /\
  screenLines (session 5 3 [str "Main" ++ [NEWLINE] ++ str "Screen" ++ [NEWLINE] ++ str "Text";
                            sequenceAltOn;
                            str "Alt" ++ [NEWLINE] ++ str "Buffer" ++ [NEWLINE] ++ str "Mode";
                            sequenceAltOff])
  = screenLines (session 5 3 [str "Main" ++ [NEWLINE] ++ str "Screen" ++ [NEWLINE] ++ str "Text"]).
Proof. vm_compute. split; [discriminate | reflexivity]. Qed.

Example test_tab_character_handling :
  lineAt (session 20 3 [str "A" ++ [TAB] ++ str "B" ++ [TAB] ++ str "C"]) 0
  = Some (str "A       B       C   ").
Proof. vm_compute. reflexivity. Qed.

Example test_backspace_handling :
  lineAt (session 10 3 [str "Hello" ++ [BS] ++ str "X"]) 0 = Some (str "HellX     ").
Proof. vm_compute. reflexivity. Qed.

Example test_cursor_bounds_checking :
  cursor (session 5 3 [ESC :: str "[10;10H"]) = Cursor.mk 4 2.
Proof. vm_compute. reflexivity. Qed.

Example test_resize_terminal :
  screenLines
    (stateAfter (resize 8 3)
       (session 10 5 [str "Hello" ++ [NEWLINE] ++ str "World" ++ [NEWLINE] ++ str "Test"
                      ++ [NEWLINE] ++ str "More" ++ [NEWLINE] ++ str "Text"]))
  = Some [str "Hello   "; str "World   "; str "Test    "].
Proof. vm_compute. reflexivity. Qed.

(** Documentation scenario: one subscriber; "Hello" fires once, a
    hundred rounds of cursor home, save and restore fire nothing, "New"
    fires once more. *)
Example scenario_cursor_only_writes_fire_nothing :
  length (firedEvents
            (performAll quiet
               (map (Write 0)
                    (str "Hello"
                     :: concat (repeat [ESC :: str "[H"; ESC :: str "[s"; ESC :: str "[u"] 100)))
               (onScreenChange 7 (new 20 5)))) = 1 /\
  length (firedEvents
            (performAll quiet
               (map (Write 0)
                    (str "Hello"
                     :: concat (repeat [ESC :: str "[H"; ESC :: str "[s"; ESC :: str "[u"] 100)
                     ++ [str "New"]))
               (onScreenChange 7 (new 20 5)))) = 2.
Proof. vm_compute. split; reflexivity. Qed.

(** A listener that raises does not keep the next one from being
    invoked: callbacks 3, 1, 2, of which 1 raises. *)
Example scenario_raising_listener :
  effects (write (fun l _ => if l =? 1 then Some 42 else None) 0 (str "Hi")
             (subscribeAll [3; 1; 2] (new 5 3)))
  = let d := mkChangeData 1 0
               (str "     " ++ [NEWLINE] ++ str "     " ++ [NEWLINE] ++ str "     ")
               (str "Hi   " ++ [NEWLINE] ++ str "     " ++ [NEWLINE] ++ str "     ")
               (Cursor.mk 2 0) (str "Hi") in
    [Invoke 3 d; Invoke 1 d; ConsoleError 1 42; Invoke 2 d].
Proof. vm_compute. reflexivity. Qed.

(** * Reasoning about computations *)

Lemma bind_run {A B} (m : M A) (k : A -> M B) (t : VirtualTerminal) :
  bind m k t = match m t with
               | (Normal a, t') => k a t'
               | (Throw e, t') => (Throw e, t')
               end.
Proof. reflexivity. Qed.

Lemma forEach_cons (i : nat) (l : list nat) (body : nat -> M unit) :
  forEach (i :: l) body = (body i ;; forEach l body).
Proof. reflexivity. Qed.

Lemma forEach_app (l1 l2 : list nat) (body : nat -> M unit) (t : VirtualTerminal) :
  forEach (l1 ++ l2) body t = (forEach l1 body ;; forEach l2 body) t.
Proof.
  revert t; induction l1 as [|i l1 IH]; intro t.
  - reflexivity.
  - cbn [app forEach]. rewrite !bind_run.
    destruct (body i t) as [[u|e] t1]; [apply IH | reflexivity].
Qed.

(** ** Relations every step of a computation respects *)

Section Preserves.

Variable R : VirtualTerminal -> VirtualTerminal -> Prop.
Hypothesis R_refl : forall t, R t t.
Hypothesis R_trans : forall t1 t2 t3, R t1 t2 -> R t2 t3 -> R t1 t3.

Lemma preserves_ret {A} (a : A) : preserves R (ret a).
Proof. intro t; apply R_refl. Qed.

Lemma preserves_throw {A} (e : Exn) : preserves R (@throw A e).
Proof. intro t; apply R_refl. Qed.

Lemma preserves_get : preserves R get.
Proof. intro t; apply R_refl. Qed.

Lemma preserves_modify (f : VirtualTerminal -> VirtualTerminal) :
  (forall t, R t (f t)) -> preserves R (modify f).
Proof. intros H t; apply H. Qed.

Lemma preserves_bind {A B} (m : M A) (k : A -> M B) :
  preserves R m -> (forall a, preserves R (k a)) -> preserves R (bind m k).
Proof.
  intros Hm Hk t. unfold stateAfter. rewrite bind_run.
  specialize (Hm t). unfold stateAfter in Hm.
  destruct (m t) as [[a|e] t1]; cbn in *.
  - eapply R_trans; [exact Hm | apply Hk].
  - exact Hm.
Qed.

Lemma preserves_forEach (l : list nat) (body : nat -> M unit) :
  (forall i, preserves R (body i)) -> preserves R (forEach l body).
Proof.
  intro H; induction l as [|i l IH]; cbn [forEach].
  - apply preserves_ret.
  - apply preserves_bind; [apply H | intros _; exact IH].
Qed.

Lemma preserves_times (count : nat) (body : M unit) :
  preserves R body -> preserves R (times count body).
Proof. intro H; apply preserves_forEach; intros _; exact H. Qed.

Lemma preserves_when (b : bool) (m : M unit) :
  preserves R m -> preserves R (when b m).
Proof. intro H; destruct b; [exact H | apply preserves_ret]. Qed.

End Preserves.

Create HintDb frame.

Ltac head_of m :=
  lazymatch m with
  | ?f _ => head_of f
  | _ => m
  end.

(** [frame_with refl trans tac] walks through a computation built from
    the combinators above, opening the methods it meets, and leaves
    each field assignment to [tac]. *)
Ltac frame_with Hrefl Htrans tac :=
  repeat lazymatch goal with
  | |- preserves _ (bind _ _) =>
      apply (preserves_bind _ Htrans); [ | intro ]
  | |- preserves _ (ret _) => apply (preserves_ret _ Hrefl)
  | |- preserves _ (throw _) => apply (preserves_throw _ Hrefl)
  | |- preserves _ get => apply (preserves_get _ Hrefl)
  | |- preserves _ (forEach _ _) =>
      apply (preserves_forEach _ Hrefl Htrans); intro
  | |- preserves _ (times _ _) => apply (preserves_times _ Hrefl Htrans)
  | |- preserves _ (when _ _) => apply (preserves_when _ Hrefl)
  | |- preserves _ (modify _) => apply preserves_modify; intro; tac
  | |- preserves _ (if ?b then _ else _) => destruct b
  | |- preserves _ (match ?o with _ => _ end) => destruct o
  | |- preserves _ ?m =>
      first [ solve [auto with frame] | let h := head_of m in unfold h ]
  end.

Lemma sameHost_refl t : sameHost t t.
Proof. repeat split. Qed.

Lemma sameHost_trans t1 t2 t3 : sameHost t1 t2 -> sameHost t2 t3 -> sameHost t1 t3.
Proof. unfold sameHost; intuition congruence. Qed.

Ltac host := frame_with sameHost_refl sameHost_trans ltac:(repeat split).

Lemma processChar_sameHost (char : CodeUnit) : preserves sameHost (processChar char).
Proof. host. Qed.

Lemma processChars_sameHost (data : JsString) : preserves sameHost (processChars data).
Proof. host. Qed.

(** ** Change detection *)

Lemma toString_run (t : VirtualTerminal) :
  toString t = match render (buffer t) with
               | Some w => (Normal w, t)
               | None => (Throw TypeError, t)
               end.
Proof.
  unfold toString. rewrite bind_run. cbn.
  destruct (render (buffer t)); reflexivity.
Qed.

Lemma invocations_notify behaviour (listeners : list ListenerId) (d : ChangeData) :
  invocations (notifyChangeListeners behaviour listeners d)
  = map (fun l => (l, d)) listeners.
Proof.
  unfold invocations in *.
  induction listeners as [|l rest IH]; cbn [notifyChangeListeners flat_map map app];
    [reflexivity|].
  destruct (behaviour l d); cbn [flat_map app]; now rewrite IH.
Qed.


Lemma sameFrame_refl t : sameFrame t t.
Proof. split; reflexivity. Qed.

Lemma sameFrame_trans t1 t2 t3 : sameFrame t1 t2 -> sameFrame t2 t3 -> sameFrame t1 t3.
Proof. unfold sameFrame; intuition congruence. Qed.

Ltac frame_only := frame_with sameFrame_refl sameFrame_trans ltac:(repeat split).

Lemma resize_sameFrame (newCols newRows : nat) : preserves sameFrame (resize newCols newRows).
Proof. frame_only. Qed.

Lemma reset_sameFrame : preserves sameFrame reset.
Proof. frame_only. Qed.

Lemma markAsRead_sameFrame : preserves sameFrame markAsRead.
Proof. frame_only. Qed.

Lemma silent_after {A} (r : Completion A * VirtualTerminal) :
  after (silent r) = snd r /\ fired (silent r) = None /\ effects (silent r) = [].
Proof. destruct r as [[a|e] t]; repeat split. Qed.





(** ** Listener notification *)

Lemma consoleErrors_notify behaviour (listeners : list ListenerId) (d : ChangeData) :
  consoleErrors (notifyChangeListeners behaviour listeners d)
  = raisedBy behaviour listeners d.
Proof.
  unfold consoleErrors, raisedBy.
  induction listeners as [|l rest IH]; cbn [notifyChangeListeners flat_map app];
    [reflexivity|].
  destruct (behaviour l d); cbn [flat_map app]; now rewrite IH.
Qed.

Lemma write_ignores_raises behaviour (now : nat) (data : JsString)
    (t : VirtualTerminal) :
  completion (write behaviour now data t) = completion (write quiet now data t) /\
  after (write behaviour now data t) = after (write quiet now data t) /\
  fired (write behaviour now data t) = fired (write quiet now data t) /\
  effects (write behaviour now data t)
  = match fired (write behaviour now data t) with
    | Some d => notifyChangeListeners behaviour (changeListeners t) d
    | None => []
    end.
Proof.
  pose proof (processChars_sameHost data t) as Hh. unfold stateAfter in Hh.
  unfold write. rewrite toString_run.
  destruct (render (buffer t)); [|now repeat split].
  destruct (processChars data t) as [[u|e] t1]; [|now repeat split].
  cbn [snd] in Hh. destruct Hh as (_ & _ & _ & Hl & _).
  rewrite toString_run.
  destruct (render (buffer t1)); [|now repeat split].
  destruct (list_eq_dec Nat.eq_dec j j0); [now repeat split|].
  cbn. rewrite Hl. now repeat split.
Qed.

Lemma subscribeAll_app (callbacks : list ListenerId) (t : VirtualTerminal) :
  NoDup callbacks ->
  (forall l, In l callbacks -> ~ In l (changeListeners t)) ->
  changeListeners (subscribeAll callbacks t) = changeListeners t ++ callbacks.
Proof.
  unfold subscribeAll.
  revert t; induction callbacks as [|l rest IH]; intros t Hnd Hfresh; cbn [fold_left].
  - now rewrite app_nil_r.
  - inversion Hnd as [|? ? Hl Hrest]; subst.
    assert (Hadd : changeListeners (onScreenChange l t) = changeListeners t ++ [l]).
    { unfold onScreenChange.
      destruct (existsb (Nat.eqb l) (changeListeners t)) eqn:E; [|reflexivity].
      apply existsb_exists in E. destruct E as (l' & Hin & Heq).
      apply Nat.eqb_eq in Heq; subst l'.
      exfalso; apply (Hfresh l); [now left | exact Hin]. }
    rewrite IH; [rewrite Hadd, <- app_assoc; reflexivity | exact Hrest |].
    intros l' Hin' Hin. rewrite Hadd in Hin. apply in_app_or in Hin.
    destruct Hin as [Hin|[->|[]]].
    + apply (Hfresh l'); [now right | exact Hin].
    + contradiction.
Qed.

(** C6.  When a change event fires, every registered listener is
    invoked with it, once, in the order of the registry, which is the
    order of registration; what a listener raises is caught and handed
    to [console.error], the listeners after it are still invoked, and
    [write] completes, and leaves the terminal, exactly as it does when
    no listener raises. *)
Theorem listeners_invoked_in_order_despite_raises :
  forall behaviour : ListenerId -> ChangeData -> option nat,
    (forall listeners d,
        invocations (notifyChangeListeners behaviour listeners d)
        = map (fun l => (l, d)) listeners /\
        consoleErrors (notifyChangeListeners behaviour listeners d)
        = raisedBy behaviour listeners d) /\
    (forall now data t,
        completion (write behaviour now data t) = completion (write quiet now data t) /\
        after (write behaviour now data t) = after (write quiet now data t) /\
        fired (write behaviour now data t) = fired (write quiet now data t) /\
        effects (write behaviour now data t)
        = match fired (write behaviour now data t) with
          | Some d => notifyChangeListeners behaviour (changeListeners t) d
          | None => []
          end) /\
    (forall callbacks cols rows,
        NoDup callbacks ->
        changeListeners (subscribeAll callbacks (new cols rows)) = callbacks).
Proof.
  intro behaviour. split; [|split].
  - intros; split; [apply invocations_notify | apply consoleErrors_notify].
  - intros; apply write_ignores_raises.
  - intros callbacks c r Hnd.
    rewrite subscribeAll_app; [reflexivity | exact Hnd | intros l _ []].
Qed.

(** ** Rendering rows *)

Lemma rowChars_printed (attr : Attr.t) (data : JsString) (n : nat)
    (a : option Attr.t) :
  rowChars (map (printed attr) data ++ Js.make n (mkCell SPACE a))
  = Some (map (fun c => Js.Val (Some [c])) data ++ repeat (Js.Val (Some [SPACE])) n).
Proof.
  induction data as [|c rest IH]; cbn [map app rowChars printed charOf].
  - unfold Js.make. induction n as [|n IHn]; cbn [repeat rowChars charOf]; [reflexivity|].
    now rewrite IHn.
  - now rewrite IH.
Qed.

Lemma rowText_printed (attr : Attr.t) (data : JsString) (n : nat)
    (a : option Attr.t) :
  rowText (map (printed attr) data ++ Js.make n (mkCell SPACE a))
  = Some (data ++ repeat SPACE n).
Proof.
  unfold rowText. rewrite rowChars_printed. cbn [option_map]. f_equal.
  unfold Js.join. rewrite map_app, concat_app, map_map.
  f_equal.
  - induction data as [|c rest IH]; cbn; [reflexivity | now rewrite IH].
  - induction n as [|n IH]; cbn; [reflexivity | now rewrite IH].
Qed.

Lemma rowText_make (cols : nat) (attr : option Attr.t) :
  rowText (Js.make cols (mkCell SPACE attr)) = Some (repeat SPACE cols).
Proof. exact (rowText_printed Attr.default [] cols attr). Qed.

Lemma rowTexts_emptyBuffer (attr : option Attr.t) (cols rows : nat) :
  rowTexts (emptyBuffer attr cols rows) = Some (repeat (repeat SPACE cols) rows).
Proof.
  unfold emptyBuffer. induction rows as [|n IH]; cbn [repeat rowTexts]; [reflexivity|].
  now rewrite rowText_make, IH.
Qed.

Lemma render_emptyBuffer (attr : option Attr.t) (cols rows : nat) :
  render (emptyBuffer attr cols rows)
  = Some (Js.joinWith [NEWLINE] (repeat (repeat SPACE cols) rows)).
Proof. unfold render. now rewrite rowTexts_emptyBuffer. Qed.

(** ** Reset *)

(** C10.  [reset()] returns, gives the buffer, the cursor, the saved
    cursor, the scroll region, the current attributes, the cursor
    visibility and the alternate-screen state their initial values (the
    screen reads as that of a new terminal of the same size), and
    leaves the frame counter, the listener registry, the unread-change
    flag and the pending parse state (as well as the dimensions, the
    stored hash and the logging switches) as they were.  [ESC c] runs
    exactly [reset()] and then puts the parser back to normal. *)
Theorem reset_reinitialises_screen_keeps_rest :
  forall t : VirtualTerminal,
    completionOf reset t = Normal tt /\
    buffer (stateAfter reset t) = emptyBuffer (Some (currentAttr t)) (cols t) (rows t) /\
    render (buffer (stateAfter reset t)) = render (buffer (new (cols t) (rows t))) /\
    cursor (stateAfter reset t) = cursor (new (cols t) (rows t)) /\
    cursor (stateAfter reset t) = Cursor.mk 0 0 /\
    savedCursor (stateAfter reset t) = Cursor.mk 0 0 /\
    scrollRegion (stateAfter reset t) = ScrollRegion.mk 0 (rows t - 1) /\
    currentAttr (stateAfter reset t) = Attr.default /\
    cursorVisible (stateAfter reset t) = true /\
    isAltScreen (stateAfter reset t) = false /\
    altScreenBuffer (stateAfter reset t) = None /\
    frameCounter (stateAfter reset t) = frameCounter t /\
    changeListeners (stateAfter reset t) = changeListeners t /\
    hasChangedSinceLastCheck (stateAfter reset t) = hasChangedSinceLastCheck t /\
    parseState (stateAfter reset t) = parseState t /\
    cols (stateAfter reset t) = cols t /\
    rows (stateAfter reset t) = rows t /\
    lastScreenHash (stateAfter reset t) = lastScreenHash t /\
    debug (stateAfter reset t) = debug t /\
    verbose (stateAfter reset t) = verbose t /\
    handleEscapeChar (nat_of_ascii "c") t = (reset ;; setParseMode ParseState.normal) t.
Proof.
  intro t.
  assert (Hr : render (buffer (stateAfter reset t)) = render (buffer (new (cols t) (rows t)))).
  { change (buffer (stateAfter reset t)) with (emptyBuffer (Some (currentAttr t)) (cols t) (rows t)).
    change (buffer (new (cols t) (rows t))) with (emptyBuffer None (cols t) (rows t)).
    now rewrite !render_emptyBuffer. }
  repeat split; try exact Hr.
Qed.

(** ** Running a computation step by step *)

Lemma stateAfter_bind {A B} (m : M A) (k : A -> M B) (t : VirtualTerminal) :
  stateAfter (bind m k) t
  = match completionOf m t with
    | Normal a => stateAfter (k a) (stateAfter m t)
    | Throw _ => stateAfter m t
    end.
Proof.
  unfold stateAfter, completionOf. rewrite bind_run.
  destruct (m t) as [[a|e] t1]; reflexivity.
Qed.

Lemma completionOf_bind {A B} (m : M A) (k : A -> M B) (t : VirtualTerminal) :
  completionOf (bind m k) t
  = match completionOf m t with
    | Normal a => completionOf (k a) (stateAfter m t)
    | Throw e => Throw e
    end.
Proof.
  unfold stateAfter, completionOf. rewrite bind_run.
  destruct (m t) as [[a|e] t1]; reflexivity.
Qed.

(** ** From the methods to the parser

    A relation [P] that holds of the three handlers that call methods
    holds of [processChar], provided the bookkeeping of the parser (a
    relation [E] about fields the parse state is not part of) can be
    put before and after it. *)

Section Dispatch.

Variables E P : VirtualTerminal -> VirtualTerminal -> Prop.
Hypothesis E_refl : forall t, E t t.
Hypothesis E_parse : forall t p, E t (set_parseState p t).
Hypothesis E_in_P : forall t t', E t t' -> P t t'.
Hypothesis E_P_E : forall t t1 t2 t3, E t t1 -> P t1 t2 -> E t2 t3 -> P t t3.
Hypothesis P_csi :
  forall c ps i t, P t (stateAfter (handleCSISequence c ps i) t).
Hypothesis P_normal : forall c t, P t (stateAfter (handleNormalChar c) t).
Hypothesis P_escape : forall c t, P t (stateAfter (handleEscapeChar c) t).

Lemma handleCSIChar_rel (c : CodeUnit) (t : VirtualTerminal) :
  P t (stateAfter (handleCSIChar c) t).
Proof.
  unfold handleCSIChar.
  destruct (isDigit c); [apply E_in_P, E_parse|].
  destruct (isChar c ";").
  { rewrite stateAfter_bind. cbn [completionOf pushParam modify fst].
    unfold stateAfter, pushParam, modify; cbn [snd].
    eapply E_P_E; [apply E_parse | apply E_in_P, E_refl | apply E_parse]. }
  destruct ((32 <=? c) && (c <=? 47)); [apply E_in_P, E_parse|].
  destruct (isChar c "?"); [apply E_in_P, E_parse|].
  rewrite stateAfter_bind. cbn [completionOf stateAfter get fst snd].
  rewrite stateAfter_bind.
  set (b := negb (length (ParseState.current (parseState t)) =? 0)).
  assert (Hw : completionOf (when b pushParam) t = Normal tt /\
               E t (stateAfter (when b pushParam) t)).
  { destruct b; cbn; split; try reflexivity; [apply E_parse | apply E_refl]. }
  destruct Hw as [-> Hw].
  set (t1 := stateAfter (when b pushParam) t) in *.
  rewrite stateAfter_bind. cbn [completionOf stateAfter get fst snd].
  rewrite stateAfter_bind.
  pose proof (P_csi c (ParseState.params (parseState t1))
                    (ParseState.intermediate (parseState t1)) t1) as Hc.
  fold (completionOf (handleCSISequence c (ParseState.params (parseState t1))
                        (ParseState.intermediate (parseState t1))) t1).
  fold (stateAfter (handleCSISequence c (ParseState.params (parseState t1))
                        (ParseState.intermediate (parseState t1))) t1).
  destruct (completionOf _ t1).
  - eapply E_P_E; [exact Hw | exact Hc | apply E_parse].
  - eapply E_P_E; [exact Hw | exact Hc | apply E_refl].
Qed.

Lemma handleOSCChar_rel (c : CodeUnit) (t : VirtualTerminal) :
  P t (stateAfter (handleOSCChar c) t).
Proof.
  unfold handleOSCChar. apply E_in_P.
  destruct ((c =? 7) || isChar c "\"); [apply E_parse | apply E_refl].
Qed.

Lemma processChar_rel (c : CodeUnit) (t : VirtualTerminal) :
  P t (stateAfter (processChar c) t).
Proof.
  unfold processChar. rewrite stateAfter_bind. cbn [completionOf stateAfter get fst snd].
  destruct (ParseState.state (parseState t)).
  - apply P_normal.
  - apply P_escape.
  - apply handleCSIChar_rel.
  - apply handleOSCChar_rel.
Qed.

End Dispatch.

(** ** Along a trajectory *)

Section Along.

Variables Inv Good : VirtualTerminal -> Prop.
Hypothesis step :
  forall c t, Inv t -> Good (stateAfter (processChar c) t) ->
              Inv (stateAfter (processChar c) t).

Lemma processChars_along (data : JsString) (t : VirtualTerminal) :
  Inv t -> Forall Good (charStates data t) ->
  Inv (stateAfter (processChars data) t).
Proof.
  unfold processChars. revert t.
  induction data as [|c rest IH]; intros t Hi Hg; [exact Hi|].
  cbn [forEach charStates] in *. rewrite stateAfter_bind.
  specialize (step c t Hi). unfold stateAfter, completionOf in *.
  destruct (processChar c t) as [[u|e] t1]; cbn [fst snd] in *.
  - inversion Hg; subst. apply IH; [now apply step | assumption].
  - inversion Hg; subst. now apply step.
Qed.

Hypothesis Inv_counter :
  forall t n b, Inv t -> Inv (set_hasChangedSinceLastCheck b (set_frameCounter n t)).

Lemma write_along behaviour (now : nat) (data : JsString) (t : VirtualTerminal) :
  Inv t -> Forall Good (visitedBy behaviour (Write now data) t) ->
  Inv (after (write behaviour now data t)).
Proof.
  intros Hi Hg. cbn [visitedBy] in Hg. unfold write. rewrite toString_run.
  destruct (render (buffer t)); [|exact Hi].
  pose proof (processChars_along data t Hi Hg) as H. unfold stateAfter in H.
  destruct (processChars data t) as [[u|e] t1]; cbn [snd] in H; [|exact H].
  rewrite toString_run.
  destruct (render (buffer t1)); [|exact H].
  destruct (list_eq_dec Nat.eq_dec j j0); [exact H|].
  cbn [after]. now apply Inv_counter.
Qed.

End Along.

(** ** The alternate screen *)

Lemma sameAlt_refl t : sameAlt t t.
Proof. split; reflexivity. Qed.

Lemma sameAlt_trans t1 t2 t3 : sameAlt t1 t2 -> sameAlt t2 t3 -> sameAlt t1 t3.
Proof. unfold sameAlt; intuition congruence. Qed.

Lemma altKept_refl t : altKept t t.
Proof. split; intro H; [left; split; [exact H | reflexivity] | exact H]. Qed.

Lemma altKept_trans t1 t2 t3 : altKept t1 t2 -> altKept t2 t3 -> altKept t1 t3.
Proof.
  intros [H12 H12'] [H23 H23']. split.
  - intro H1. destruct (H12 H1) as [[H2 E2]|H2].
    + destruct (H23 H2) as [[H3 E3]|H3]; [left; split; congruence | now right].
    + right; now apply H23'.
  - intro H1. now apply H23', H12'.
Qed.

Lemma sameAlt_altKept t t' : sameAlt t t' -> altKept t t'.
Proof. intros [H1 H2]. split; intro H; [left; split|]; congruence. Qed.

Lemma altKept_altHeld t t' : altKept t t' -> altHeld t t'.
Proof. intros [H _] H1 H2. destruct (H H1) as [[_ E]|E]; congruence. Qed.

Lemma reset_altKept : preserves altKept reset.
Proof. intro t. split; intros _; [right|]; reflexivity. Qed.

Lemma disableAltScreen_altKept : preserves altKept disableAltScreen.
Proof.
  intro t. unfold disableAltScreen. rewrite stateAfter_bind.
  cbn [completionOf stateAfter get fst snd].
  destruct (isAltScreen t) eqn:Ha; [destruct (altScreenBuffer t) eqn:Hs|].
  - split; intros _; [right|]; reflexivity.
  - apply sameAlt_altKept, sameAlt_refl.
  - apply sameAlt_altKept, sameAlt_refl.
Qed.

#[local] Hint Resolve reset_altKept disableAltScreen_altKept : frame.

Ltac alt_frame :=
  frame_with altKept_refl altKept_trans
    ltac:(apply sameAlt_altKept; split; reflexivity).

Lemma handleNormalChar_altKept (c : CodeUnit) : preserves altKept (handleNormalChar c).
Proof. alt_frame. Qed.

Lemma handleEscapeChar_altKept (c : CodeUnit) : preserves altKept (handleEscapeChar c).
Proof. alt_frame. Qed.

Lemma enableAltScreen_noop (t : VirtualTerminal) :
  isAltScreen t = true -> enableAltScreen t = (Normal tt, t).
Proof.
  intro H. unfold enableAltScreen. rewrite bind_run. cbn [get]. now rewrite H.
Qed.

Lemma setMode_sameAlt (params : list nat) (i : JsString) (t : VirtualTerminal) :
  isAltScreen t = true -> sameAlt t (stateAfter (setMode params i) t).
Proof.
  unfold setMode. revert t.
  induction params as [|p rest IH]; intros t Ha; [apply sameAlt_refl|].
  cbn [forEach]. rewrite stateAfter_bind.
  assert (H : completionOf
                (if isPrivate i
                 then if p =? 25 then modify (set_cursorVisible true)
                      else if p =? 1049 then enableAltScreen else ret tt
                 else ret tt) t = Normal tt /\
              sameAlt t (stateAfter
                (if isPrivate i
                 then if p =? 25 then modify (set_cursorVisible true)
                      else if p =? 1049 then enableAltScreen else ret tt
                 else ret tt) t)).
  { destruct (isPrivate i); [|split; [reflexivity | apply sameAlt_refl]].
    destruct (p =? 25); [split; [reflexivity | split; reflexivity]|].
    destruct (p =? 1049); [|split; [reflexivity | apply sameAlt_refl]].
    unfold completionOf, stateAfter. rewrite (enableAltScreen_noop t Ha).
    split; [reflexivity | apply sameAlt_refl]. }
  destruct H as [-> H].
  eapply sameAlt_trans; [exact H|]. apply IH.
  destruct H as [-> _]. exact Ha.
Qed.

Lemma altHeld_of_preserves {A} (m : M A) (t : VirtualTerminal) :
  preserves altKept m -> altHeld t (stateAfter m t).
Proof. intro H. apply altKept_altHeld, H. Qed.

Lemma handleCSISequence_altHeld (c : CodeUnit) (ps : list nat) (i : JsString)
    (t : VirtualTerminal) :
  altHeld t (stateAfter (handleCSISequence c ps i) t).
Proof.
  unfold handleCSISequence.
  repeat match goal with
         | |- altHeld _ (stateAfter (if ?b then _ else _) _) => destruct b
         end;
    try solve [apply altHeld_of_preserves; alt_frame].
  intros Ha _. now apply setMode_sameAlt.
Qed.

Lemma processChar_altHeld (c : CodeUnit) (t : VirtualTerminal) :
  altHeld t (stateAfter (processChar c) t).
Proof.
  apply (processChar_rel sameAlt altHeld).
  - apply sameAlt_refl.
  - intros; split; reflexivity.
  - intros u u' [H1 H2] _ _; exact H2.
  - intros u u1 u2 u3 [A1 B1] H [A3 B3] Hu Hu3.
    rewrite B3. rewrite H; [exact B1 | congruence | congruence].
  - apply handleCSISequence_altHeld.
  - intros; apply altHeld_of_preserves, handleNormalChar_altKept.
  - intros; apply altHeld_of_preserves, handleEscapeChar_altKept.
Qed.

Lemma holdsSnapshot_step (saved : AltScreen.t) (c : CodeUnit) (t : VirtualTerminal) :
  holdsSnapshot saved t -> inAltScreen (stateAfter (processChar c) t) ->
  holdsSnapshot saved (stateAfter (processChar c) t).
Proof.
  intros [Ha Hs] Hg. split; [exact Hg|].
  rewrite <- Hs. now apply processChar_altHeld.
Qed.

Lemma holdsSnapshot_altKept (saved : AltScreen.t) (t t' : VirtualTerminal) :
  holdsSnapshot saved t -> altKept t t' -> inAltScreen t' -> holdsSnapshot saved t'.
Proof.
  intros [Ha Hs] Hk Hg. split; [exact Hg|].
  rewrite <- Hs. now apply altKept_altHeld.
Qed.

Lemma resize_altKept (newCols newRows : nat) : preserves altKept (resize newCols newRows).
Proof. alt_frame. Qed.

Lemma markAsRead_altKept : preserves altKept markAsRead.
Proof. alt_frame. Qed.

Lemma perform_holdsSnapshot behaviour (saved : AltScreen.t) (c : Call)
    (t : VirtualTerminal) :
  holdsSnapshot saved t -> Forall inAltScreen (visitedBy behaviour c t) ->
  holdsSnapshot saved (after (perform behaviour c t)).
Proof.
  intros Hi Hg.
  destruct c as [now data|newCols newRows| |l|l| |].
  - apply (write_along (holdsSnapshot saved) inAltScreen); try assumption.
    + intros; now apply holdsSnapshot_step.
    + intros u n b Hu; exact Hu.
  - cbn [visitedBy] in Hg. inversion Hg as [|? ? Hg1 _]; subst.
    apply (holdsSnapshot_altKept saved t); [exact Hi | | exact Hg1].
    cbn [perform]. destruct (silent_after (resize newCols newRows t)) as (-> & _).
    apply resize_altKept.
  - cbn [visitedBy] in Hg. inversion Hg as [|? ? Hg1 _]; subst.
    apply (holdsSnapshot_altKept saved t); [exact Hi | | exact Hg1].
    cbn [perform]. destruct (silent_after (reset t)) as (-> & _).
    apply reset_altKept.
  - cbn [perform after]. unfold onScreenChange.
    destruct (existsb _ _); exact Hi.
  - exact Hi.
  - exact Hi.
  - cbn [visitedBy] in Hg. inversion Hg as [|? ? Hg1 _]; subst.
    apply (holdsSnapshot_altKept saved t); [exact Hi | | exact Hg1].
    cbn [perform]. destruct (silent_after (markAsRead t)) as (-> & _).
    apply markAsRead_altKept.
Qed.

Lemma finalState_holdsSnapshot behaviour (saved : AltScreen.t) (calls : list Call)
    (t : VirtualTerminal) :
  holdsSnapshot saved t -> Forall inAltScreen (visited behaviour calls t) ->
  holdsSnapshot saved (finalState behaviour calls t).
Proof.
  revert t; induction calls as [|c rest IH]; intros t Hi Hg; [exact Hi|].
  cbn [finalState visited] in *. apply Forall_app in Hg. destruct Hg as [Hc Hr].
  apply IH; [now apply perform_holdsSnapshot | exact Hr].
Qed.

Lemma enterAltScreen_state (t : VirtualTerminal) :
  isAltScreen t = false ->
  holdsSnapshot (AltScreen.mk (map (Js.map cloneCell) (buffer t)) (cursor t))
                (stateAfter enterAltScreen t).
Proof.
  intro Ha. unfold enterAltScreen, setMode, stateAfter. cbn [forEach].
  change (isPrivate (str "?")) with true. cbv iota.
  change (1049 =? 25) with false. change (1049 =? 1049) with true. cbv iota.
  rewrite bind_run. unfold enableAltScreen. rewrite bind_run. cbn [get].
  rewrite Ha. split; reflexivity.
Qed.

Lemma leaveAltScreen_state (saved : AltScreen.t) (t : VirtualTerminal) :
  holdsSnapshot saved t ->
  buffer (stateAfter leaveAltScreen t) = AltScreen.buffer saved /\
  cursor (stateAfter leaveAltScreen t) = AltScreen.cursor saved /\
  isAltScreen (stateAfter leaveAltScreen t) = false.
Proof.
  intros [Ha Hs]. unfold leaveAltScreen, resetMode, stateAfter. cbn [forEach].
  change (isPrivate (str "?")) with true. cbv iota.
  change (1049 =? 25) with false. change (1049 =? 1049) with true. cbv iota.
  rewrite bind_run. unfold disableAltScreen. rewrite bind_run. cbn [get].
  rewrite Ha, Hs. repeat split.
Qed.

Lemma rowChars_clone (r : Row) :
  rowChars r <> None -> Js.map cloneCell r = r.
Proof.
  induction r as [|s r IH]; [reflexivity|].
  destruct s as [| |c]; cbn [rowChars Js.map map].
  - intro H. unfold Js.map in IH. rewrite IH; [reflexivity|].
    intro E; rewrite E in H; now apply H.
  - intro H; now contradiction H.
  - intro H. unfold Js.map in IH. rewrite IH; [reflexivity|].
    intro E; rewrite E in H; now apply H.
Qed.

Lemma rowTexts_clone (b : Buffer) :
  rowTexts b <> None -> map (Js.map cloneCell) b = b.
Proof.
  induction b as [|r b IH]; [reflexivity|].
  cbn [rowTexts map]. unfold rowText.
  destruct (rowChars r) eqn:Er; cbn [option_map]; [|intro H; now contradiction H].
  intro H. rewrite rowChars_clone by (rewrite Er; discriminate).
  rewrite IH; [reflexivity|].
  intro E; rewrite E in H; now apply H.
Qed.

Lemma render_clone (b : Buffer) :
  render b <> None -> map (Js.map cloneCell) b = b.
Proof.
  unfold render. intro H. apply rowTexts_clone.
  intro E; rewrite E in H; now apply H.
Qed.

(** Written to a terminal whose parser is in the normal state, the
    two mode sequences perform [enterAltScreen] and [leaveAltScreen]
    and leave the parser in the normal state. *)
Lemma sequenceAltOn_enters (t : VirtualTerminal) :
  ParseState.state (parseState t) = ParseState.normal ->
  processChars sequenceAltOn t
  = (Normal tt,
     set_parseState (ParseState.mk ParseState.normal [1049] (str "1049") (str "?"))
       (stateAfter enterAltScreen t)).
Proof.
  intro H. destruct t as [? ? ? ? ? ? ? ? alt ? [st ps cu im] ? ? ? ? ? ?].
  cbn in H. subst st. destruct alt. all: vm_compute. all: reflexivity.
Qed.

Lemma sequenceAltOff_leaves (t : VirtualTerminal) :
  ParseState.state (parseState t) = ParseState.normal ->
  processChars sequenceAltOff t
  = (Normal tt,
     set_parseState (ParseState.mk ParseState.normal [1049] (str "1049") (str "?"))
       (stateAfter leaveAltScreen t)).
Proof.
  intro H. destruct t as [? ? ? ? ? ? ? sn alt ? [st ps cu im] ? ? ? ? ? ?].
  cbn in H. subst st. destruct alt, sn. all: vm_compute. all: reflexivity.
Qed.

(** C2, as stated, fails: [ESC c] written while the alternate screen
    is on discards the snapshot, and leaving the alternate screen then
    restores nothing.  On a 5x3 terminal showing "Main", the screen
    ends up blank. *)
Lemma reset_inside_alt_screen_loses_main_screen :
  ~ altScreenRoundTrip quiet
      (after (write quiet 0 (str "Main") (new 5 3)))
      [Write 0 sequenceReset].
Proof.
  intros [H _]. vm_compute in H. discriminate H.
Qed.

(** C2, amended.  On a terminal that is not in the alternate screen and
    whose screen text can be read, entering the alternate screen,
    performing any sequence of public calls (writes of any chunks,
    resizes, ...) throughout which the terminal stays in the alternate
    screen (no [ESC c], no [reset()], no mode 1049 reset), and leaving
    it, gives back the screen text and the cursor there were on
    entering.  Entering and leaving are what [ESC [ ? 1049 h] and
    [ESC [ ? 1049 l] do when the parser is in the normal state. *)
Theorem alt_screen_round_trip :
  (forall behaviour (t : VirtualTerminal) (inside : list Call),
      isAltScreen t = false ->
      render (buffer t) <> None ->
      Forall inAltScreen (visited behaviour inside (stateAfter enterAltScreen t)) ->
      altScreenRoundTrip behaviour t inside) /\
  (forall t : VirtualTerminal,
      ParseState.state (parseState t) = ParseState.normal ->
      processChars sequenceAltOn t
      = (Normal tt,
         set_parseState (ParseState.mk ParseState.normal [1049] (str "1049") (str "?"))
           (stateAfter enterAltScreen t)) /\
      processChars sequenceAltOff t
      = (Normal tt,
         set_parseState (ParseState.mk ParseState.normal [1049] (str "1049") (str "?"))
           (stateAfter leaveAltScreen t))).
Proof.
  split.
  - intros behaviour t inside Ha Hr Hin. unfold altScreenRoundTrip.
    pose proof (finalState_holdsSnapshot behaviour _ inside _
                  (enterAltScreen_state t Ha) Hin) as H.
    destruct (leaveAltScreen_state _ _ H) as (-> & -> & _).
    cbn [AltScreen.buffer AltScreen.cursor].
    now rewrite render_clone.
  - intros t H. split; [now apply sequenceAltOn_enters | now apply sequenceAltOff_leaves].
Qed.

(** The amended statement at work: "Main" on a 5x3 terminal, then two
    writes and a resize inside the alternate screen. *)
Lemma alt_screen_round_trip_witness :
  altScreenRoundTrip quiet
    (after (write quiet 0 (str "Main") (new 5 3)))
    [Write 1 (str "Alt"); Resize 7 4; Write 2 (ESC :: str "[2JBuffer")].
Proof.
  apply (proj1 alt_screen_round_trip).
  - reflexivity.
  - vm_compute. discriminate.
  - vm_compute. repeat constructor.
Defined.

(** ** Cursor bounds *)

Lemma sameCursors_refl t : sameCursors t t.
Proof. repeat split. Qed.

Lemma sameCursors_trans t1 t2 t3 :
  sameCursors t1 t2 -> sameCursors t2 t3 -> sameCursors t1 t3.
Proof. unfold sameCursors; intuition congruence. Qed.

Lemma boundsKept_refl t : boundsKept t t.
Proof. split; [reflexivity | split; [reflexivity | auto]]. Qed.

Lemma boundsKept_trans t1 t2 t3 : boundsKept t1 t2 -> boundsKept t2 t3 -> boundsKept t1 t3.
Proof. unfold boundsKept; intuition congruence. Qed.

Lemma sameCursors_bounds t t' :
  sameCursors t t' -> cursorsInBounds t -> cursorsInBounds t'.
Proof.
  intros (Hc & Hr & Hx & Hs & Ha & _).
  unfold cursorsInBounds, inBounds. now rewrite Hc, Hr, Hx, Hs, Ha.
Qed.

Lemma sameCursors_boundsKept t t' : sameCursors t t' -> boundsKept t t'.
Proof.
  intro H. split; [apply H | split; [apply H | now apply sameCursors_bounds]].
Qed.

(** Discharges [boundsKept t (f t)] for a field assignment [f] that
    reads nothing but the terminal it assigns to. *)
Ltac bounds_leaf :=
  unfold boundsKept, cursorsInBounds, inBounds;
  split; [reflexivity | split; [reflexivity|]];
  cbn;
  let H1 := fresh in let H2 := fresh in let H3 := fresh in
  let H4 := fresh in let H5 := fresh in let H6 := fresh in
  intros (H1 & (H2 & H3) & (H4 & H5) & H6);
  repeat split; solve [lia | assumption].

Ltac cursors_frame :=
  frame_with sameCursors_refl sameCursors_trans ltac:(repeat split).

Lemma scrollUp_sameCursors (count : nat) : preserves sameCursors (scrollUp count).
Proof. cursors_frame. Qed.

Lemma setCell_sameCursors (y x : nat) (v : Cell) : preserves sameCursors (setCell y x v).
Proof. cursors_frame. Qed.

Lemma lineFeed_boundsKept : preserves boundsKept lineFeed.
Proof.
  intro t. unfold lineFeed. rewrite stateAfter_bind.
  cbn [completionOf stateAfter modify fst snd].
  rewrite stateAfter_bind. cbn [completionOf stateAfter get fst snd].
  match goal with
  | |- context [if ?b then _ else _] => destruct b eqn:E
  end.
  - eapply boundsKept_trans;
      [| apply sameCursors_boundsKept, (scrollUp_sameCursors 1)].
    bounds_leaf.
  - apply Nat.leb_gt in E. cbn in E |- *.
    unfold boundsKept, cursorsInBounds, inBounds. cbn.
    split; [reflexivity | split; [reflexivity|]].
    intros (H1 & (H2 & H3) & (H4 & H5) & H6).
    repeat split; solve [lia | assumption].
Qed.

Lemma lineFeed_column (t : VirtualTerminal) :
  Cursor.x (cursor (stateAfter lineFeed t)) = 0.
Proof.
  unfold lineFeed. rewrite stateAfter_bind.
  cbn [completionOf stateAfter modify fst snd].
  rewrite stateAfter_bind. cbn [completionOf stateAfter get fst snd].
  match goal with
  | |- context [if ?b then _ else _] => destruct b
  end.
  - match goal with
    | |- context [stateAfter (scrollUp 1) ?u] =>
        destruct (scrollUp_sameCursors 1 u) as (_ & _ & Hx & _)
    end.
    now rewrite Hx.
  - reflexivity.
Qed.

Lemma printChar_boundsKept (char : CodeUnit) : preserves boundsKept (printChar char).
Proof.
  intro t. unfold printChar. rewrite stateAfter_bind.
  cbn [completionOf stateAfter get fst snd]. rewrite stateAfter_bind.
  set (wrap := when (cols t <=? Cursor.x (cursor t))
                 (modify (fun t0 => set_cursor (Cursor.mk 0 (Cursor.y (cursor t0))) t0) ;;
                  lineFeed)).
  assert (Hw : boundsKept t (stateAfter wrap t) /\
               (cursorsInBounds t -> completionOf wrap t = Normal tt ->
                Cursor.x (cursor (stateAfter wrap t)) < cols t)).
  { subst wrap. destruct (cols t <=? Cursor.x (cursor t)) eqn:E; cbn [when].
    - rewrite stateAfter_bind. cbn [completionOf stateAfter modify fst snd].
      split.
      + eapply boundsKept_trans; [|apply lineFeed_boundsKept]. bounds_leaf.
      + intros (H1 & _) _. rewrite lineFeed_column. lia.
    - apply Nat.leb_gt in E. split; [apply boundsKept_refl | intros _ _; exact E]. }
  destruct Hw as [Hk Hx].
  destruct (completionOf wrap t) as [[]|e]; [|exact Hk].
  specialize (fun H => Hx H eq_refl). set (t1 := stateAfter wrap t) in *.
  rewrite stateAfter_bind. cbn [completionOf stateAfter get fst snd].
  rewrite stateAfter_bind.
  match goal with
  | |- context [completionOf (setCell ?a ?b ?c) t1] =>
      pose proof (setCell_sameCursors a b c t1) as Hs;
      set (t2 := stateAfter (setCell a b c) t1) in *;
      destruct (completionOf (setCell a b c) t1)
  end.
  - destruct Hk as (Kc & Kr & Kj). destruct Hs as (Sc & Sr & Sx & Ss & Sa & _).
    unfold boundsKept, stateAfter. cbn.
    split; [congruence | split; [congruence|]].
    intro HJ. specialize (Hx HJ). specialize (Kj HJ).
    unfold cursorsInBounds, inBounds in *. cbn.
    rewrite Sc, Sr, Sx, Ss, Sa.
    destruct Kj as (H1 & (H2 & H3) & (H4 & H5) & H6).
    repeat split; solve [lia | assumption].
  - eapply boundsKept_trans; [exact Hk | now apply sameCursors_boundsKept].
Qed.

Lemma disableAltScreen_boundsKept : preserves boundsKept disableAltScreen.
Proof.
  intro t. unfold disableAltScreen. rewrite stateAfter_bind.
  cbn [completionOf stateAfter get fst snd].
  destruct (isAltScreen t); [destruct (altScreenBuffer t) as [saved|] eqn:Hs|];
    try apply boundsKept_refl.
  unfold boundsKept, cursorsInBounds, inBounds. cbn. rewrite Hs.
  split; [reflexivity | split; [reflexivity|]].
  intros (H1 & (H2 & H3) & (H4 & H5) & H6 & H7).
  repeat split; solve [lia | assumption].
Qed.

#[local] Hint Resolve lineFeed_boundsKept printChar_boundsKept
  disableAltScreen_boundsKept : frame.










Lemma write_dimensions behaviour (now : nat) (data : JsString) (t : VirtualTerminal) :
  cols (after (write behaviour now data t)) = cols t /\
  rows (after (write behaviour now data t)) = rows t.
Proof.
  pose proof (processChars_sameHost data t) as Hh. unfold stateAfter in Hh.
  unfold write. rewrite toString_run.
  destruct (render (buffer t)); [|now split].
  destruct (processChars data t) as [[u|e] t1]; cbn [snd] in Hh;
    destruct Hh as (Hc & Hr & _); [|now split].
  rewrite toString_run.
  destruct (render (buffer t1)); [|now split].
  destruct (list_eq_dec Nat.eq_dec j j0); now split.
Qed.


(** ** Two defects, evaluated *)

(** C5 is broken by the code in two ways.  After "Hello" fills the
    first row of a new 5x3 terminal the cursor column is 5, and
    [CSI 1 K] then erases columns 0 to 5 inclusive: the first row gets
    a sixth cell and the first line of the screen text has six
    characters.  And a resize performed in the alternate screen does
    not resize the snapshot: once the alternate screen is left, a
    10x4 terminal renders the 3 lines of 5 characters of the snapshot. *)
Theorem rendered_grid_can_lose_its_shape :
  rendersGrid (new 5 3) = true /\
  rendersGrid (after (write quiet 0 (str "Hello") (new 5 3))) = true /\
  completion (write quiet 0 (str "Hello" ++ sequenceEraseToCursor) (new 5 3)) = Normal tt /\
  cols (after (write quiet 0 (str "Hello" ++ sequenceEraseToCursor) (new 5 3))) = 5 /\
  render (buffer (after (write quiet 0 (str "Hello" ++ sequenceEraseToCursor) (new 5 3))))
  = Some (repeat SPACE 6 ++ [NEWLINE] ++ repeat SPACE 5 ++ [NEWLINE] ++ repeat SPACE 5) /\
  rendersGrid (after (write quiet 0 (str "Hello" ++ sequenceEraseToCursor) (new 5 3))) = false /\
  cols (finalState quiet [Write 0 sequenceAltOn; Resize 10 4; Write 1 sequenceAltOff] (new 5 3)) = 10 /\
  rows (finalState quiet [Write 0 sequenceAltOn; Resize 10 4; Write 1 sequenceAltOff] (new 5 3)) = 4 /\
  render (buffer (finalState quiet [Write 0 sequenceAltOn; Resize 10 4; Write 1 sequenceAltOff] (new 5 3)))
  = Some (repeat SPACE 5 ++ [NEWLINE] ++ repeat SPACE 5 ++ [NEWLINE] ++ repeat SPACE 5) /\
  rendersGrid (finalState quiet [Write 0 sequenceAltOn; Resize 10 4; Write 1 sequenceAltOff] (new 5 3)) = false.
Proof. vm_compute. repeat split. Qed.

(** What the holes of a row do.  On [screenWithShortRows] the first
    row has five cells, two holes and the cell of "a": it renders as
    six characters.  Scrolling down copies the row with a spread, the
    holes become [undefined], and rendering the screen at the end of
    that [write] raises. *)
Example scenario_holes_in_a_row :
  nth_error (buffer screenWithShortRows) 0
  = Some (Js.make 5 (mkCell SPACE None)
          ++ [Js.Hole; Js.Hole; printed Attr.default (nat_of_ascii "a")]) /\
  lineAt screenWithShortRows 0 = Some (str "     a") /\
  completion (write quiet 4 (ESC :: str "[T") screenWithShortRows) = Throw TypeError /\
  nth_error (buffer (after (write quiet 4 (ESC :: str "[T") screenWithShortRows))) 1
  = Some (Js.make 5 (mkCell SPACE None)
          ++ [Js.Undefined; Js.Undefined; printed Attr.default (nat_of_ascii "a")]).
Proof. vm_compute. repeat split. Qed.

Lemma setScrollRegion_stores (top bottom : nat) (t : VirtualTerminal) :
  scrollRegion (stateAfter (setScrollRegion top bottom) t)
  = ScrollRegion.mk (top - 1) (Nat.min (rows t - 1) (bottom - 1)) /\
  cursor (stateAfter (setScrollRegion top bottom) t) = Cursor.mk 0 (top - 1).
Proof. unfold setScrollRegion, stateAfter, modify. cbn. split; reflexivity. Qed.

(** C8 is broken by the code: [setScrollRegion] bounds the stored
    bottom from above only and the stored top from below only, so
    the stored top is [top - 1] whatever the number of rows.  On a new
    5x3 terminal [CSI 100 r] stores top 99 and puts the cursor on row
    99, and the next printable character makes [write] raise a
    [TypeError]. *)
Theorem setScrollRegion_leaves_top_unclamped :
  (forall top bottom t,
      ScrollRegion.top (scrollRegion (stateAfter (setScrollRegion top bottom) t)) = top - 1 /\
      ScrollRegion.bottom (scrollRegion (stateAfter (setScrollRegion top bottom) t))
        <= rows t - 1 /\
      cursor (stateAfter (setScrollRegion top bottom) t) = Cursor.mk 0 (top - 1)) /\
  rows (after (write quiet 0 sequenceRegionFrom100 (new 5 3))) = 3 /\
  scrollRegion (after (write quiet 0 sequenceRegionFrom100 (new 5 3)))
  = ScrollRegion.mk 99 2 /\
  cursor (after (write quiet 0 sequenceRegionFrom100 (new 5 3))) = Cursor.mk 0 99 /\
  completion (write quiet 1 (str "X")
                (after (write quiet 0 sequenceRegionFrom100 (new 5 3))))
  = Throw TypeError.
Proof.
  split.
  - intros top bottom t.
    destruct (setScrollRegion_stores top bottom t) as [-> ->]. cbn.
    repeat split. lia.
  - vm_compute. repeat split.
Qed.

(** ** Arrays and rows *)

Lemma set_at_end {A} (l1 l2 : Js.Array A) (v : A) :
  Js.set (l1 ++ l2) (length l1) v = l1 ++ Js.Val v :: tl l2.
Proof.
  induction l1 as [|s l1 IH]; cbn [app length Js.set].
  - destruct l2; reflexivity.
  - now rewrite IH.
Qed.

Lemma tl_skipn {A} (n : nat) (l : list A) : tl (skipn n l) = skipn (S n) l.
Proof.
  revert l; induction n as [|n IH]; intro l; [destruct l; reflexivity|].
  destruct l; [reflexivity | apply IH].
Qed.

Lemma paint_seq (v : Cell) (n : nat) (r : Row) :
  fold_left (fun r x => Js.set r x v) (seq 0 n) r = clearedRow n v r.
Proof.
  unfold clearedRow, Js.make.
  induction n as [|n IH]; [reflexivity|].
  rewrite seq_S, fold_left_app, IH. cbn [fold_left Nat.add].
  replace (Js.set (repeat (Js.Val v) n ++ skipn n r) n v)
    with (Js.set (repeat (Js.Val v) n ++ skipn n r)
                 (length (repeat (Js.Val v) n)) v)
    by now rewrite repeat_length.
  rewrite set_at_end, tl_skipn.
  change (Js.Val v :: skipn (S n) r) with ([Js.Val v] ++ skipn (S n) r).
  rewrite app_assoc. f_equal. symmetry. apply (repeat_cons n (Js.Val v)).
Qed.

Lemma putRow_nth (b : Buffer) (y : nat) (r : Row) (i : nat) :
  y < length b ->
  nth_error (putRow b y r) i = if i =? y then Some r else nth_error b i.
Proof.
  revert y i; induction b as [|h b IH]; intros y i Hy; [cbn in Hy; lia|].
  destruct y as [|y]; destruct i as [|i]; cbn [putRow nth_error Nat.eqb]; try reflexivity.
  apply IH. cbn in Hy. lia.
Qed.

Lemma putRow_length (b : Buffer) (y : nat) (r : Row) :
  y < length b -> length (putRow b y r) = length b.
Proof.
  revert y; induction b as [|h b IH]; intros y Hy; [cbn in Hy; lia|].
  destruct y as [|y]; cbn [putRow length]; [reflexivity|].
  rewrite IH; [reflexivity | cbn in Hy; lia].
Qed.

Lemma putRow_putRow (b : Buffer) (y : nat) (r1 r2 : Row) :
  y < length b -> putRow (putRow b y r1) y r2 = putRow b y r2.
Proof.
  revert y; induction b as [|h b IH]; intros y Hy; [cbn in Hy; lia|].
  destruct y as [|y]; cbn [putRow]; [reflexivity|].
  rewrite IH; [reflexivity | cbn in Hy; lia].
Qed.

Lemma putRow_same (b : Buffer) (y : nat) (r : Row) :
  nth_error b y = Some r -> putRow b y r = b.
Proof.
  revert y; induction b as [|h b IH]; intros y Hy; [destruct y; discriminate Hy|].
  destruct y as [|y]; cbn [putRow nth_error] in *; [congruence|].
  now rewrite IH.
Qed.

Lemma nth_error_lt {A} (l : list A) (n : nat) (a : A) :
  nth_error l n = Some a -> n < length l.
Proof. intro H. apply nth_error_Some. congruence. Qed.

(** A row is assigned only after its neighbour was read: the index
    assigned is never past the end of the buffer. *)
Lemma assigned_after_reading_below (b : Buffer) (y : nat) (r : Row) :
  nth_error b (y + 1) = Some r -> y < length b.
Proof. intro H. apply nth_error_lt in H. lia. Qed.

Lemma assigned_after_reading_above (b : Buffer) (y : nat) (r : Row) :
  1 <= y -> nth_error b (y - 1) = Some r -> y <= length b.
Proof. intros Hy H. apply nth_error_lt in H. lia. Qed.

Lemma set_buffer_same (t : VirtualTerminal) : set_buffer (buffer t) t = t.
Proof. destruct t; reflexivity. Qed.

(** ** Methods on rows that exist *)

Lemma readRow_run (y : nat) (t : VirtualTerminal) :
  readRow y t = match nth_error (buffer t) y with
                | Some r => (Normal r, t)
                | None => (Throw TypeError, t)
                end.
Proof.
  unfold readRow. rewrite bind_run. cbn [get].
  destruct (nth_error (buffer t) y); reflexivity.
Qed.

Lemma setCell_run (y x : nat) (v : Cell) (t : VirtualTerminal) (r : Row) :
  nth_error (buffer t) y = Some r ->
  setCell y x v t = (Normal tt, set_buffer (putRow (buffer t) y (Js.set r x v)) t).
Proof.
  intro H. unfold setCell. rewrite bind_run, readRow_run, H. reflexivity.
Qed.

Lemma paintLoop_run (y : nat) (xs : list nat) (t : VirtualTerminal) (r : Row) :
  nth_error (buffer t) y = Some r ->
  forEach xs (fun x => t <- get ;; setCell y x (blank t)) t
  = (Normal tt,
     set_buffer (putRow (buffer t) y
                        (fold_left (fun r x => Js.set r x (blank t)) xs r)) t).
Proof.
  revert t r; induction xs as [|x xs IH]; intros t r H; cbn [forEach fold_left].
  - now rewrite (putRow_same _ _ _ H), set_buffer_same.
  - pose proof (nth_error_lt _ _ _ H) as Hy.
    rewrite bind_run, bind_run. cbn [get]. rewrite (setCell_run _ _ _ _ _ H).
    rewrite (IH _ (Js.set r x (blank t))).
    + cbn [buffer set_buffer]. rewrite putRow_putRow by exact Hy. reflexivity.
    + cbn [buffer set_buffer]. rewrite putRow_nth by exact Hy.
      now rewrite Nat.eqb_refl.
Qed.

Lemma clearLine_run (y : nat) (t : VirtualTerminal) (r : Row) :
  nth_error (buffer t) y = Some r ->
  clearLine y t
  = (Normal tt,
     set_buffer (putRow (buffer t) y (clearedRow (cols t) (blank t) r)) t).
Proof.
  intro H. unfold clearLine. rewrite bind_run. cbn [get]. unfold range.
  rewrite Nat.sub_0_r, (paintLoop_run _ _ _ _ H), paint_seq. reflexivity.
Qed.

Lemma forEach_returns (I : VirtualTerminal -> Prop) (l : list nat)
    (body : nat -> M unit) :
  (forall i t, In i l -> I t ->
               completionOf (body i) t = Normal tt /\ I (stateAfter (body i) t)) ->
  forall t, I t ->
            completionOf (forEach l body) t = Normal tt /\
            I (stateAfter (forEach l body) t).
Proof.
  induction l as [|i l IH]; intros H t Ht.
  - split; [reflexivity | exact Ht].
  - cbn [forEach]. rewrite completionOf_bind, stateAfter_bind.
    destruct (H i t (or_introl eq_refl) Ht) as [-> Hi].
    apply IH; [|exact Hi]. intros j u Hj. apply H. now right.
Qed.


(** ** The cursor stays on the screen *)





(** ** Scrolling a region *)

Ltac split_tests :=
  repeat match goal with
         | |- context [?a <=? ?b] => destruct (Nat.leb_spec a b)
         | |- context [?a <? ?b] => destruct (Nat.ltb_spec a b)
         | |- context [?a =? ?b] => destruct (Nat.eqb_spec a b)
         end;
  cbn [andb orb negb]; try lia.

Lemma shiftUp_run (n a : nat) (t : VirtualTerminal) :
  n = 0 \/ a + n < length (buffer t) ->
  exists b',
    forEach (seq a n)
      (fun y =>
         r <- readRow (y + 1) ;;
         modify (fun t => set_buffer (putRow (buffer t) y (Js.map cloneCell r)) t)) t
    = (Normal tt, set_buffer b' t) /\
    length b' = length (buffer t) /\
    forall i,
      nth_error b' i
      = if (a <=? i) && (i <? a + n)
        then option_map (Js.map cloneCell) (nth_error (buffer t) (i + 1))
        else nth_error (buffer t) i.
Proof.
  revert a t; induction n as [|n IH]; intros a t Hn.
  - exists (buffer t). cbn [seq forEach]. rewrite set_buffer_same.
    repeat split. intro i. split_tests; reflexivity.
  - destruct Hn as [Hn|Hn]; [discriminate Hn|].
    cbn [seq forEach]. rewrite bind_run, bind_run, readRow_run.
    destruct (nth_error (buffer t) (a + 1)) as [r1|] eqn:E1.
    2:{ apply nth_error_None in E1. lia. }
    cbn [modify].
    set (t1 := set_buffer (putRow (buffer t) a (Js.map cloneCell r1)) t).
    assert (Hl : length (buffer t1) = length (buffer t))
      by (apply putRow_length; lia).
    destruct (IH (S a) t1) as (b' & Hrun & Hlen & Hnth); [right; lia|].
    exists b'. rewrite Hrun. repeat split; [congruence|].
    intro i. rewrite Hnth. subst t1. cbn [buffer set_buffer].
    rewrite !putRow_nth by lia.
    split_tests; try reflexivity; subst;
      repeat match goal with
             | H : nth_error _ ?k = Some r1 |- context [nth_error _ ?j] =>
                 replace j with k by lia; rewrite H
             end; reflexivity.
Qed.

Lemma shiftDown_run (n a : nat) (t : VirtualTerminal) :
  1 <= a -> n = 0 \/ a + n <= length (buffer t) ->
  exists b',
    forEach (rev (seq a n))
      (fun y =>
         r <- readRow (y - 1) ;;
         modify (fun t => set_buffer (putRow (buffer t) y (Js.spread r)) t)) t
    = (Normal tt, set_buffer b' t) /\
    length b' = length (buffer t) /\
    forall i,
      nth_error b' i
      = if (a <=? i) && (i <? a + n)
        then option_map Js.spread (nth_error (buffer t) (i - 1))
        else nth_error (buffer t) i.
Proof.
  intro Ha. revert t; induction n as [|n IH]; intros t Hn.
  - exists (buffer t). cbn [seq rev forEach]. rewrite set_buffer_same.
    repeat split. intro i. split_tests; reflexivity.
  - destruct Hn as [Hn|Hn]; [discriminate Hn|].
    rewrite seq_S, rev_app_distr. cbn [rev app forEach].
    rewrite bind_run, bind_run, readRow_run.
    destruct (nth_error (buffer t) (a + n - 1)) as [r1|] eqn:E1.
    2:{ apply nth_error_None in E1. lia. }
    cbn [modify].
    set (t1 := set_buffer (putRow (buffer t) (a + n) (Js.spread r1)) t).
    assert (Hl : length (buffer t1) = length (buffer t))
      by (apply putRow_length; lia).
    destruct (IH t1) as (b' & Hrun & Hlen & Hnth); [right; lia|].
    exists b'. rewrite Hrun. repeat split; [congruence|].
    intro i. rewrite Hnth. subst t1. cbn [buffer set_buffer].
    rewrite !putRow_nth by lia.
    split_tests; try reflexivity; subst;
      repeat match goal with
             | H : nth_error _ ?k = Some r1 |- context [nth_error _ ?j] =>
                 replace j with k by lia; rewrite H
             end; reflexivity.
Qed.

Lemma scrollUp_run (t : VirtualTerminal) :
  ScrollRegion.bottom (scrollRegion t) < length (buffer t) ->
  exists b',
    scrollUp 1 t = (Normal tt, set_buffer b' t) /\
    forall i, nth_error b' i = regionScrolledUp t i.
Proof.
  intro Hb.
  set (top := ScrollRegion.top (scrollRegion t)).
  set (bottom := ScrollRegion.bottom (scrollRegion t)) in *.
  destruct (shiftUp_run (bottom - top) top t) as (b1 & Hrun & Hlen & Hnth); [lia|].
  destruct (nth_error (buffer t) bottom) as [r|] eqn:Er.
  2:{ apply nth_error_None in Er. lia. }
  assert (Hr1 : nth_error b1 bottom = Some r).
  { rewrite Hnth. split_tests; exact Er. }
  exists (putRow b1 bottom (clearedRow (cols t) (blank t) r)). split.
  - unfold scrollUp, times, range. cbn [seq Nat.sub forEach].
    rewrite bind_run, bind_run. cbn [get]. fold top bottom. unfold range.
    rewrite bind_run, Hrun, bind_run. cbn [get].
    rewrite (clearLine_run _ _ r) by exact Hr1. reflexivity.
  - intro i. rewrite putRow_nth by (rewrite Hlen; exact Hb).
    unfold regionScrolledUp. fold top bottom. rewrite Er, Hnth. cbn [option_map].
    split_tests; reflexivity.
Qed.

Lemma scrollDown_run (t : VirtualTerminal) :
  ScrollRegion.top (scrollRegion t) < length (buffer t) ->
  ScrollRegion.bottom (scrollRegion t) < length (buffer t) ->
  exists b',
    scrollDown 1 t = (Normal tt, set_buffer b' t) /\
    forall i, nth_error b' i = regionScrolledDown t i.
Proof.
  intros Ht Hb.
  set (top := ScrollRegion.top (scrollRegion t)) in *.
  set (bottom := ScrollRegion.bottom (scrollRegion t)) in *.
  destruct (shiftDown_run (bottom - top) (S top) t) as (b1 & Hrun & Hlen & Hnth);
    [lia | lia |].
  destruct (nth_error (buffer t) top) as [r|] eqn:Er.
  2:{ apply nth_error_None in Er. lia. }
  assert (Hr1 : nth_error b1 top = Some r).
  { rewrite Hnth. split_tests; exact Er. }
  exists (putRow b1 top (clearedRow (cols t) (blank t) r)). split.
  - unfold scrollDown, times, range. cbn [seq Nat.sub forEach].
    rewrite bind_run, bind_run. cbn [get]. fold top bottom. unfold rangeDown.
    rewrite bind_run, Hrun, bind_run. cbn [get].
    rewrite (clearLine_run _ _ r) by exact Hr1. reflexivity.
  - intro i. rewrite putRow_nth by (rewrite Hlen; exact Ht).
    unfold regionScrolledDown. fold top bottom. rewrite Er, Hnth. cbn [option_map].
    split_tests; reflexivity.
Qed.

(** ** Line feed and reverse index *)

Lemma lineFeed_run (t : VirtualTerminal) :
  lineFeed t
  = if rows t - 1 <=? Cursor.y (cursor t)
    then scrollUp 1 (set_cursor (Cursor.mk 0 (Cursor.y (cursor t))) t)
    else (Normal tt, set_cursor (Cursor.mk 0 (Cursor.y (cursor t) + 1)) t).
Proof.
  unfold lineFeed. rewrite bind_run. cbn [modify]. rewrite bind_run. cbn [get].
  cbn [rows cursor set_cursor Cursor.y].
  destruct (rows t - 1 <=? Cursor.y (cursor t)); reflexivity.
Qed.

Lemma reverseIndex_run (t : VirtualTerminal) :
  reverseIndex t
  = if Cursor.y (cursor t) <=? ScrollRegion.top (scrollRegion t)
    then scrollDown 1 t
    else (Normal tt,
          set_cursor (Cursor.mk (Cursor.x (cursor t)) (Cursor.y (cursor t) - 1)) t).
Proof.
  unfold reverseIndex. rewrite bind_run. cbn [get].
  destruct (Cursor.y (cursor t) <=? ScrollRegion.top (scrollRegion t)); reflexivity.
Qed.

(** C4, as stated, fails: on [screenABC] the cursor is on the last row
    and the scroll region is rows 1..2; a line feed leaves row 0 ("A")
    in place, where a scroll of the whole buffer would have put row 1
    ("B"). *)
Lemma lineFeed_at_last_row_keeps_rows_outside_region :
  Cursor.y (cursor screenABC) = rows screenABC - 1 /\
  ~ (forall i, nth_error (buffer (stateAfter lineFeed screenABC)) i
               = wholeBufferScrolledUp screenABC i).
Proof.
  split; [reflexivity|].
  intro H. specialize (H 0). vm_compute in H. discriminate H.
Qed.

(** C4, amended.  [lineFeed] sets the cursor column to 0.  When the
    cursor is above the last row of the buffer it moves down one row
    and the buffer is untouched.  When the cursor is on the last row
    of the buffer ([rows - 1], whatever the bottom of the scroll region)
    it stays there and the scroll region, not the whole buffer, is
    scrolled up by one row: rows outside the region are untouched,
    every row of the region but the last takes the content of the row
    below it, and the bottom row of the region is cleared.  When the
    scroll region is the whole screen this is a scroll of the whole
    buffer. *)
Theorem lineFeed_scrolls_region_at_last_row :
  forall t : VirtualTerminal,
    Cursor.x (cursor (stateAfter lineFeed t)) = 0 /\
    (Cursor.y (cursor t) < rows t - 1 ->
     completionOf lineFeed t = Normal tt /\
     Cursor.y (cursor (stateAfter lineFeed t)) = Cursor.y (cursor t) + 1 /\
     buffer (stateAfter lineFeed t) = buffer t) /\
    (rows t - 1 <= Cursor.y (cursor t) ->
     ScrollRegion.bottom (scrollRegion t) < length (buffer t) ->
     completionOf lineFeed t = Normal tt /\
     Cursor.y (cursor (stateAfter lineFeed t)) = Cursor.y (cursor t) /\
     forall i, nth_error (buffer (stateAfter lineFeed t)) i = regionScrolledUp t i) /\
    (ScrollRegion.top (scrollRegion t) = 0 ->
     ScrollRegion.bottom (scrollRegion t) = rows t - 1 ->
     forall i, regionScrolledUp t i = wholeBufferScrolledUp t i).
Proof.
  intro t. split; [apply lineFeed_column|]. split; [|split].
  - intro Hy. unfold completionOf, stateAfter. rewrite lineFeed_run.
    apply Nat.leb_gt in Hy. rewrite Hy. repeat split.
  - intros Hy Hb. unfold completionOf, stateAfter. rewrite lineFeed_run.
    apply Nat.leb_le in Hy. rewrite Hy.
    destruct (scrollUp_run (set_cursor (Cursor.mk 0 (Cursor.y (cursor t))) t) Hb)
      as (b' & -> & Hnth).
    repeat split. exact Hnth.
  - intros Ht Hb i. unfold regionScrolledUp, wholeBufferScrolledUp.
    rewrite Ht, Hb. split_tests; reflexivity.
Qed.

(** The amended statement at work on [screenABC] and on a new screen. *)
Lemma lineFeed_scrolls_region_witness :
  (Cursor.y (cursor (stateAfter lineFeed (new 5 3))) = 1 /\
   buffer (stateAfter lineFeed (new 5 3)) = buffer (new 5 3)) /\
  (forall i, nth_error (buffer (stateAfter lineFeed screenABC)) i
             = regionScrolledUp screenABC i) /\
  (forall i, regionScrolledUp (new 5 3) i = wholeBufferScrolledUp (new 5 3) i).
Proof.
  split; [|split].
  - apply (proj1 (proj2 (lineFeed_scrolls_region_at_last_row (new 5 3)))).
    cbn. lia.
  - apply (proj1 (proj2 (proj2 (lineFeed_scrolls_region_at_last_row screenABC)))).
    + vm_compute. lia.
    + vm_compute. lia.
  - apply (proj2 (proj2 (proj2 (lineFeed_scrolls_region_at_last_row (new 5 3)))));
      reflexivity.
Defined.

(** C9, as stated, fails: on [screenABCD] the cursor is on row 1, above
    the top of the scroll region (row 2); reverse index scrolls the
    region down and leaves the cursor where it is. *)
Lemma reverseIndex_above_region_scrolls :
  Cursor.y (cursor screenABCD) < ScrollRegion.top (scrollRegion screenABCD) /\
  ~ (buffer (stateAfter reverseIndex screenABCD) = buffer screenABCD /\
     Cursor.y (cursor (stateAfter reverseIndex screenABCD))
     = Cursor.y (cursor screenABCD) - 1).
Proof.
  split; [vm_compute; lia|].
  intros [_ H]. vm_compute in H. discriminate H.
Qed.

(** C9, amended.  [reverseIndex] scrolls the scroll region down by one
    row, and leaves the cursor where it is, exactly when the cursor row
    is at or above the top of the region ([y <= scrollRegion.top]): the
    top row of the region is cleared, every other row of the region
    takes the content of the row above it, rows outside the region are
    untouched.  When the cursor row is below the top of the region it
    moves the cursor up one row and leaves the buffer untouched. *)
Theorem reverseIndex_scrolls_at_or_above_top :
  forall t : VirtualTerminal,
    (Cursor.y (cursor t) <= ScrollRegion.top (scrollRegion t) ->
     ScrollRegion.top (scrollRegion t) < length (buffer t) ->
     ScrollRegion.bottom (scrollRegion t) < length (buffer t) ->
     completionOf reverseIndex t = Normal tt /\
     cursor (stateAfter reverseIndex t) = cursor t /\
     forall i, nth_error (buffer (stateAfter reverseIndex t)) i = regionScrolledDown t i) /\
    (ScrollRegion.top (scrollRegion t) < Cursor.y (cursor t) ->
     completionOf reverseIndex t = Normal tt /\
     buffer (stateAfter reverseIndex t) = buffer t /\
     cursor (stateAfter reverseIndex t)
     = Cursor.mk (Cursor.x (cursor t)) (Cursor.y (cursor t) - 1)).
Proof.
  intro t. split.
  - intros Hy Ht Hb. unfold completionOf, stateAfter. rewrite reverseIndex_run.
    apply Nat.leb_le in Hy. rewrite Hy.
    destruct (scrollDown_run t Ht Hb) as (b' & -> & Hnth).
    repeat split. exact Hnth.
  - intro Hy. unfold completionOf, stateAfter. rewrite reverseIndex_run.
    apply Nat.leb_gt in Hy. rewrite Hy. repeat split.
Qed.

(** The amended statement at work: above the region on [screenABCD],
    below its top on [screenABC]. *)
Lemma reverseIndex_scrolls_witness :
  (cursor (stateAfter reverseIndex screenABCD) = cursor screenABCD /\
   forall i, nth_error (buffer (stateAfter reverseIndex screenABCD)) i
             = regionScrolledDown screenABCD i) /\
  (buffer (stateAfter reverseIndex screenABC) = buffer screenABC /\
   cursor (stateAfter reverseIndex screenABC) = Cursor.mk 0 1).
Proof.
  split.
  - apply (proj1 (reverseIndex_scrolls_at_or_above_top screenABCD));
      vm_compute; lia.
  - apply (proj2 (reverseIndex_scrolls_at_or_above_top screenABC)).
    vm_compute. lia.
Defined.

(** ** Printing *)

Lemma set_in_range {A} (a : Js.Array A) (i : nat) (v : A) :
  i < length a -> Js.set a i v = firstn i a ++ Js.Val v :: skipn (S i) a.
Proof.
  intro H. pose proof (set_at_end (firstn i a) (skipn i a) v) as E.
  rewrite firstn_skipn, length_firstn in E.
  replace (Nat.min i (length a)) with i in E by lia.
  now rewrite E, tl_skipn.
Qed.

Lemma typed_in_range (attr : Attr.t) (data : JsString) (r : Row) (x : nat) :
  x + length data <= length r ->
  typed attr r x data
  = firstn x r ++ map (printed attr) data ++ skipn (x + length data) r.
Proof.
  revert r x; induction data as [|c rest IH]; intros r x H; cbn [typed map length app] in *.
  - now rewrite Nat.add_0_r, firstn_skipn.
  - rewrite IH.
    + rewrite set_in_range by lia.
      rewrite firstn_app, length_firstn, firstn_firstn.
      replace (Nat.min (S x) x) with x by lia.
      replace (S x - Nat.min x (length r)) with 1 by lia.
      cbn [firstn]. rewrite <- app_assoc. cbn [app]. f_equal. f_equal.
      rewrite skipn_app, length_firstn.
      replace (S x + length rest - Nat.min x (length r)) with (S (length rest)) by lia.
      rewrite (skipn_all2 (n := S x + length rest) (firstn x r))
        by (rewrite length_firstn; lia).
      cbn [app]. rewrite skipn_cons, skipn_skipn. f_equal. f_equal. lia.
    + rewrite set_in_range by lia.
      rewrite length_app, length_firstn. cbn [length]. rewrite length_skipn. lia.
Qed.

Lemma handleNormalChar_printable (c : CodeUnit) :
  printable c -> handleNormalChar c = printChar c.
Proof.
  unfold printable, handleNormalChar. intro H.
  repeat match goal with
         | |- context [c =? ?n] => destruct (Nat.eqb_spec c n); [lia|]
         end.
  destruct (Nat.leb_spec 32 c); [reflexivity | lia].
Qed.

Lemma processChar_printable (c : CodeUnit) (t : VirtualTerminal) :
  ParseState.state (parseState t) = ParseState.normal -> printable c ->
  processChar c t = printChar c t.
Proof.
  intros Hs Hc. unfold processChar. rewrite bind_run. cbn [get].
  now rewrite Hs, handleNormalChar_printable.
Qed.

Lemma printChar_inline (c : CodeUnit) (t : VirtualTerminal) (r : Row) :
  Cursor.x (cursor t) < cols t ->
  nth_error (buffer t) (Cursor.y (cursor t)) = Some r ->
  printChar c t
  = (Normal tt,
     set_cursor (Cursor.mk (Cursor.x (cursor t) + 1) (Cursor.y (cursor t)))
       (set_buffer (putRow (buffer t) (Cursor.y (cursor t))
                      (Js.set r (Cursor.x (cursor t)) (mkCell c (Some (currentAttr t))))) t)).
Proof.
  intros Hx Hr. unfold printChar. rewrite bind_run. cbn [get].
  apply Nat.leb_gt in Hx. rewrite Hx. cbn [when]. rewrite bind_run. cbn [ret].
  rewrite bind_run. cbn [get]. rewrite bind_run, (setCell_run _ _ _ _ _ Hr).
  reflexivity.
Qed.

Lemma printChar_wrap (c : CodeUnit) (t : VirtualTerminal) (r : Row) :
  cols t <= Cursor.x (cursor t) ->
  Cursor.y (cursor t) < rows t - 1 ->
  nth_error (buffer t) (Cursor.y (cursor t) + 1) = Some r ->
  printChar c t
  = (Normal tt,
     set_cursor (Cursor.mk 1 (Cursor.y (cursor t) + 1))
       (set_buffer (putRow (buffer t) (Cursor.y (cursor t) + 1)
                      (Js.set r 0 (mkCell c (Some (currentAttr t))))) t)).
Proof.
  intros Hx Hy Hr. unfold printChar. rewrite bind_run. cbn [get].
  apply Nat.leb_le in Hx. rewrite Hx. cbn [when].
  rewrite bind_run, bind_run. cbn [modify]. rewrite lineFeed_run.
  cbn [rows cursor set_cursor Cursor.y].
  apply Nat.leb_gt in Hy. rewrite Hy.
  rewrite bind_run. cbn [get]. cbn [cursor set_cursor Cursor.x Cursor.y].
  rewrite bind_run, (setCell_run _ _ _ _ r) by exact Hr.
  reflexivity.
Qed.

Lemma printRun (data : JsString) (t : VirtualTerminal) (r : Row) :
  ParseState.state (parseState t) = ParseState.normal ->
  Forall printable data ->
  Cursor.x (cursor t) + length data <= cols t ->
  nth_error (buffer t) (Cursor.y (cursor t)) = Some r ->
  processChars data t
  = (Normal tt,
     set_cursor (Cursor.mk (Cursor.x (cursor t) + length data) (Cursor.y (cursor t)))
       (set_buffer (putRow (buffer t) (Cursor.y (cursor t))
                      (typed (currentAttr t) r (Cursor.x (cursor t)) data)) t)).
Proof.
  unfold processChars.
  revert t r; induction data as [|c rest IH]; intros t r Hs Hp Hx Hr;
    cbn [forEach typed length] in *.
  - rewrite Nat.add_0_r, (putRow_same _ _ _ Hr), set_buffer_same.
    destruct t as [? ? ? [? ?] ? ? ? ? ? ? ? ? ? ? ? ? ?]. reflexivity.
  - inversion Hp as [|? ? Hc Hrest]; subst.
    pose proof (nth_error_lt _ _ _ Hr) as Hy.
    rewrite bind_run, (processChar_printable _ _ Hs Hc).
    rewrite (printChar_inline c t r) by (lia || assumption).
    rewrite (IH _ (Js.set r (Cursor.x (cursor t)) (mkCell c (Some (currentAttr t)))));
      cbn [parseState cursor buffer cols currentAttr set_cursor set_buffer
           Cursor.x Cursor.y]; try assumption; try lia.
    + rewrite putRow_putRow by exact Hy.
      replace (Cursor.x (cursor t) + 1 + length rest)
        with (Cursor.x (cursor t) + S (length rest)) by lia.
      replace (Cursor.x (cursor t) + 1) with (S (Cursor.x (cursor t))) by lia.
      reflexivity.
    + rewrite putRow_nth by exact Hy. now rewrite Nat.eqb_refl.
Qed.

(** ** Wrapping at the last column *)

Lemma rowTexts_defined (b : Buffer) :
  Forall (fun r => rowText r <> None) b -> rowTexts b <> None.
Proof.
  induction 1 as [|r b Hr Hb IH]; cbn [rowTexts]; [discriminate|].
  destruct (rowText r); [|contradiction].
  destruct (rowTexts b); [discriminate | contradiction].
Qed.

Lemma Forall_putRow (P : Row -> Prop) (b : Buffer) (y : nat) (r : Row) :
  Forall P b -> P r -> Forall P (putRow b y r).
Proof.
  intros Hb Hr. revert y; induction Hb as [|h b Hh Hb IH]; intro y.
  - destruct y; cbn; auto.
  - destruct y; cbn [putRow]; constructor; auto.
Qed.

Lemma skipn_make {A} (k n : nat) (v : A) :
  skipn k (Js.make n v) = Js.make (n - k) v.
Proof.
  unfold Js.make. revert n; induction k as [|k IH]; intro n.
  - now rewrite Nat.sub_0_r.
  - destruct n; [reflexivity | apply IH].
Qed.

(** Reads the fields of a terminal built by the constructor and by
    field assignments. *)
Ltac fields :=
  cbn [new parseState cursor buffer cols rows currentAttr set_cursor set_buffer
       ParseState.state Cursor.x Cursor.y Nat.add].

Lemma wrap_run (ncols nrows k : nat) (data : JsString) :
  0 < k -> k <= ncols -> 2 <= nrows ->
  length data = ncols + k ->
  Forall printable data ->
  processChars data (new ncols nrows)
  = (Normal tt,
     set_cursor (Cursor.mk k 1)
       (set_buffer
          (putRow
             (putRow (emptyBuffer None ncols nrows) 0
                     (map (printed Attr.default) (firstn ncols data)))
             1
             (map (printed Attr.default) (skipn ncols data)
              ++ Js.make (ncols - k) (mkCell SPACE None)))
          (new ncols nrows))).
Proof.
  intros Hk Hkc Hrows Hlen Hp.
  set (r0 := Js.make ncols (mkCell SPACE None)).
  assert (Hr0 : length r0 = ncols) by apply repeat_length.
  assert (Hb0 : forall i, i < nrows -> nth_error (emptyBuffer None ncols nrows) i = Some r0).
  { intros i Hi. unfold emptyBuffer. now rewrite nth_error_repeat. }
  assert (Hl0 : length (emptyBuffer None ncols nrows) = nrows) by apply repeat_length.
  rewrite <- (firstn_skipn ncols data) in Hp |- * at 1.
  apply Forall_app in Hp. destruct Hp as [Hp1 Hp2].
  assert (Hl1 : length (firstn ncols data) = ncols) by (rewrite length_firstn; lia).
  assert (Hl2 : length (skipn ncols data) = k) by (rewrite length_skipn; lia).
  unfold processChars. rewrite forEach_app, bind_run.
  fold (processChars (firstn ncols data)).
  rewrite (printRun _ _ r0); fields;
    [| reflexivity | exact Hp1 | lia | apply Hb0; lia].
  rewrite Hl1. cbn [Nat.add].
  rewrite typed_in_range by (cbn [Nat.add]; lia).
  cbn [firstn Nat.add app].
  rewrite Hl1, (skipn_all2 (n := ncols) r0), app_nil_r by lia.
  destruct (skipn ncols data) as [|c rest] eqn:E2; [cbn in Hl2; lia|].
  pose proof (Forall_inv Hp2) as Hc. pose proof (Forall_inv_tail Hp2) as Hrest.
  cbn [length] in Hl2.
  cbn [forEach]. rewrite bind_run.
  rewrite processChar_printable by (reflexivity || assumption).
  rewrite (printChar_wrap _ _ r0); fields; try lia.
  2:{ rewrite putRow_nth by lia. cbn [Nat.eqb]. apply Hb0; lia. }
  fold (processChars rest).
  rewrite (printRun _ _ (Js.set r0 0 (mkCell c (Some Attr.default)))); fields;
    try reflexivity; try assumption; try lia.
  2:{ rewrite putRow_nth by (rewrite putRow_length; lia). now rewrite Nat.eqb_refl. }
  rewrite putRow_putRow by (rewrite putRow_length; lia).
  change (typed Attr.default (Js.set r0 0 (mkCell c (Some Attr.default))) 1 rest)
    with (typed Attr.default r0 0 (c :: rest)).
  rewrite typed_in_range by (cbn [length Nat.add]; lia).
  cbn [firstn app Nat.add length]. unfold r0. rewrite skipn_make.
  replace (S (length rest)) with k by lia.
  replace (1 + length rest) with k by lia.
  reflexivity.
Qed.

Lemma write_returns behaviour (now : nat) (data : JsString) (t t1 : VirtualTerminal) :
  render (buffer t) <> None ->
  processChars data t = (Normal tt, t1) ->
  render (buffer t1) <> None ->
  completion (write behaviour now data t) = Normal tt /\
  buffer (after (write behaviour now data t)) = buffer t1 /\
  cursor (after (write behaviour now data t)) = cursor t1.
Proof.
  intros H0 Hrun H1. unfold write. rewrite toString_run.
  destruct (render (buffer t)); [|contradiction].
  rewrite Hrun, toString_run.
  destruct (render (buffer t1)); [|contradiction].
  destruct (list_eq_dec Nat.eq_dec j j0); repeat split.
Qed.

(** C7, as stated, fails on a terminal with a single row: there the
    wrap scrolls the only row away, and "HelloWorld" on a new 5x1
    terminal leaves row 0 holding "World". *)
Lemma wrap_on_single_row_scrolls_first_row_away :
  lineAt (after (write quiet 0 (str "HelloWorld") (new 5 1))) 0 = Some (str "World") /\
  ~ lineAt (after (write quiet 0 (str "HelloWorld") (new 5 1))) 0 = Some (str "Hello").
Proof. vm_compute. split; [reflexivity | discriminate]. Qed.

(** C7, amended.  For every [k] with [0 < k <= cols], writing
    [cols + k] printable characters to a new terminal with at least
    two rows returns and leaves row 0 holding the first [cols]
    characters, the first [k] cells of row 1 holding the remaining [k]
    characters (the rest of row 1 still blank), and the cursor at
    column [k] of row 1.  In particular "HelloWorld" on a new 5x3
    terminal gives row 0 "Hello", row 1 "World" and cursor (5,1). *)
Theorem wrap_at_last_column :
  (forall behaviour now ncols nrows k data,
      0 < k -> k <= ncols -> 2 <= nrows ->
      length data = ncols + k ->
      Forall printable data ->
      completion (write behaviour now data (new ncols nrows)) = Normal tt /\
      nth_error (buffer (after (write behaviour now data (new ncols nrows)))) 0
      = Some (map (printed Attr.default) (firstn ncols data)) /\
      nth_error (buffer (after (write behaviour now data (new ncols nrows)))) 1
      = Some (map (printed Attr.default) (skipn ncols data)
              ++ Js.make (ncols - k) (mkCell SPACE None)) /\
      lineAt (after (write behaviour now data (new ncols nrows))) 0
      = Some (firstn ncols data) /\
      lineAt (after (write behaviour now data (new ncols nrows))) 1
      = Some (skipn ncols data ++ repeat SPACE (ncols - k)) /\
      cursor (after (write behaviour now data (new ncols nrows))) = Cursor.mk k 1) /\
  lineAt (after (write quiet 0 (str "HelloWorld") (new 5 3))) 0 = Some (str "Hello") /\
  lineAt (after (write quiet 0 (str "HelloWorld") (new 5 3))) 1 = Some (str "World") /\
  cursor (after (write quiet 0 (str "HelloWorld") (new 5 3))) = Cursor.mk 5 1.
Proof.
  split; [|vm_compute; repeat split].
  intros behaviour now ncols nrows k data Hk Hkc Hrows Hlen Hp.
  pose proof (wrap_run ncols nrows k data Hk Hkc Hrows Hlen Hp) as Hrun.
  assert (Hl0 : length (emptyBuffer None ncols nrows) = nrows) by apply repeat_length.
  assert (Hrow0 : rowText (map (printed Attr.default) (firstn ncols data))
                  = Some (firstn ncols data)).
  { pose proof (rowText_printed Attr.default (firstn ncols data) 0 None) as H.
    cbn [Js.make repeat] in H. now rewrite !app_nil_r in H. }
  match type of Hrun with
  | _ = (_, ?u) =>
      destruct (write_returns behaviour now data (new ncols nrows) u)
        as (Hc & Hb & Hx); [| exact Hrun | |]
  end.
  - cbn [new buffer]. rewrite render_emptyBuffer. discriminate.
  - fields. unfold render.
    match goal with
    | |- option_map _ ?o <> None =>
        assert (Hd : o <> None); [|destruct o; [discriminate | contradiction]]
    end.
    apply rowTexts_defined. repeat apply Forall_putRow.
    + unfold emptyBuffer. apply Forall_forall. intros r Hin.
      apply repeat_spec in Hin. subst r. rewrite rowText_make. discriminate.
    + rewrite Hrow0. discriminate.
    + rewrite rowText_printed. discriminate.
  - unfold lineAt. rewrite Hc, Hb, Hx. fields.
    rewrite !putRow_nth by (rewrite ?putRow_length; lia). cbn [Nat.eqb].
    rewrite Hrow0, rowText_printed. repeat split.
Qed.

(** The amended statement at work on six characters and four columns. *)
Lemma wrap_at_last_column_witness :
  lineAt (after (write quiet 0 (str "abcdef") (new 4 2))) 0 = Some (str "abcd") /\
  lineAt (after (write quiet 0 (str "abcdef") (new 4 2))) 1
  = Some (str "ef" ++ repeat SPACE 2) /\
  cursor (after (write quiet 0 (str "abcdef") (new 4 2))) = Cursor.mk 2 1.
Proof.
  assert (H : Forall printable (str "abcdef"))
    by (repeat constructor; unfold printable; cbn; lia).
  destruct (proj1 wrap_at_last_column quiet 0 4 2 2 (str "abcdef"))
    as (_ & _ & _ & H0 & H1 & Hx); try reflexivity; try lia; try exact H.
  repeat split; assumption.
Defined.

(** The statement of C6 at work: three callbacks subscribed in the
    order 3, 1, 2. *)
Lemma listeners_invoked_in_order_witness :
  changeListeners (subscribeAll [3; 1; 2] (new 5 3)) = [3; 1; 2].
Proof.
  apply (proj2 (proj2 (listeners_invoked_in_order_despite_raises quiet))).
  repeat constructor; cbn; lia.
Defined.

(** ** Methods on well-formed terminals *)

Lemma set_keeps_cells (r : Row) (x : nat) (v : Cell) :
  x <= length r -> Forall isVal r ->
  Forall isVal (Js.set r x v) /\ length r <= length (Js.set r x v).
Proof.
  revert x; induction r as [|h r IH]; intros x Hx Hr.
  - destruct x; [|cbn in Hx; lia]. cbn. split; [repeat constructor | lia].
  - inversion Hr; subst. destruct x; cbn [Js.set length].
    + split; [constructor; [exact I | assumption] | lia].
    + destruct (IH x) as [G1 G2]; [cbn in Hx; lia | assumption |].
      split; [now constructor | lia].
Qed.

Lemma set_wholeRow (n : nat) (r : Row) (x : nat) (v : Cell) :
  wholeRow n r -> x <= n -> wholeRow n (Js.set r x v).
Proof.
  intros [Hl Hv] Hx. destruct (set_keeps_cells r x v) as [H1 H2]; [lia | exact Hv |].
  split; [lia | exact H1].
Qed.

Lemma map_wholeRow (n : nat) (r : Row) :
  wholeRow n r -> wholeRow n (Js.map cloneCell r).
Proof.
  intros [Hl Hv]. split; [unfold Js.map; now rewrite length_map|].
  clear Hl. unfold Js.map. induction Hv as [|s r Hs Hr IH]; [constructor|].
  cbn [map]. constructor; [destruct s; try contradiction; exact I | exact IH].
Qed.

Lemma spread_wholeRow (n : nat) (r : Row) :
  wholeRow n r -> wholeRow n (Js.spread r).
Proof.
  intros [Hl Hv]. split; [unfold Js.spread; now rewrite length_map|].
  clear Hl. unfold Js.spread. induction Hv as [|s r Hs Hr IH]; [constructor|].
  cbn [map]. constructor; [destruct s; try contradiction; exact I | exact IH].
Qed.

Lemma make_wholeRow (n : nat) (v : Cell) : wholeRow n (Js.make n v).
Proof.
  unfold Js.make. split; [now rewrite repeat_length|].
  apply Forall_forall. intros s Hs. apply repeat_spec in Hs. now subst.
Qed.

Lemma emptyBuffer_whole (attr : option Attr.t) (ncols nrows : nat) :
  wholeBuffer ncols nrows (emptyBuffer attr ncols nrows).
Proof.
  unfold emptyBuffer. split; [apply repeat_length|].
  apply Forall_forall. intros r Hr. apply repeat_spec in Hr. subst.
  apply make_wholeRow.
Qed.

Lemma putRow_whole (ncols nrows : nat) (b : Buffer) (y : nat) (r : Row) :
  wholeBuffer ncols nrows b -> y < nrows -> wholeRow ncols r ->
  wholeBuffer ncols nrows (putRow b y r).
Proof.
  intros [Hl Hb] Hy Hr. split.
  - rewrite putRow_length; [exact Hl | lia].
  - now apply Forall_putRow.
Qed.

Lemma whole_row (ncols nrows : nat) (b : Buffer) (y : nat) :
  wholeBuffer ncols nrows b -> y < nrows ->
  exists r, nth_error b y = Some r /\ wholeRow ncols r.
Proof.
  intros [Hl Hb] Hy. destruct (nth_error b y) as [r|] eqn:E.
  - exists r. split; [reflexivity|].
    eapply Forall_forall; [exact Hb | eapply nth_error_In; exact E].
  - apply nth_error_None in E. lia.
Qed.

Lemma rowChars_whole (r : Row) : Forall isVal r -> rowChars r <> None.
Proof.
  induction 1 as [|s r Hs Hr IH]; cbn [rowChars]; [discriminate|].
  destruct s; try contradiction.
  destruct (rowChars r); [discriminate | contradiction].
Qed.

Lemma render_whole (ncols nrows : nat) (b : Buffer) :
  wholeBuffer ncols nrows b -> render b <> None.
Proof.
  intros [_ Hb]. unfold render.
  assert (H : rowTexts b <> None).
  { apply rowTexts_defined. eapply Forall_impl; [|exact Hb].
    intros r [_ Hr]. unfold rowText.
    pose proof (rowChars_whole r Hr). destruct (rowChars r); [discriminate | contradiction]. }
  destruct (rowTexts b); [discriminate | contradiction].
Qed.

(** The numbers a well-formed terminal bounds. *)
Lemma wellFormed_bounds (t : VirtualTerminal) :
  wellFormed t ->
  1 <= cols t /\
  Cursor.x (cursor t) <= cols t /\ Cursor.y (cursor t) < rows t /\
  ScrollRegion.bottom (scrollRegion t) < rows t /\
  ScrollRegion.top (scrollRegion t) < rows t.
Proof.
  intros ((H1 & (H2 & H3) & _) & _ & H4 & H5 & _). repeat split; assumption.
Qed.

Lemma sameCursors_numbers (t u : VirtualTerminal) :
  sameCursors t u ->
  cols u = cols t /\ rows u = rows t /\
  Cursor.x (cursor u) = Cursor.x (cursor t) /\
  Cursor.y (cursor u) = Cursor.y (cursor t) /\
  ScrollRegion.bottom (scrollRegion u) = ScrollRegion.bottom (scrollRegion t) /\
  ScrollRegion.top (scrollRegion u) = ScrollRegion.top (scrollRegion t).
Proof.
  intros (Hc & Hr & Hx & _ & _ & Hs). rewrite Hc, Hr, Hx, Hs. repeat split.
Qed.

Lemma wellFormed_painted (t u : VirtualTerminal) :
  wellFormed t -> sameCursors t u -> whole u -> wellFormed u.
Proof.
  intros (Hj & _ & Hb & Ht & Ha) Hs Hw.
  pose proof (sameCursors_bounds _ _ Hs Hj) as Hj'.
  destruct Hs as (Hc & Hr & Hx & Hsv & Hal & Hreg).
  unfold wellFormed, topInside in *. rewrite Hal, Hreg, Hc, Hr.
  split; [exact Hj' | split; [exact Hw | split; [exact Hb | split; [exact Ht | exact Ha]]]].
Qed.

Lemma paints_fine (m : M unit) (t : VirtualTerminal) :
  wellFormed t -> paints m t -> fine m t.
Proof.
  intros Hw (Hc & Hs & Hb). split; [exact Hc|].
  now apply (wellFormed_painted t).
Qed.

Lemma paints_ret (t : VirtualTerminal) : whole t -> paints (ret tt) t.
Proof. intro H. split; [reflexivity | split; [apply sameCursors_refl | exact H]]. Qed.

Lemma paints_seq (m k : M unit) (t : VirtualTerminal) :
  paints m t ->
  (sameCursors t (stateAfter m t) -> whole (stateAfter m t) ->
   paints k (stateAfter m t)) ->
  paints (m ;; k) t.
Proof.
  intros (Hc & Hs & Hb) Hk. destruct (Hk Hs Hb) as (Kc & Ks & Kb).
  unfold paints. rewrite completionOf_bind, stateAfter_bind, Hc.
  split; [exact Kc | split; [|exact Kb]].
  eapply sameCursors_trans; eassumption.
Qed.

Lemma paints_get (k : VirtualTerminal -> M unit) (t : VirtualTerminal) :
  paints (k t) t -> paints (bind get k) t.
Proof. intro H. exact H. Qed.

Lemma paints_forEach (l : list nat) (body : nat -> M unit) (t : VirtualTerminal) :
  whole t ->
  (forall i u, In i l -> sameCursors t u -> whole u -> paints (body i) u) ->
  paints (forEach l body) t.
Proof.
  intros Hw H.
  assert (G : forall u, sameCursors t u -> whole u ->
                        completionOf (forEach l body) u = Normal tt /\
                        sameCursors t (stateAfter (forEach l body) u) /\
                        whole (stateAfter (forEach l body) u)).
  { induction l as [|i l IH]; intros u Hs Hu.
    - split; [reflexivity | split; [exact Hs | exact Hu]].
    - cbn [forEach]. rewrite completionOf_bind, stateAfter_bind.
      destruct (H i u (or_introl eq_refl) Hs Hu) as (-> & Bs & Bw).
      apply IH; [intros j v Hj; apply H; now right | | exact Bw].
      eapply sameCursors_trans; eassumption. }
  apply G; [apply sameCursors_refl | exact Hw].
Qed.

Lemma paints_times (count : nat) (body : M unit) (t : VirtualTerminal) :
  wellFormed t ->
  (forall u, wellFormed u -> paints body u) ->
  paints (times count body) t.
Proof.
  intros Hw H. apply paints_forEach; [apply Hw|].
  intros _ u _ Hs Hu. apply H. now apply (wellFormed_painted t).
Qed.

Lemma in_range (i a b : nat) : In i (range a b) -> a <= i < b.
Proof. unfold range. intro H. apply in_seq in H. lia. Qed.

Lemma in_rangeDown (i a b : nat) : In i (rangeDown a b) -> b < i <= a.
Proof. unfold rangeDown. intro H. apply in_rev, in_seq in H. lia. Qed.

Lemma setCell_paints (y x : nat) (v : Cell) (u : VirtualTerminal) :
  whole u -> y < rows u -> x <= cols u -> paints (setCell y x v) u.
Proof.
  intros Hw Hy Hx. destruct (whole_row _ _ _ y Hw Hy) as (r & Er & Hr).
  unfold paints, completionOf, stateAfter. rewrite (setCell_run _ _ _ _ _ Er).
  cbn [fst snd]. split; [reflexivity | split; [repeat split|]].
  unfold whole. cbn [cols rows buffer set_buffer].
  apply putRow_whole; [exact Hw | exact Hy | now apply set_wholeRow].
Qed.

Lemma copyRow_paints (f : Row -> Row) (src dst : nat) (u : VirtualTerminal) :
  (forall r, wholeRow (cols u) r -> wholeRow (cols u) (f r)) ->
  whole u -> src < rows u -> dst < rows u ->
  paints (r <- readRow src ;;
          modify (fun t => set_buffer (putRow (buffer t) dst (f r)) t)) u.
Proof.
  intros Hf Hw Hs Hd. destruct (whole_row _ _ _ src Hw Hs) as (r & Er & Hr).
  unfold paints, completionOf, stateAfter. rewrite bind_run, readRow_run, Er.
  cbn [modify fst snd]. split; [reflexivity | split; [repeat split|]].
  unfold whole. cbn [cols rows buffer set_buffer].
  apply putRow_whole; [exact Hw | exact Hd | now apply Hf].
Qed.

Lemma clearLine_paints (y : nat) (u : VirtualTerminal) :
  whole u -> y < rows u -> paints (clearLine y) u.
Proof.
  intros Hw Hy. unfold clearLine. apply paints_get.
  apply paints_forEach; [exact Hw|]. intros x v Hx Hs Hv.
  apply in_range in Hx. apply sameCursors_numbers in Hs.
  apply paints_get, setCell_paints; [exact Hv | lia | lia].
Qed.

Ltac numbers :=
  repeat match goal with
         | H : sameCursors _ _ |- _ => apply sameCursors_numbers in H
         | H : wellFormed _ |- _ => apply wellFormed_bounds in H
         | H : In _ (range _ _) |- _ => apply in_range in H
         | H : In _ (rangeDown _ _) |- _ => apply in_rangeDown in H
         end;
  lia.

Ltac got := apply paints_get; cbv beta.

Lemma readRow_paints (y : nat) (k : Row -> M unit) (u : VirtualTerminal) :
  whole u -> y < rows u -> (forall r, paints (k r) u) -> paints (bind (readRow y) k) u.
Proof.
  intros Hw Hy Hk. destruct (whole_row _ _ _ y Hw Hy) as (r & Er & _).
  specialize (Hk r). unfold paints, completionOf, stateAfter in *.
  now rewrite bind_run, readRow_run, Er.
Qed.

Lemma scrollUp_paints (count : nat) (t : VirtualTerminal) :
  wellFormed t -> paints (scrollUp count) t.
Proof.
  intro Ht. unfold scrollUp. apply paints_times; [exact Ht|]. intros u Hu.
  got. apply paints_seq.
  - apply paints_forEach; [apply Hu|]. intros y v Hy Hs Hv.
    apply copyRow_paints;
      [intros; now apply map_wholeRow | exact Hv | numbers | numbers].
  - intros Hs Hv. got. apply clearLine_paints; [exact Hv | numbers].
Qed.

Lemma scrollDown_paints (count : nat) (t : VirtualTerminal) :
  wellFormed t -> paints (scrollDown count) t.
Proof.
  intro Ht. unfold scrollDown. apply paints_times; [exact Ht|]. intros u Hu.
  got. apply paints_seq.
  - apply paints_forEach; [apply Hu|]. intros y v Hy Hs Hv.
    apply copyRow_paints;
      [intros; now apply spread_wholeRow | exact Hv | numbers | numbers].
  - intros Hs Hv. got. apply clearLine_paints; [exact Hv | numbers].
Qed.

Lemma insertLines_paints (count : nat) (t : VirtualTerminal) :
  wellFormed t -> paints (insertLines count) t.
Proof.
  intro Ht. unfold insertLines. apply paints_times; [exact Ht|]. intros u Hu.
  got. apply paints_seq.
  - apply paints_forEach; [apply Hu|]. intros y v Hy Hs Hv.
    apply copyRow_paints;
      [intros; now apply spread_wholeRow | exact Hv | numbers | numbers].
  - intros Hs Hv. got. apply clearLine_paints; [exact Hv | numbers].
Qed.

Lemma deleteLines_paints (count : nat) (t : VirtualTerminal) :
  wellFormed t -> paints (deleteLines count) t.
Proof.
  intro Ht. unfold deleteLines. apply paints_times; [exact Ht|]. intros u Hu.
  got. apply paints_seq.
  - apply paints_forEach; [apply Hu|]. intros y v Hy Hs Hv.
    apply copyRow_paints;
      [intros; now apply spread_wholeRow | exact Hv | numbers | numbers].
  - intros Hs Hv. got. apply clearLine_paints; [exact Hv | numbers].
Qed.

Lemma deleteCharacters_paints (count : nat) (t : VirtualTerminal) :
  wellFormed t -> paints (deleteCharacters count) t.
Proof.
  intro Ht. unfold deleteCharacters, times. got.
  apply paints_forEach; [apply Ht|]. intros _ u _ Hs Hu.
  got. apply paints_seq.
  - apply paints_forEach; [exact Hu|]. intros x v Hx Hv Hw.
    apply readRow_paints; [exact Hw | numbers |]. intro r.
    apply setCell_paints; [exact Hw | numbers | numbers].
  - intros Hv Hw. got. apply setCell_paints; [exact Hw | numbers | numbers].
Qed.

Lemma eraseInLine_paints (mode : nat) (t : VirtualTerminal) :
  wellFormed t -> paints (eraseInLine mode) t.
Proof.
  intro Ht. unfold eraseInLine. got.
  destruct mode as [|[|[|mode]]].
  - apply paints_forEach; [apply Ht|]. intros x u Hx Hs Hu.
    got. apply setCell_paints; [exact Hu | numbers | numbers].
  - apply paints_forEach; [apply Ht|]. intros x u Hx Hs Hu.
    got. apply setCell_paints; [exact Hu | numbers | numbers].
  - apply clearLine_paints; [apply Ht | numbers].
  - apply paints_ret, Ht.
Qed.

Lemma eraseBelow_paints (t : VirtualTerminal) :
  wellFormed t ->
  paints (eraseInLine 0 ;;
          t <- get ;;
          forEach (range (Cursor.y (cursor t) + 1) (rows t)) clearLine) t.
Proof.
  intro Ht. apply paints_seq; [now apply eraseInLine_paints|].
  intros Hs Hu. got. apply paints_forEach; [exact Hu|]. intros y v Hy Hv Hw.
  apply clearLine_paints; [exact Hw | numbers].
Qed.

Lemma eraseAbove_paints (t : VirtualTerminal) :
  wellFormed t ->
  paints (t <- get ;;
          forEach (range 0 (Cursor.y (cursor t))) clearLine ;;
          eraseInLine 1) t.
Proof.
  intro Ht. got. apply paints_seq.
  - apply paints_forEach; [apply Ht|]. intros y v Hy Hv Hw.
    apply clearLine_paints; [exact Hw | numbers].
  - intros Hs Hu. apply eraseInLine_paints. now apply (wellFormed_painted t).
Qed.

Lemma fine_ret (t : VirtualTerminal) : wellFormed t -> fine (ret tt) t.
Proof. intro H. split; [reflexivity | exact H]. Qed.

Lemma fine_modify (f : VirtualTerminal -> VirtualTerminal) (t : VirtualTerminal) :
  wellFormed (f t) -> fine (modify f) t.
Proof. intro H. split; [reflexivity | exact H]. Qed.

Lemma fine_get (k : VirtualTerminal -> M unit) (t : VirtualTerminal) :
  fine (k t) t -> fine (bind get k) t.
Proof. intro H. exact H. Qed.

Lemma fine_seq (m k : M unit) (t : VirtualTerminal) :
  fine m t -> (wellFormed (stateAfter m t) -> fine k (stateAfter m t)) ->
  fine (m ;; k) t.
Proof.
  intros (Hc & Hw) Hk. destruct (Hk Hw) as (Kc & Kw).
  unfold fine. now rewrite completionOf_bind, stateAfter_bind, Hc.
Qed.

Lemma fine_forEach (l : list nat) (body : nat -> M unit) (t : VirtualTerminal) :
  (forall i u, wellFormed u -> fine (body i) u) ->
  wellFormed t -> fine (forEach l body) t.
Proof.
  intros H Ht. apply (forEach_returns wellFormed); [|exact Ht].
  intros i u _ Hu. now apply H.
Qed.

(** Well-formedness reads the dimensions, the buffer, the three
    cursors, the scroll region and the snapshot only. *)
Ltac wf_fields :=
  unfold wellFormed, cursorsInBounds, inBounds, topInside, whole in *;
  cbn [cols rows buffer cursor savedCursor scrollRegion altScreenBuffer
       set_cursor set_buffer set_savedCursor set_scrollRegion
       set_altScreenBuffer set_isAltScreen set_currentAttr set_cursorVisible
       set_parseState set_frameCounter set_hasChangedSinceLastCheck
       Cursor.x Cursor.y ScrollRegion.top ScrollRegion.bottom
       AltScreen.buffer AltScreen.cursor] in *.

Ltac wf_leaf :=
  wf_fields;
  repeat match goal with
         | H : _ /\ _ |- _ => destruct H
         end;
  repeat match goal with
         | |- _ /\ _ => split
         end;
  solve [assumption | lia | exact I].

Lemma wellFormed_cursor (c : Cursor.t) (t : VirtualTerminal) :
  wellFormed t -> Cursor.x c <= cols t -> Cursor.y c < rows t ->
  wellFormed (set_cursor c t).
Proof. intros Ht Hx Hy. wf_leaf. Qed.

Lemma wellFormed_parseState (p : ParseState.t) (t : VirtualTerminal) :
  wellFormed t -> wellFormed (set_parseState p t).
Proof. intro Ht. wf_leaf. Qed.

Lemma wellFormed_counted (n : nat) (b : bool) (t : VirtualTerminal) :
  wellFormed t -> wellFormed (set_hasChangedSinceLastCheck b (set_frameCounter n t)).
Proof. intro Ht. wf_leaf. Qed.

Ltac move_cursor :=
  apply fine_modify, wellFormed_cursor; [assumption | cbn [Cursor.x Cursor.y] | cbn [Cursor.x Cursor.y]];
  numbers.

Lemma moveCursorUp_fine (count : nat) (t : VirtualTerminal) :
  wellFormed t -> fine (moveCursorUp count) t.
Proof. intro Ht. unfold moveCursorUp. move_cursor. Qed.

Lemma moveCursorDown_fine (count : nat) (t : VirtualTerminal) :
  wellFormed t -> fine (moveCursorDown count) t.
Proof. intro Ht. unfold moveCursorDown. move_cursor. Qed.

Lemma moveCursorRight_fine (count : nat) (t : VirtualTerminal) :
  wellFormed t -> fine (moveCursorRight count) t.
Proof. intro Ht. unfold moveCursorRight. move_cursor. Qed.

Lemma moveCursorLeft_fine (count : nat) (t : VirtualTerminal) :
  wellFormed t -> fine (moveCursorLeft count) t.
Proof. intro Ht. unfold moveCursorLeft. move_cursor. Qed.

Lemma setCursorPosition_fine (col row : nat) (t : VirtualTerminal) :
  wellFormed t -> fine (setCursorPosition col row) t.
Proof. intro Ht. unfold setCursorPosition. move_cursor. Qed.

Lemma carriageReturn_fine (t : VirtualTerminal) :
  wellFormed t -> fine carriageReturn t.
Proof. intro Ht. unfold carriageReturn. move_cursor. Qed.

Lemma tab_fine (t : VirtualTerminal) : wellFormed t -> fine tab t.
Proof. intro Ht. unfold tab. move_cursor. Qed.

Lemma saveCursor_fine (t : VirtualTerminal) : wellFormed t -> fine saveCursor t.
Proof. intro Ht. unfold saveCursor. apply fine_modify. wf_leaf. Qed.

Lemma restoreCursor_fine (t : VirtualTerminal) : wellFormed t -> fine restoreCursor t.
Proof. intro Ht. unfold restoreCursor. apply fine_modify. wf_leaf. Qed.

Lemma clearScreen_fine (t : VirtualTerminal) : wellFormed t -> fine clearScreen t.
Proof.
  intro Ht. unfold clearScreen. apply fine_modify.
  pose proof (emptyBuffer_whole (Some (currentAttr t)) (cols t) (rows t)) as He.
  unfold createEmptyBuffer. wf_leaf.
Qed.

Lemma lineFeed_fine (t : VirtualTerminal) : wellFormed t -> fine lineFeed t.
Proof.
  intro Ht. unfold lineFeed. apply fine_seq; [move_cursor|].
  intro Hu. apply fine_get.
  match goal with
  | |- context [if ?a <=? ?b then _ else _] => destruct (Nat.leb_spec a b)
  end.
  - apply paints_fine; [exact Hu | now apply scrollUp_paints].
  - apply fine_modify, wellFormed_cursor; [exact Hu | |];
      cbn [Cursor.x Cursor.y]; numbers.
Qed.

Lemma reverseIndex_fine (t : VirtualTerminal) : wellFormed t -> fine reverseIndex t.
Proof.
  intro Ht. unfold reverseIndex. apply fine_get.
  match goal with
  | |- context [if ?a <=? ?b then _ else _] => destruct (Nat.leb_spec a b)
  end.
  - apply paints_fine; [exact Ht | now apply scrollDown_paints].
  - move_cursor.
Qed.

Lemma printChar_fine (char : CodeUnit) (t : VirtualTerminal) :
  wellFormed t -> fine (printChar char) t.
Proof.
  intro Ht. unfold printChar. apply fine_get.
  set (wrap := when (cols t <=? Cursor.x (cursor t))
                 (modify (fun t0 => set_cursor (Cursor.mk 0 (Cursor.y (cursor t0))) t0) ;;
                  lineFeed)).
  assert (Hw : fine wrap t /\
               Cursor.x (cursor (stateAfter wrap t)) < cols (stateAfter wrap t)).
  { subst wrap. destruct (Nat.leb_spec (cols t) (Cursor.x (cursor t))); cbn [when].
    - assert (Hf : fine (modify (fun t0 => set_cursor (Cursor.mk 0 (Cursor.y (cursor t0))) t0) ;;
                         lineFeed) t)
        by (apply fine_seq; [move_cursor | intro Hu; now apply lineFeed_fine]).
      split; [exact Hf|]. destruct Hf as [_ Hf]. apply wellFormed_bounds in Hf.
      rewrite stateAfter_bind in *. cbn [completionOf stateAfter modify fst snd] in *.
      rewrite lineFeed_column. lia.
    - split; [now apply fine_ret | exact H]. }
  destruct Hw as [Hw Hx]. apply fine_seq; [exact Hw|].
  intro Hu. set (u := stateAfter wrap t) in *. apply fine_get.
  apply fine_seq.
  - apply paints_fine; [exact Hu|].
    apply setCell_paints; [apply Hu | numbers | lia].
  - intro Hv.
    match goal with
    | |- fine _ (stateAfter (setCell ?a ?b ?c) u) =>
        pose proof (setCell_sameCursors a b c u) as Hs
    end.
    apply fine_modify, wellFormed_cursor; [exact Hv | |];
      cbn [Cursor.x Cursor.y]; numbers.
Qed.

Lemma snapshot_whole (ncols nrows : nat) (b : Buffer) :
  wholeBuffer ncols nrows b -> wholeBuffer ncols nrows (map (Js.map cloneCell) b).
Proof.
  intros [Hl Hb]. split; [now rewrite length_map|].
  apply Forall_map. eapply Forall_impl; [|exact Hb].
  intros r Hr. now apply map_wholeRow.
Qed.

Lemma enableAltScreen_fine (t : VirtualTerminal) :
  wellFormed t -> fine enableAltScreen t.
Proof.
  intro Ht. unfold enableAltScreen. apply fine_get.
  destruct (isAltScreen t); cbn [negb when]; [now apply fine_ret|].
  apply fine_seq.
  - apply fine_modify.
    pose proof (snapshot_whole _ _ _ (proj1 (proj2 Ht))) as Hs. wf_leaf.
  - intro Hu. apply fine_seq.
    + apply fine_modify. cbn [stateAfter modify snd] in *. wf_leaf.
    + intro Hv. now apply clearScreen_fine.
Qed.

Lemma disableAltScreen_fine (t : VirtualTerminal) :
  wellFormed t -> fine disableAltScreen t.
Proof.
  intro Ht. unfold disableAltScreen. apply fine_get.
  destruct (isAltScreen t); [|now apply fine_ret].
  destruct (altScreenBuffer t) as [saved|] eqn:Hs; [|now apply fine_ret].
  split; [reflexivity|].
  cbn [stateAfter bind modify snd]. wf_fields. rewrite Hs in Ht. wf_leaf.
Qed.

Lemma reset_fine (t : VirtualTerminal) : wellFormed t -> fine reset t.
Proof.
  intro Ht. split; [reflexivity|]. cbn [stateAfter reset bind modify snd].
  pose proof (emptyBuffer_whole (Some (currentAttr t)) (cols t) (rows t)) as He.
  unfold createEmptyBuffer. wf_leaf.
Qed.

Lemma setMode_fine (params : list nat) (i : JsString) (t : VirtualTerminal) :
  wellFormed t -> fine (setMode params i) t.
Proof.
  intro Ht. unfold setMode. apply fine_forEach; [|exact Ht]. intros p u Hu.
  destruct (isPrivate i); [|now apply fine_ret].
  destruct (p =? 25); [apply fine_modify; wf_leaf|].
  destruct (p =? 1049); [now apply enableAltScreen_fine | now apply fine_ret].
Qed.

Lemma resetMode_fine (params : list nat) (i : JsString) (t : VirtualTerminal) :
  wellFormed t -> fine (resetMode params i) t.
Proof.
  intro Ht. unfold resetMode. apply fine_forEach; [|exact Ht]. intros p u Hu.
  destruct (isPrivate i); [|now apply fine_ret].
  destruct (p =? 25); [apply fine_modify; wf_leaf|].
  destruct (p =? 1049); [now apply disableAltScreen_fine | now apply fine_ret].
Qed.

Lemma setGraphicRendition_fine (params : list nat) (t : VirtualTerminal) :
  wellFormed t -> fine (setGraphicRendition params) t.
Proof.
  intro Ht. unfold setGraphicRendition. apply fine_forEach; [|exact Ht].
  intros p u Hu. apply fine_modify. wf_leaf.
Qed.

Lemma eraseInDisplay_fine (mode : nat) (t : VirtualTerminal) :
  wellFormed t -> fine (eraseInDisplay mode) t.
Proof.
  intro Ht. unfold eraseInDisplay. destruct mode as [|[|[|mode]]].
  - apply paints_fine; [exact Ht | now apply eraseBelow_paints].
  - apply paints_fine; [exact Ht | now apply eraseAbove_paints].
  - now apply clearScreen_fine.
  - now apply fine_ret.
Qed.

Lemma fine_held (m : M unit) (t : VirtualTerminal) : fine m t -> held m t.
Proof. intros [Hc Hw]. split; [exact Hc | intros _; exact Hw]. Qed.

Lemma setScrollRegion_held (top bottom : nat) (t : VirtualTerminal) :
  wellFormed t -> held (setScrollRegion top bottom) t.
Proof.
  intro Ht. split; [reflexivity|]. cbn [stateAfter setScrollRegion modify snd].
  intro Hi. wf_leaf.
Qed.

Lemma handleNormalChar_fine (c : CodeUnit) (t : VirtualTerminal) :
  wellFormed t -> fine (handleNormalChar c) t.
Proof.
  intro Ht. unfold handleNormalChar.
  repeat match goal with
         | |- fine (if ?b then _ else _) _ => destruct b
         end;
    auto using moveCursorLeft_fine, tab_fine, lineFeed_fine, carriageReturn_fine,
      printChar_fine, fine_ret.
  apply fine_modify. wf_leaf.
Qed.

Lemma setParseMode_fine (m : ParseState.Mode) (t : VirtualTerminal) :
  wellFormed t -> fine (setParseMode m) t.
Proof. intro Ht. apply fine_modify. wf_leaf. Qed.

Lemma handleEscapeChar_fine (c : CodeUnit) (t : VirtualTerminal) :
  wellFormed t -> fine (handleEscapeChar c) t.
Proof.
  intro Ht. unfold handleEscapeChar, index, nextLine.
  repeat match goal with
         | |- fine (if ?b then _ else _) _ => destruct b
         end;
    try (apply fine_seq; [|intro; now apply setParseMode_fine]);
    auto using setParseMode_fine, lineFeed_fine, reverseIndex_fine, saveCursor_fine,
      restoreCursor_fine, reset_fine.
Qed.

Lemma handleCSISequence_held (c : CodeUnit) (ps : list nat) (i : JsString)
    (t : VirtualTerminal) :
  wellFormed t -> held (handleCSISequence c ps i) t.
Proof.
  intro Ht. unfold handleCSISequence.
  repeat match goal with
         | |- held (if ?b then _ else _) _ => destruct b
         end;
    try solve [ apply fine_held;
                auto using moveCursorUp_fine, moveCursorDown_fine, moveCursorRight_fine,
                  moveCursorLeft_fine, setCursorPosition_fine, eraseInDisplay_fine,
                  setGraphicRendition_fine, setMode_fine, resetMode_fine,
                  saveCursor_fine, restoreCursor_fine, fine_ret
              | apply fine_held, paints_fine;
                auto using eraseInLine_paints, insertLines_paints, deleteLines_paints,
                  deleteCharacters_paints, scrollUp_paints, scrollDown_paints
              | apply fine_held, fine_get; now apply setCursorPosition_fine ].
  now apply setScrollRegion_held.
Qed.

Lemma handleCSIChar_held (c : CodeUnit) (t : VirtualTerminal) :
  wellFormed t -> held (handleCSIChar c) t.
Proof.
  intro Ht. unfold handleCSIChar.
  destruct (isDigit c); [apply fine_held, fine_modify; wf_leaf|].
  destruct (isChar c ";").
  { apply fine_held. split; [reflexivity|].
    cbn [stateAfter bind pushParam modify snd]. wf_leaf. }
  destruct ((32 <=? c) && (c <=? 47)); [apply fine_held, fine_modify; wf_leaf|].
  destruct (isChar c "?"); [apply fine_held, fine_modify; wf_leaf|].
  unfold held. rewrite completionOf_bind, stateAfter_bind.
  cbn [completionOf stateAfter get fst snd].
  rewrite completionOf_bind, stateAfter_bind.
  set (b := negb (length (ParseState.current (parseState t)) =? 0)).
  assert (Hw : fine (when b pushParam) t).
  { destruct b; cbn [when]; [apply fine_modify; wf_leaf | now apply fine_ret]. }
  destruct Hw as [-> Hw]. set (t1 := stateAfter (when b pushParam) t) in *.
  rewrite completionOf_bind, stateAfter_bind.
  cbn [completionOf stateAfter get fst snd].
  rewrite completionOf_bind, stateAfter_bind.
  destruct (handleCSISequence_held c (ParseState.params (parseState t1))
              (ParseState.intermediate (parseState t1)) t1 Hw) as [Hc Hh].
  fold (completionOf (handleCSISequence c (ParseState.params (parseState t1))
                        (ParseState.intermediate (parseState t1))) t1).
  fold (stateAfter (handleCSISequence c (ParseState.params (parseState t1))
                        (ParseState.intermediate (parseState t1))) t1).
  rewrite Hc. split; [reflexivity|].
  cbn [stateAfter setParseMode modify snd]. intro Hi.
  apply wellFormed_parseState, Hh. exact Hi.
Qed.

Lemma handleOSCChar_fine (c : CodeUnit) (t : VirtualTerminal) :
  wellFormed t -> fine (handleOSCChar c) t.
Proof.
  intro Ht. unfold handleOSCChar.
  destruct ((c =? 7) || isChar c "\"); cbn [when];
    [now apply setParseMode_fine | now apply fine_ret].
Qed.

Lemma processChar_held (c : CodeUnit) (t : VirtualTerminal) :
  wellFormed t -> held (processChar c) t.
Proof.
  intro Ht. unfold processChar.
  change (held (match ParseState.state (parseState t) with
                | ParseState.normal => handleNormalChar c
                | ParseState.escape => handleEscapeChar c
                | ParseState.csi => handleCSIChar c
                | ParseState.osc => handleOSCChar c
                end) t).
  destruct (ParseState.state (parseState t)).
  - now apply fine_held, handleNormalChar_fine.
  - now apply fine_held, handleEscapeChar_fine.
  - now apply handleCSIChar_held.
  - now apply fine_held, handleOSCChar_fine.
Qed.

Lemma processChars_fine (data : JsString) (t : VirtualTerminal) :
  wellFormed t -> Forall topInside (charStates data t) ->
  fine (processChars data) t.
Proof.
  unfold processChars. revert t.
  induction data as [|c rest IH]; intros t Ht Hi; [now apply fine_ret|].
  cbn [forEach charStates] in *.
  destruct (processChar_held c t Ht) as [Hc Hh].
  unfold fine. rewrite completionOf_bind, stateAfter_bind, Hc.
  assert (E : processChar c t = (Normal tt, stateAfter (processChar c) t)).
  { unfold completionOf, stateAfter in *.
    destruct (processChar c t) as [[[]|e] t1]; cbn [fst snd] in *;
      [reflexivity | discriminate]. }
  rewrite E in Hi. inversion Hi; subst. apply IH; [now apply Hh | assumption].
Qed.

Lemma write_fine behaviour (now : nat) (data : JsString) (t : VirtualTerminal) :
  wellFormed t ->
  Forall topInside (visitedBy behaviour (Write now data) t) ->
  completion (write behaviour now data t) = Normal tt /\
  wellFormed (after (write behaviour now data t)).
Proof.
  intros Ht Hi. cbn [visitedBy] in Hi. unfold write. rewrite toString_run.
  pose proof (render_whole _ _ _ (proj1 (proj2 Ht))) as Hb.
  destruct (render (buffer t)) as [before|]; [|contradiction].
  destruct (processChars_fine data t Ht Hi) as [Hc Hw].
  unfold completionOf, stateAfter in Hc, Hw.
  destruct (processChars data t) as [[u|e] t1]; cbn [fst snd] in *; [|discriminate].
  rewrite toString_run.
  pose proof (render_whole _ _ _ (proj1 (proj2 Hw))) as Ha.
  destruct (render (buffer t1)) as [after'|]; [|contradiction].
  destruct (list_eq_dec Nat.eq_dec before after'); cbn [completion after].
  - split; [reflexivity | exact Hw].
  - split; [reflexivity | now apply wellFormed_counted].
Qed.

Lemma new_wellFormed (ncols nrows : nat) :
  1 <= ncols -> 1 <= nrows -> wellFormed (new ncols nrows).
Proof.
  intros Hc Hr. pose proof (emptyBuffer_whole None ncols nrows) as He.
  unfold new. wf_leaf.
Qed.


(** ** Change events *)





(** * The rest of the class *)

(** ** Methods that always return *)

Lemma returns_ret {A} (a : A) : returns (ret a).
Proof. intro t. now exists a. Qed.

Lemma returns_get : returns get.
Proof. intro t. now exists t. Qed.

Lemma returns_modify (f : VirtualTerminal -> VirtualTerminal) : returns (modify f).
Proof. intro t. now exists tt. Qed.

Lemma returns_bind {A B} (m : M A) (k : A -> M B) :
  returns m -> (forall a, returns (k a)) -> returns (bind m k).
Proof.
  intros Hm Hk t. destruct (Hm t) as [a Ha].
  rewrite completionOf_bind, Ha. apply Hk.
Qed.

Lemma returns_forEach (l : list nat) (body : nat -> M unit) :
  (forall i, returns (body i)) -> returns (forEach l body).
Proof.
  intro H; induction l as [|i l IH]; cbn [forEach].
  - apply returns_ret.
  - apply returns_bind; [apply H | intros _; exact IH].
Qed.

Lemma returns_when (b : bool) (m : M unit) : returns m -> returns (when b m).
Proof. intro H; destruct b; [exact H | apply returns_ret]. Qed.

Lemma returns_unit (m : M unit) (t : VirtualTerminal) :
  returns m -> completionOf m t = Normal tt.
Proof. intro H. destruct (H t) as [[] Ha]. exact Ha. Qed.

Ltac returns_walk :=
  repeat lazymatch goal with
  | |- returns (bind _ _) => apply returns_bind; [ | intro ]
  | |- returns (ret _) => apply returns_ret
  | |- returns get => apply returns_get
  | |- returns (forEach _ _) => apply returns_forEach; intro
  | |- returns (when _ _) => apply returns_when
  | |- returns (modify _) => apply returns_modify
  | |- returns (if ?b then _ else _) => destruct b
  | |- returns (match ?o with _ => _ end) => destruct o
  | |- returns ?m => let h := head_of m in unfold h
  end.

Lemma sameScreen_refl t : sameScreen t t.
Proof. repeat split. Qed.

Lemma sameScreen_trans t1 t2 t3 :
  sameScreen t1 t2 -> sameScreen t2 t3 -> sameScreen t1 t3.
Proof. unfold sameScreen; intuition congruence. Qed.

Ltac screen_frame :=
  frame_with sameScreen_refl sameScreen_trans ltac:(repeat split).

(** [m] returns on every terminal and leaves the screen alone. *)
Ltac still := split; [returns_walk | screen_frame].

Lemma handleNormalChar_still (c : CodeUnit) :
  mayPaint ParseState.normal c = false ->
  returns (handleNormalChar c) /\ preserves sameScreen (handleNormalChar c).
Proof.
  cbn [mayPaint]. intro H. apply orb_false_elim in H. destruct H as [H10 H32].
  unfold handleNormalChar. rewrite H10, H32. cbn [orb].
  destruct (c =? 27); [still|]. destruct (c =? 8); [still|].
  destruct (c =? 9); [still|]. destruct (c =? 13); [still|].
  destruct (c =? 7); still.
Qed.

Lemma handleEscapeChar_still (c : CodeUnit) :
  mayPaint ParseState.escape c = false ->
  returns (handleEscapeChar c) /\ preserves sameScreen (handleEscapeChar c).
Proof.
  cbn [mayPaint]. intro H.
  repeat (apply orb_false_elim in H; destruct H as [H ?]).
  unfold handleEscapeChar.
  repeat match goal with E : isChar c _ = false |- _ => rewrite E; clear E end.
  destruct (isChar c "["); [still|]. destruct (isChar c "]"); [still|].
  destruct (isChar c "7"); [still|]. destruct (isChar c "8"); still.
Qed.

Lemma handleCSISequence_still (c : CodeUnit) (ps : list nat) (i : JsString) :
  mayPaint ParseState.csi c = false ->
  returns (handleCSISequence c ps i) /\ preserves sameScreen (handleCSISequence c ps i).
Proof.
  cbn [mayPaint]. intro H.
  repeat (apply orb_false_elim in H; destruct H as [H ?]).
  unfold handleCSISequence.
  repeat match goal with E : isChar c _ = false |- _ => rewrite E; clear E end.
  repeat match goal with
         | |- context [if ?b then _ else _] => destruct b; [still|]
         end.
  still.
Qed.

(** ** The parse mode *)

Lemma sameParse_refl t : sameParse t t.
Proof. reflexivity. Qed.

Lemma sameParse_trans t1 t2 t3 : sameParse t1 t2 -> sameParse t2 t3 -> sameParse t1 t3.
Proof. unfold sameParse; congruence. Qed.

Ltac parse_frame := frame_with sameParse_refl sameParse_trans ltac:(reflexivity).

Lemma methods_sameParse (c : CodeUnit) (ps : list nat) (i : JsString) :
  preserves sameParse (handleCSISequence c ps i) /\
  preserves sameParse lineFeed /\ preserves sameParse reverseIndex /\
  preserves sameParse nextLine /\ preserves sameParse (printChar c) /\
  preserves sameParse reset.
Proof. repeat split; parse_frame. Qed.

(** A method followed by [this.parseState.state = m']. *)
Lemma then_mode (m : M unit) (m' : ParseState.Mode) (t : VirtualTerminal) :
  preserves sameParse m ->
  mode (stateAfter (m ;; setParseMode m') t)
  = match completionOf (m ;; setParseMode m') t with
    | Normal _ => m'
    | Throw _ => mode t
    end.
Proof.
  intro H. specialize (H t). unfold sameParse in H.
  rewrite stateAfter_bind, completionOf_bind.
  destruct (completionOf m t).
  - reflexivity.
  - unfold mode. now rewrite H.
Qed.

Lemma plain_mode (m : M unit) (t : VirtualTerminal) :
  preserves sameParse m ->
  mode (stateAfter m t)
  = match completionOf m t with
    | Normal _ => mode t
    | Throw _ => mode t
    end.
Proof.
  intro H. specialize (H t). unfold sameParse in H. unfold mode. rewrite H.
  now destruct (completionOf m t).
Qed.

Lemma processChar_mode (c : CodeUnit) (t : VirtualTerminal) :
  mode (stateAfter (processChar c) t)
  = match completionOf (processChar c) t with
    | Normal _ => nextMode (mode t) c
    | Throw _ => mode t
    end.
Proof.
  destruct (methods_sameParse c [] []) as (_ & Hlf & Hri & Hnl & Hpc & Hrs).
  unfold processChar. rewrite stateAfter_bind, completionOf_bind.
  cbn [completionOf stateAfter get fst snd].
  destruct (ParseState.state (parseState t)) eqn:Em;
    unfold nextMode; fold (mode t) in Em; rewrite ?Em.
  - unfold handleNormalChar.
    destruct (c =? 27); [reflexivity|].
    rewrite <- Em.
    repeat match goal with
           | |- context [if ?b then _ else _] => destruct b; [apply plain_mode; parse_frame|]
           end.
    apply plain_mode; parse_frame.
  - unfold handleEscapeChar.
    destruct (isChar c "["); [reflexivity|].
    destruct (isChar c "]"); [reflexivity|].
    rewrite <- Em.
    repeat match goal with
           | |- context [if ?b then _ else _] => destruct b; [apply then_mode; parse_frame|]
           end.
    reflexivity.
  - unfold handleCSIChar.
    destruct (isDigit c); [cbn [orb]; unfold mode in *; cbn; exact Em|].
    destruct (isChar c ";"); [cbn [orb]; unfold mode in *; cbn; exact Em|].
    destruct ((32 <=? c) && (c <=? 47)); [cbn [orb]; unfold mode in *; cbn; exact Em|].
    destruct (isChar c "?"); [cbn [orb]; unfold mode in *; cbn; exact Em|].
    cbn [orb]. rewrite stateAfter_bind, completionOf_bind.
    cbn [completionOf stateAfter get fst snd].
    rewrite stateAfter_bind, completionOf_bind.
    set (b := negb (length (ParseState.current (parseState t)) =? 0)).
    assert (Hw : completionOf (when b pushParam) t = Normal tt /\
                 mode (stateAfter (when b pushParam) t) = ParseState.csi).
    { destruct b; cbn; split; try reflexivity; exact Em. }
    destruct Hw as [-> Hw]. set (t1 := stateAfter (when b pushParam) t) in *.
    rewrite stateAfter_bind, completionOf_bind.
    cbn [completionOf stateAfter get fst snd]. rewrite <- Hw.
    apply then_mode. apply (methods_sameParse c).
  - unfold handleOSCChar.
    destruct ((c =? 7) || isChar c "\"); cbn; [reflexivity | exact Em].
Qed.

Lemma processChars_mode (data : JsString) (t : VirtualTerminal) :
  mode (stateAfter (processChars data) t) = modeAfter (mode t) (consumed data t) /\
  (completionOf (processChars data) t = Normal tt -> consumed data t = data).
Proof.
  unfold processChars, modeAfter. revert t.
  induction data as [|c rest IH]; intro t; [split; reflexivity|].
  cbn [forEach consumed]. rewrite stateAfter_bind, completionOf_bind.
  pose proof (processChar_mode c t) as Hm.
  unfold stateAfter, completionOf in *.
  destruct (processChar c t) as [[u|e] t1]; cbn [fst snd fold_left] in *.
  - destruct (IH t1) as [H1 H2]. rewrite H1, Hm. split; [reflexivity|].
    intro Hc. now rewrite (H2 Hc).
  - split; [exact Hm | discriminate].
Qed.

(** ** Characters that leave the screen alone *)

Lemma sameScreen_parse (t : VirtualTerminal) (p : ParseState.t) :
  sameScreen t (set_parseState p t).
Proof. repeat split. Qed.

Lemma processChar_still (c : CodeUnit) (t : VirtualTerminal) :
  mayPaint (mode t) c = false ->
  completionOf (processChar c) t = Normal tt /\
  sameScreen t (stateAfter (processChar c) t).
Proof.
  intro H. unfold processChar. rewrite stateAfter_bind, completionOf_bind.
  cbn [completionOf stateAfter get fst snd]. unfold mode in H.
  destruct (ParseState.state (parseState t)).
  - destruct (handleNormalChar_still c H) as [Hr Hs].
    split; [now apply returns_unit | apply Hs].
  - destruct (handleEscapeChar_still c H) as [Hr Hs].
    split; [now apply returns_unit | apply Hs].
  - unfold handleCSIChar.
    destruct (isDigit c); [split; [reflexivity | apply sameScreen_parse]|].
    destruct (isChar c ";"); [split; [reflexivity | repeat split]|].
    destruct ((32 <=? c) && (c <=? 47)); [split; [reflexivity | apply sameScreen_parse]|].
    destruct (isChar c "?"); [split; [reflexivity | apply sameScreen_parse]|].
    assert (Hret : returns (t0 <- get ;;
                     when (negb (length (ParseState.current (parseState t0)) =? 0))
                          pushParam ;;
                     t1 <- get ;;
                     handleCSISequence c (ParseState.params (parseState t1))
                       (ParseState.intermediate (parseState t1)) ;;
                     setParseMode ParseState.normal)).
    { apply returns_bind; [apply returns_get | intro t0].
      apply returns_bind; [apply returns_when; returns_walk | intros _].
      apply returns_bind; [apply returns_get | intro t1].
      apply returns_bind; [apply (handleCSISequence_still c _ _ H) | intros _].
      returns_walk. }
    split; [now apply returns_unit|].
    apply (preserves_bind _ sameScreen_trans); [apply (preserves_get _ sameScreen_refl) | intro t0].
    apply (preserves_bind _ sameScreen_trans);
      [apply (preserves_when _ sameScreen_refl); screen_frame | intros _].
    apply (preserves_bind _ sameScreen_trans); [apply (preserves_get _ sameScreen_refl) | intro t1].
    apply (preserves_bind _ sameScreen_trans);
      [apply (handleCSISequence_still c _ _ H) | intros _].
    screen_frame.
  - split; [apply returns_unit; returns_walk|].
    assert (Hs : preserves sameScreen (handleOSCChar c)) by screen_frame.
    apply Hs.
Qed.

Lemma processChars_still (data : JsString) (t : VirtualTerminal) :
  paintFree (mode t) data = true ->
  completionOf (processChars data) t = Normal tt /\
  sameScreen t (stateAfter (processChars data) t).
Proof.
  unfold processChars. revert t.
  induction data as [|c rest IH]; intros t H.
  - split; [reflexivity | apply sameScreen_refl].
  - cbn [paintFree] in H. apply andb_prop in H. destruct H as [Hc Hr].
    apply negb_true_iff in Hc.
    destruct (processChar_still c t Hc) as [Hn Hs].
    pose proof (processChar_mode c t) as Hm. rewrite Hn in Hm.
    cbn [forEach]. rewrite stateAfter_bind, completionOf_bind, Hn.
    rewrite <- Hm in Hr. destruct (IH _ Hr) as [Hn' Hs'].
    split; [exact Hn' | eapply sameScreen_trans; eassumption].
Qed.

Lemma run_pair {A} (m : M A) (t : VirtualTerminal) :
  m t = (completionOf m t, stateAfter m t).
Proof. unfold completionOf, stateAfter. now destruct (m t). Qed.

(** A [write] whose characters left the buffer as it was. *)
Lemma write_same_text behaviour (now : nat) (data : JsString) (t : VirtualTerminal) :
  render (buffer t) <> None ->
  completionOf (processChars data) t = Normal tt ->
  buffer (stateAfter (processChars data) t) = buffer t ->
  write behaviour now data t
  = mkOutcome (Normal tt) (stateAfter (processChars data) t) None [].
Proof.
  intros Hr Hc Hb. unfold write. rewrite toString_run.
  destruct (render (buffer t)) as [w|] eqn:E; [|contradiction].
  rewrite (run_pair (processChars data) t), Hc, toString_run, Hb, E.
  destruct (list_eq_dec Nat.eq_dec w w); [reflexivity | contradiction].
Qed.

(** X1.  A chunk none of whose characters reaches a method that
    assigns to the buffer (cursor movement, cursor save and restore,
    tabs, carriage returns, SGR attributes, the scroll-region setting,
    OSC strings, ignored control codes) makes [write] return without
    an event: the buffer, the alternate-screen state, the frame
    counter and the unread-change flag are as they were, no listener
    is invoked, and the parser ends in the mode the automaton
    [nextMode] gives. *)
Theorem write_without_painting_fires_nothing :
  forall behaviour now data t,
    paintFree (mode t) data = true ->
    render (buffer t) <> None ->
    completion (write behaviour now data t) = Normal tt /\
    fired (write behaviour now data t) = None /\
    effects (write behaviour now data t) = [] /\
    buffer (after (write behaviour now data t)) = buffer t /\
    isAltScreen (after (write behaviour now data t)) = isAltScreen t /\
    altScreenBuffer (after (write behaviour now data t)) = altScreenBuffer t /\
    frameCounter (after (write behaviour now data t)) = frameCounter t /\
    hasChangedSinceLastCheck (after (write behaviour now data t))
    = hasChangedSinceLastCheck t /\
    mode (after (write behaviour now data t)) = modeAfter (mode t) data.
Proof.
  intros behaviour now data t Hp Hr.
  destruct (processChars_still data t Hp) as [Hc (Hb & Ha & Hs)].
  destruct (processChars_mode data t) as [Hm Hall].
  destruct (processChars_sameHost data t) as (_ & _ & Hf & _ & Hh & _).
  rewrite (write_same_text behaviour now data t Hr Hc Hb). cbn [completion fired effects after].
  rewrite Hm, (Hall Hc). repeat split; assumption.
Qed.

(** The statement of X1 at work: CTRL+C, CTRL+D, CTRL+Z, a cursor
    movement, a bold attribute and a title string, written to a new
    terminal that shows "Hello". *)
Lemma write_without_painting_witness :
  fired (write quiet 1
           (controlCodes ++ ESC :: str "[2;3H" ++ ESC :: str "[1m"
            ++ ESC :: str "]0;title" ++ [7])
           (after (write quiet 0 (str "Hello") (new 20 5)))) = None.
Proof.
  apply (write_without_painting_fires_nothing quiet 1
           (controlCodes ++ ESC :: str "[2;3H" ++ ESC :: str "[1m"
            ++ ESC :: str "]0;title" ++ [7])
           (after (write quiet 0 (str "Hello") (new 20 5)))).
  - vm_compute. reflexivity.
  - vm_compute. discriminate.
Defined.

(** X2.  The parse mode is an automaton on the input: after
    [processChar] returns the mode is [nextMode] of the mode before
    and the character, whatever the screen; when a method raises, the
    mode is the one before the character, so the character is not
    consumed and an interrupted escape sequence is still open.  After
    a chunk the mode is that of the automaton run on the characters
    consumed, which are all of them when the loop returns. *)
Theorem parse_mode_follows_automaton :
  (forall c t,
      mode (stateAfter (processChar c) t)
      = match completionOf (processChar c) t with
        | Normal _ => nextMode (mode t) c
        | Throw _ => mode t
        end) /\
  (forall data t,
      mode (stateAfter (processChars data) t) = modeAfter (mode t) (consumed data t)) /\
  (forall data t,
      completionOf (processChars data) t = Normal tt -> consumed data t = data) /\
  (forall data t,
      wellFormed t -> Forall topInside (charStates data t) ->
      mode (stateAfter (processChars data) t) = modeAfter (mode t) data).
Proof.
  split; [exact processChar_mode | split; [|split]].
  - intros data t. apply processChars_mode.
  - intros data t. apply processChars_mode.
  - intros data t Hw Hi. destruct (processChars_fine data t Hw Hi) as [Hc _].
    destruct (processChars_mode data t) as [Hm Hall]. now rewrite Hm, (Hall Hc).
Qed.

(** ** Characters the parser drops *)

Lemma handleNormalChar_ignored (c : CodeUnit) :
  ignoredControl c = true -> handleNormalChar c = ret tt.
Proof.
  unfold ignoredControl. intro H. apply andb_prop in H. destruct H as [H32 H].
  apply negb_true_iff in H.
  repeat (apply orb_false_elim in H; destruct H as [H ?]).
  apply Nat.ltb_lt in H32.
  unfold handleNormalChar.
  repeat match goal with E : (c =? _) = false |- _ => rewrite E; clear E end.
  destruct (c =? 7); [reflexivity|].
  destruct (Nat.leb_spec 32 c); [lia|]. reflexivity.
Qed.

Lemma processChar_normal (c : CodeUnit) (t : VirtualTerminal) :
  mode t = ParseState.normal -> processChar c t = handleNormalChar c t.
Proof. unfold mode, processChar. intro H. rewrite bind_run. cbn [get]. now rewrite H. Qed.

Lemma processChars_ignored (data : JsString) (t : VirtualTerminal) :
  mode t = ParseState.normal ->
  Forall (fun c => ignoredControl c = true) data ->
  processChars data t = (Normal tt, t).
Proof.
  unfold processChars. intros Hm H. induction H as [|c rest Hc Hrest IH]; [reflexivity|].
  cbn [forEach]. rewrite bind_run, (processChar_normal c t Hm).
  rewrite (handleNormalChar_ignored c Hc). exact IH.
Qed.

(** X3.  In normal mode a control code other than ESC, BS, TAB, LF and
    CR (CTRL+C, CTRL+D, CTRL+Z, BEL, NUL, ...) is dropped: a chunk of
    such codes leaves the whole terminal, cursor included, exactly as
    it was, and [write] returns without an event. *)
Theorem ignored_control_codes_change_nothing :
  forall behaviour now data t,
    mode t = ParseState.normal ->
    Forall (fun c => ignoredControl c = true) data ->
    processChars data t = (Normal tt, t) /\
    (render (buffer t) <> None ->
     write behaviour now data t = mkOutcome (Normal tt) t None []).
Proof.
  intros behaviour now data t Hm Hd.
  pose proof (processChars_ignored data t Hm Hd) as Hrun.
  split; [exact Hrun|]. intro Hr.
  rewrite (write_same_text behaviour now data t Hr);
    unfold completionOf, stateAfter; now rewrite Hrun.
Qed.

(** The statement of X3 at work on CTRL+C, CTRL+D, CTRL+Z sent to a
    terminal that shows "Hello". *)
Lemma ignored_control_codes_witness :
  processChars controlCodes (after (write quiet 0 (str "Hello") (new 20 5)))
  = (Normal tt, after (write quiet 0 (str "Hello") (new 20 5))) /\
  (render (buffer (after (write quiet 0 (str "Hello") (new 20 5)))) <> None ->
   write quiet 1 controlCodes (after (write quiet 0 (str "Hello") (new 20 5)))
   = mkOutcome (Normal tt) (after (write quiet 0 (str "Hello") (new 20 5))) None []).
Proof.
  apply (ignored_control_codes_change_nothing quiet 1 controlCodes
           (after (write quiet 0 (str "Hello") (new 20 5)))).
  - vm_compute. reflexivity.
  - unfold controlCodes. repeat constructor.
Defined.

Lemma processChars_osc_body (body : JsString) (t : VirtualTerminal) :
  mode t = ParseState.osc ->
  Forall (fun c => endsOSC c = false) body ->
  processChars body t = (Normal tt, t).
Proof.
  unfold processChars. intros Hm H. induction H as [|c rest Hc Hrest IH]; [reflexivity|].
  cbn [forEach]. rewrite bind_run. unfold processChar at 1. rewrite bind_run. cbn [get].
  unfold mode in Hm. rewrite Hm. unfold handleOSCChar. unfold endsOSC in Hc.
  rewrite Hc. cbn [when ret]. exact IH.
Qed.

Lemma processChars_app (d1 d2 : JsString) (t : VirtualTerminal) :
  processChars (d1 ++ d2) t = (processChars d1 ;; processChars d2) t.
Proof. apply forEach_app. Qed.

(** X4.  An OSC string is dropped whole: from normal mode, [ESC ]],
    any characters other than BEL and the backslash (ESC and the
    control codes among them), and one closing BEL or backslash change
    nothing but the parse state, which is left normal and empty; a
    [write] of it returns without an event. *)
Theorem osc_string_is_dropped :
  forall behaviour now body closing t,
    mode t = ParseState.normal ->
    Forall (fun c => endsOSC c = false) body ->
    endsOSC closing = true ->
    processChars (ESC :: str "]" ++ body ++ [closing]) t
    = (Normal tt, set_parseState (freshParse ParseState.normal) t) /\
    (render (buffer t) <> None ->
     write behaviour now (ESC :: str "]" ++ body ++ [closing]) t
     = mkOutcome (Normal tt) (set_parseState (freshParse ParseState.normal) t) None []).
Proof.
  intros behaviour now body closing t Hm Hb Hc.
  assert (Hrun : processChars (ESC :: str "]" ++ body ++ [closing]) t
                 = (Normal tt, set_parseState (freshParse ParseState.normal) t)).
  { change (ESC :: str "]" ++ body ++ [closing])
      with ([ESC; nat_of_ascii "]"] ++ body ++ [closing]).
    rewrite processChars_app, bind_run.
    assert (H1 : processChars [ESC; nat_of_ascii "]"] t
                 = (Normal tt, set_parseState (freshParse ParseState.osc) t)).
    { unfold processChars. cbn [forEach]. rewrite bind_run.
      rewrite (processChar_normal ESC t Hm). reflexivity. }
    rewrite H1, processChars_app, bind_run.
    rewrite (processChars_osc_body body (set_parseState (freshParse ParseState.osc) t)
               eq_refl Hb).
    unfold processChars. cbn [forEach]. rewrite bind_run.
    unfold processChar. rewrite bind_run. cbn [get set_parseState parseState
      freshParse ParseState.state]. unfold handleOSCChar. unfold endsOSC in Hc.
    rewrite Hc. reflexivity. }
  split; [exact Hrun|]. intro Hr.
  rewrite (write_same_text behaviour now _ t Hr);
    unfold completionOf, stateAfter; now rewrite Hrun.
Qed.

(** The statement of X4 at work on a window-title string closed by
    BEL. *)
Lemma osc_string_witness :
  processChars (ESC :: str "]" ++ str "0;my title" ++ [7]) (new 20 5)
  = (Normal tt, set_parseState (freshParse ParseState.normal) (new 20 5)) /\
  (render (buffer (new 20 5)) <> None ->
   write quiet 0 (ESC :: str "]" ++ str "0;my title" ++ [7]) (new 20 5)
   = mkOutcome (Normal tt) (set_parseState (freshParse ParseState.normal) (new 20 5))
       None []).
Proof.
  apply (osc_string_is_dropped quiet 0 (str "0;my title") 7 (new 20 5)).
  - reflexivity.
  - repeat constructor.
  - reflexivity.
Defined.

(** ** The listener registry *)

Lemma onScreenChange_listeners (l : ListenerId) (t : VirtualTerminal) :
  changeListeners (onScreenChange l t)
  = if existsb (Nat.eqb l) (changeListeners t) then changeListeners t
    else changeListeners t ++ [l].
Proof. unfold onScreenChange. now destruct (existsb _ _). Qed.

Lemma existsb_eqb_In (l : ListenerId) (ls : list ListenerId) :
  existsb (Nat.eqb l) ls = true <-> In l ls.
Proof.
  rewrite existsb_exists. split.
  - intros (x & Hin & Heq). apply Nat.eqb_eq in Heq. now subst.
  - intro Hin. exists l. split; [exact Hin | apply Nat.eqb_refl].
Qed.

Lemma onScreenChange_NoDup (l : ListenerId) (t : VirtualTerminal) :
  NoDup (changeListeners t) -> NoDup (changeListeners (onScreenChange l t)).
Proof.
  intro H. rewrite onScreenChange_listeners.
  destruct (existsb (Nat.eqb l) (changeListeners t)) eqn:E; [exact H|].
  apply NoDup_app; [exact H | repeat constructor; intros [] |].
  intros x Hx [Hl|[]]. subst x.
  apply existsb_eqb_In in Hx. congruence.
Qed.

Lemma offScreenChange_NoDup (l : ListenerId) (t : VirtualTerminal) :
  NoDup (changeListeners t) -> NoDup (changeListeners (offScreenChange l t)).
Proof. intro H. cbn. now apply NoDup_filter. Qed.

Lemma filter_absent (l : nat) (ls : list nat) :
  ~ In l ls -> filter (fun l' : nat => negb (l =? l')) ls = ls.
Proof.
  induction ls as [|x ls IH]; intro H; [reflexivity|].
  cbn [filter]. destruct (Nat.eqb_spec l x) as [->|N].
  - exfalso. apply H. now left.
  - cbn [negb]. rewrite IH; [reflexivity|]. intro Hin. apply H. now right.
Qed.

Lemma set_changeListeners_same (t : VirtualTerminal) :
  set_changeListeners (changeListeners t) t = t.
Proof. now destruct t. Qed.

Lemma perform_NoDup behaviour (c : Call) (t : VirtualTerminal) :
  NoDup (changeListeners t) -> NoDup (changeListeners (after (perform behaviour c t))).
Proof.
  intro H. destruct c as [now data|newCols newRows| |l|l| |]; cbn [perform after].
  - destruct (write_ignores_raises behaviour now data t) as (_ & -> & _).
    pose proof (processChars_sameHost data t) as Hh. unfold stateAfter in Hh.
    unfold write. rewrite toString_run.
    destruct (render (buffer t)); [|exact H].
    destruct (processChars data t) as [[u|e] t1]; cbn [snd] in Hh;
      destruct Hh as (_ & _ & _ & Hl & _); [|cbn; now rewrite Hl].
    rewrite toString_run. destruct (render (buffer t1)); [|cbn; now rewrite Hl].
    destruct (list_eq_dec Nat.eq_dec j j0); cbn; now rewrite Hl.
  - destruct (silent_after (resize newCols newRows t)) as (-> & _).
    pose proof (proj2 (resize_sameFrame newCols newRows t)) as Hl.
    unfold stateAfter in Hl. now rewrite Hl.
  - destruct (silent_after (reset t)) as (-> & _).
    pose proof (proj2 (reset_sameFrame t)) as Hl.
    unfold stateAfter in Hl. now rewrite Hl.
  - now apply onScreenChange_NoDup.
  - now apply offScreenChange_NoDup.
  - exact H.
  - destruct (silent_after (markAsRead t)) as (-> & _).
    pose proof (proj2 (markAsRead_sameFrame t)) as Hl.
    unfold stateAfter in Hl. now rewrite Hl.
Qed.

Lemma finalState_NoDup behaviour (calls : list Call) (t : VirtualTerminal) :
  NoDup (changeListeners t) -> NoDup (changeListeners (finalState behaviour calls t)).
Proof.
  revert t; induction calls as [|c rest IH]; intros t H; [exact H|].
  cbn [finalState]. apply IH. now apply perform_NoDup.
Qed.

(** X5.  The listener registry behaves as a set kept in subscription
    order.  Subscribing makes the callback a member and is idempotent;
    unsubscribing removes it and nothing else, and is a no-op for a
    callback that is not subscribed; subscribing a new callback and
    unsubscribing it gives back the terminal as it was; no sequence of
    public calls on a new terminal registers a callback twice; and a
    callback that was unsubscribed is not invoked by a later [write]. *)
Theorem listener_registry_is_a_set :
  (forall l t, In l (changeListeners (onScreenChange l t))) /\
  (forall l t, onScreenChange l (onScreenChange l t) = onScreenChange l t) /\
  (forall l t, ~ In l (changeListeners (offScreenChange l t))) /\
  (forall l l' t, l <> l' ->
     (In l' (changeListeners (offScreenChange l t)) <-> In l' (changeListeners t)) /\
     (In l' (changeListeners (onScreenChange l t)) <-> In l' (changeListeners t))) /\
  (forall l t, ~ In l (changeListeners t) ->
     offScreenChange l t = t /\ offScreenChange l (onScreenChange l t) = t) /\
  (forall behaviour calls ncols nrows,
     NoDup (changeListeners (finalState behaviour calls (new ncols nrows)))) /\
  (forall behaviour l now data t d,
     ~ In (l, d) (invocations (effects (write behaviour now data (offScreenChange l t))))).
Proof.
  assert (Hoff : forall l t, ~ In l (changeListeners (offScreenChange l t))).
  { intros l t H. cbn in H. apply filter_In in H. destruct H as [_ H].
    now rewrite Nat.eqb_refl in H. }
  split; [|split; [|split; [|split; [|split; [|split]]]]].
  - intros l t. rewrite onScreenChange_listeners.
    destruct (existsb (Nat.eqb l) (changeListeners t)) eqn:E.
    + now apply existsb_eqb_In.
    + apply in_or_app. right. now left.
  - intros l t. unfold onScreenChange at 1.
    replace (existsb (Nat.eqb l) (changeListeners (onScreenChange l t))) with true;
      [reflexivity|].
    symmetry. apply existsb_eqb_In. rewrite onScreenChange_listeners.
    destruct (existsb (Nat.eqb l) (changeListeners t)) eqn:E.
    + now apply existsb_eqb_In.
    + apply in_or_app. right. now left.
  - exact Hoff.
  - intros l l' t N. split.
    + cbn. rewrite filter_In. split; [now intros [H _]|].
      intro H. split; [exact H|]. destruct (Nat.eqb_spec l l'); [contradiction | reflexivity].
    + rewrite onScreenChange_listeners.
      destruct (existsb (Nat.eqb l) (changeListeners t)); [reflexivity|].
      rewrite in_app_iff. split; [|now left].
      intros [H|[H|[]]]; [exact H | contradiction].
  - intros l t H.
    assert (H1 : offScreenChange l t = t).
    { unfold offScreenChange.
      assert (Hf : filter (fun l0 => negb (l =? l0)) (changeListeners t)
                   = changeListeners t) by (apply filter_absent; exact H).
      rewrite Hf. apply set_changeListeners_same. }
    split; [exact H1|].
    unfold onScreenChange.
    destruct (existsb (Nat.eqb l) (changeListeners t)) eqn:E; [exact H1|].
    unfold offScreenChange. cbn [changeListeners set_changeListeners].
    assert (Hf : filter (fun l0 => negb (l =? l0)) (changeListeners t)
                 = changeListeners t) by (apply filter_absent; exact H).
    rewrite filter_app. unfold ListenerId in *. rewrite Hf. cbn [filter].
    rewrite Nat.eqb_refl. cbn [negb]. rewrite app_nil_r.
    now destruct t.
  - intros behaviour calls ncols nrows. apply finalState_NoDup. constructor.
  - intros behaviour l now data t d H.
    destruct (write_ignores_raises behaviour now data (offScreenChange l t))
      as (_ & _ & _ & He).
    rewrite He in H. destruct (fired _); [|exact H].
    rewrite invocations_notify in H. apply in_map_iff in H.
    destruct H as (x & Hx & Hin). inversion Hx; subst. now apply (Hoff l t).
Qed.

(** ** The unread-change flag *)

Lemma write_flag behaviour (now : nat) (data : JsString) (t : VirtualTerminal) :
  hasChangedSinceLastCheck (after (write behaviour now data t))
  = hasChangedSinceLastCheck t || someFired [write behaviour now data t].
Proof.
  pose proof (processChars_sameHost data t) as Hh. unfold stateAfter in Hh.
  unfold someFired, write. rewrite toString_run.
  destruct (render (buffer t)); [|cbn; now rewrite orb_false_r].
  destruct (processChars data t) as [[u|e] t1]; cbn [snd] in Hh;
    destruct Hh as (_ & _ & _ & _ & Hf & _); [|cbn; now rewrite Hf, orb_false_r].
  rewrite toString_run.
  destruct (render (buffer t1)); [|cbn; now rewrite Hf, orb_false_r].
  destruct (list_eq_dec Nat.eq_dec j j0); cbn; [now rewrite Hf, orb_false_r|].
  now rewrite orb_true_r.
Qed.

Lemma sameFlag_resize_reset (newCols newRows : nat) (t : VirtualTerminal) :
  hasChangedSinceLastCheck (stateAfter (resize newCols newRows) t)
  = hasChangedSinceLastCheck t /\
  hasChangedSinceLastCheck (stateAfter reset t) = hasChangedSinceLastCheck t.
Proof.
  split.
  - assert (H : preserves (fun t t' => hasChangedSinceLastCheck t'
                                       = hasChangedSinceLastCheck t)
                          (resize newCols newRows)).
    { frame_with (fun t : VirtualTerminal => eq_refl (hasChangedSinceLastCheck t))
                 (fun (t1 t2 t3 : VirtualTerminal)
                      (H1 : hasChangedSinceLastCheck t2 = hasChangedSinceLastCheck t1)
                      (H2 : hasChangedSinceLastCheck t3 = hasChangedSinceLastCheck t2) =>
                    eq_trans H2 H1)
                 ltac:(reflexivity). }
    apply H.
  - reflexivity.
Qed.

Lemma perform_flag behaviour (c : Call) (t : VirtualTerminal) :
  polls c = false ->
  hasChangedSinceLastCheck (after (perform behaviour c t))
  = hasChangedSinceLastCheck t || someFired [perform behaviour c t].
Proof.
  intro Hp. destruct c as [now data|newCols newRows| |l|l| |];
    try discriminate; cbn [perform].
  - apply write_flag.
  - unfold someFired. cbn [existsb].
    destruct (silent_after (resize newCols newRows t)) as (-> & -> & _).
    rewrite orb_false_r. apply (sameFlag_resize_reset newCols newRows t).
  - unfold someFired. cbn [existsb].
    destruct (silent_after (reset t)) as (-> & -> & _).
    now rewrite orb_false_r.
  - cbn. unfold onScreenChange. destruct (existsb _ _); cbn; now rewrite orb_false_r.
  - cbn. now rewrite orb_false_r.
Qed.

Lemma finalState_flag behaviour (calls : list Call) (t : VirtualTerminal) :
  forallb (fun c => negb (polls c)) calls = true ->
  hasChangedSinceLastCheck (finalState behaviour calls t)
  = hasChangedSinceLastCheck t || someFired (performAll behaviour calls t).
Proof.
  revert t; induction calls as [|c rest IH]; intros t H.
  - cbn. now rewrite orb_false_r.
  - cbn [forallb] in H. apply andb_prop in H. destruct H as [Hc Hr].
    apply negb_true_iff in Hc.
    cbn [finalState performAll]. rewrite (IH _ Hr), (perform_flag behaviour c t Hc).
    unfold someFired. cbn [existsb]. now rewrite orb_false_r, orb_assoc.
Qed.

Lemma markAsRead_flag (t : VirtualTerminal) :
  hasChangedSinceLastCheck (stateAfter markAsRead t) = false.
Proof.
  unfold markAsRead. rewrite stateAfter_bind.
  cbn [completionOf stateAfter modify fst snd].
  set (t0 := set_hasChangedSinceLastCheck false t).
  rewrite stateAfter_bind. unfold getScreenHash.
  rewrite completionOf_bind, stateAfter_bind.
  unfold completionOf, stateAfter. rewrite toString_run.
  destruct (render (buffer t0)); reflexivity.
Qed.

(** X6.  [hasChangedSinceLastRead()] returns the unread-change flag
    and clears it; [markAsRead()] clears it too, also when it raises.
    After either, and after construction, the flag is set by a later
    sequence of calls that does not poll exactly when one of its
    writes fired a change event: [resize], [reset] and the
    subscription calls leave the flag alone. *)
Theorem unread_flag_tracks_fired_events :
  (forall t,
      fst (hasChangedSinceLastRead t) = hasChangedSinceLastCheck t /\
      hasChangedSinceLastCheck (snd (hasChangedSinceLastRead t)) = false /\
      hasChangedSinceLastCheck (stateAfter markAsRead t) = false) /\
  (forall behaviour c calls t,
      polls c = true ->
      forallb (fun c => negb (polls c)) calls = true ->
      hasChangedSinceLastCheck (finalState behaviour (c :: calls) t)
      = someFired (performAll behaviour calls (after (perform behaviour c t)))) /\
  (forall behaviour calls ncols nrows,
      forallb (fun c => negb (polls c)) calls = true ->
      hasChangedSinceLastCheck (finalState behaviour calls (new ncols nrows))
      = someFired (performAll behaviour calls (new ncols nrows))).
Proof.
  split; [|split].
  - intro t. split; [reflexivity | split; [reflexivity | apply markAsRead_flag]].
  - intros behaviour c calls t Hc Hcalls. cbn [finalState].
    rewrite (finalState_flag behaviour calls _ Hcalls).
    destruct c; try discriminate; cbn [perform].
    + reflexivity.
    + destruct (silent_after (markAsRead t)) as (-> & _).
      fold (stateAfter markAsRead t). now rewrite markAsRead_flag.
  - intros behaviour calls ncols nrows Hcalls.
    now rewrite (finalState_flag behaviour calls _ Hcalls).
Qed.

(** ** Lines of the screen text *)

Lemma splitLines_line (l : JsString) :
  ~ In NEWLINE l -> splitLines l = [l].
Proof.
  induction l as [|c l IH]; intro H; [reflexivity|].
  cbn [splitLines]. destruct (Nat.eqb_spec c NEWLINE) as [->|N].
  - exfalso. apply H. now left.
  - rewrite IH; [reflexivity|]. intro Hin. apply H. now right.
Qed.

Lemma splitLines_app (l rest : JsString) :
  ~ In NEWLINE l ->
  splitLines (l ++ NEWLINE :: rest) = l :: splitLines rest.
Proof.
  induction l as [|c l IH]; intro H.
  - cbn [app splitLines]. now rewrite Nat.eqb_refl.
  - cbn [app splitLines]. destruct (Nat.eqb_spec c NEWLINE) as [->|N].
    + exfalso. apply H. now left.
    + rewrite IH; [reflexivity|]. intro Hin. apply H. now right.
Qed.

Lemma splitLines_joinWith (lines : list JsString) :
  lines <> [] ->
  Forall (fun l => ~ In NEWLINE l) lines ->
  splitLines (Js.joinWith [NEWLINE] lines) = lines.
Proof.
  induction lines as [|l lines IH]; intros Hne H; [contradiction|].
  inversion H as [|? ? Hl Hrest]; subst.
  destruct lines as [|l2 lines].
  - cbn [Js.joinWith]. now apply splitLines_line.
  - change (Js.joinWith [NEWLINE] (l :: l2 :: lines))
      with (l ++ NEWLINE :: Js.joinWith [NEWLINE] (l2 :: lines)).
    rewrite splitLines_app by exact Hl. f_equal. apply IH; [discriminate | exact Hrest].
Qed.

Lemma blankLines_split (ncols nrows : nat) :
  1 <= nrows ->
  splitLines (Js.joinWith [NEWLINE] (blankLines ncols nrows)) = blankLines ncols nrows.
Proof.
  intro H. apply splitLines_joinWith.
  - unfold blankLines. destruct nrows; [lia | discriminate].
  - apply Forall_forall. intros l Hl. apply repeat_spec in Hl. subst l.
    intro Hin. apply repeat_spec in Hin. discriminate.
Qed.

Lemma rendersGrid_blank (t : VirtualTerminal) (attr : option Attr.t) :
  1 <= rows t ->
  rendersGrid (set_buffer (emptyBuffer attr (cols t) (rows t)) t) = true.
Proof.
  intro H. unfold rendersGrid. cbn [buffer set_buffer cols rows].
  rewrite render_emptyBuffer.
  change (repeat (repeat SPACE (cols t)) (rows t)) with (blankLines (cols t) (rows t)).
  rewrite blankLines_split by exact H.
  unfold blankLines. rewrite repeat_length, Nat.eqb_refl. cbn [andb].
  apply forallb_forall. intros l Hl. apply repeat_spec in Hl. subst l.
  rewrite repeat_length. apply Nat.eqb_refl.
Qed.

Lemma processChars_clearScreen (t : VirtualTerminal) :
  mode t = ParseState.normal ->
  processChars sequenceClearScreen t
  = (Normal tt,
     set_parseState (ParseState.mk ParseState.normal [2] (str "2") [])
       (stateAfter clearScreen t)).
Proof.
  intro Hm. unfold sequenceClearScreen, processChars. cbn [str map list_ascii_of_string forEach].
  rewrite bind_run, (processChar_normal ESC t Hm). reflexivity.
Qed.

(** X7.  [clearScreen()], which [CSI 2 J] and entering the alternate
    screen call, never raises and gives every terminal with at least
    one row a blank screen of the right shape, whatever state the
    buffer was in: [rows] lines of [cols] spaces carrying the current
    attributes.  It also moves the cursor to the top left corner. *)
Theorem clearScreen_gives_blank_grid :
  forall t : VirtualTerminal,
    1 <= rows t ->
    completionOf clearScreen t = Normal tt /\
    (mode t = ParseState.normal ->
     completionOf (processChars sequenceClearScreen) t = Normal tt /\
     buffer (stateAfter (processChars sequenceClearScreen) t)
     = buffer (stateAfter clearScreen t) /\
     cursor (stateAfter (processChars sequenceClearScreen) t) = Cursor.mk 0 0) /\
    buffer (stateAfter clearScreen t)
    = emptyBuffer (Some (currentAttr t)) (cols t) (rows t) /\
    cursor (stateAfter clearScreen t) = Cursor.mk 0 0 /\
    screenLines (stateAfter clearScreen t) = Some (blankLines (cols t) (rows t)) /\
    rendersGrid (stateAfter clearScreen t) = true.
Proof.
  intros t Hr. split; [reflexivity|]. split.
  { intro Hm. unfold completionOf, stateAfter at 1 3.
    rewrite (processChars_clearScreen t Hm). repeat split. }
  split; [reflexivity | split; [reflexivity | split]].
  - unfold screenLines. cbn [stateAfter clearScreen modify snd buffer set_cursor set_buffer].
    apply rowTexts_emptyBuffer.
  - exact (rendersGrid_blank (set_cursor (Cursor.mk 0 0) t) (Some (currentAttr t)) Hr).
Qed.

(** The statement of X7 at work on the 10x3 terminal whose rows are
    five cells wide. *)
Lemma clearScreen_witness :
  rendersGrid screenWithShortRows = false /\
  rendersGrid (stateAfter clearScreen screenWithShortRows) = true.
Proof.
  split; [vm_compute; reflexivity|].
  apply (clearScreen_gives_blank_grid screenWithShortRows). vm_compute. lia.
Defined.

(** ** Tidy rows *)

Lemma set_cells (P : Js.Slot Cell -> Prop) (r : Row) (x : nat) (v : Cell) :
  x <= length r -> Forall P r -> P (Js.Val v) ->
  Forall P (Js.set r x v) /\ length (Js.set r x v) = Nat.max (length r) (S x).
Proof.
  revert x; induction r as [|h r IH]; intros x Hx Hr Hv.
  - destruct x; [|cbn in Hx; lia]. cbn. split; [repeat constructor; exact Hv | reflexivity].
  - inversion Hr; subst. destruct x; cbn [Js.set length].
    + split; [now constructor | lia].
    + destruct (IH x) as [G1 G2]; [cbn in Hx; lia | assumption | assumption |].
      split; [now constructor | lia].
Qed.

Lemma tidyRow_wholeRow (n : nat) (r : Row) : tidyRow n r -> wholeRow n r.
Proof.
  intros [Hl Hr]. split; [lia|]. eapply Forall_impl; [|exact Hr].
  intros [| |c] H; try contradiction. exact I.
Qed.

Lemma tidyBuffer_wholeBuffer (n m : nat) (b : Buffer) :
  tidyBuffer n m b -> wholeBuffer n m b.
Proof.
  intros [Hl Hb]. split; [exact Hl|]. eapply Forall_impl; [|exact Hb].
  intros r. apply tidyRow_wholeRow.
Qed.

Lemma set_tidyRow (n : nat) (r : Row) (x : nat) (c : CodeUnit) (a : option Attr.t) :
  tidyRow n r -> x <= n -> 32 <= c -> tidyRow n (Js.set r x (mkCell c a)).
Proof.
  intros [Hl Hr] Hx Hc.
  destruct (set_cells printedSlot r x (mkCell c a)) as [H1 H2]; [lia | exact Hr | exact Hc |].
  split; [lia | exact H1].
Qed.

Lemma whole_map_id (r : Row) : Forall isVal r -> Js.map cloneCell r = r.
Proof.
  unfold Js.map. induction 1 as [|s r Hs Hr IH]; [reflexivity|].
  cbn [map]. rewrite IH. destruct s; try contradiction. reflexivity.
Qed.

Lemma whole_spread_id (r : Row) : Forall isVal r -> Js.spread r = r.
Proof.
  unfold Js.spread. induction 1 as [|s r Hs Hr IH]; [reflexivity|].
  cbn [map]. rewrite IH. destruct s; try contradiction. reflexivity.
Qed.

Lemma tidy_get (n : nat) (r : Row) (i : nat) :
  tidyRow n r -> i < n ->
  exists c a, Js.get r i = Some (mkCell c a) /\ 32 <= c.
Proof.
  intros [Hl Hr] Hi. unfold Js.get.
  destruct (nth_error r i) as [s|] eqn:E.
  - assert (Hs : printedSlot s)
      by (eapply Forall_forall; [exact Hr | eapply nth_error_In; exact E]).
    destruct s as [| |[|c a]]; try contradiction. now exists c, a.
  - apply nth_error_None in E. lia.
Qed.

Lemma make_tidyRow (n : nat) (a : option Attr.t) : tidyRow n (Js.make n (mkCell SPACE a)).
Proof.
  unfold Js.make. split; [rewrite repeat_length; lia|].
  apply Forall_forall. intros s Hs. apply repeat_spec in Hs. subst.
  cbn. unfold SPACE. lia.
Qed.

Lemma emptyBuffer_tidy (attr : option Attr.t) (ncols nrows : nat) :
  tidyBuffer ncols nrows (emptyBuffer attr ncols nrows).
Proof.
  unfold emptyBuffer. split; [apply repeat_length|].
  apply Forall_forall. intros r Hr. apply repeat_spec in Hr. subst.
  apply make_tidyRow.
Qed.

Lemma putRow_tidy (ncols nrows : nat) (b : Buffer) (y : nat) (r : Row) :
  tidyBuffer ncols nrows b -> y < nrows -> tidyRow ncols r ->
  tidyBuffer ncols nrows (putRow b y r).
Proof.
  intros [Hl Hb] Hy Hr. split.
  - rewrite putRow_length; [exact Hl | lia].
  - now apply Forall_putRow.
Qed.

Lemma tidy_row (ncols nrows : nat) (b : Buffer) (y : nat) :
  tidyBuffer ncols nrows b -> y < nrows ->
  exists r, nth_error b y = Some r /\ tidyRow ncols r.
Proof.
  intros [Hl Hb] Hy. destruct (nth_error b y) as [r|] eqn:E.
  - exists r. split; [reflexivity|].
    eapply Forall_forall; [exact Hb | eapply nth_error_In; exact E].
  - apply nth_error_None in E. lia.
Qed.

Lemma tidyScreen_whole (t : VirtualTerminal) : tidyScreen t -> whole t.
Proof. apply tidyBuffer_wholeBuffer. Qed.

(** ** Methods that keep the rows tidy *)

Lemma repaints_ret (t : VirtualTerminal) : tidyScreen t -> repaints (ret tt) t.
Proof. intro H. split; [reflexivity | split; [apply sameCursors_refl | exact H]]. Qed.

Lemma repaints_seq (m k : M unit) (t : VirtualTerminal) :
  repaints m t ->
  (sameCursors t (stateAfter m t) -> tidyScreen (stateAfter m t) ->
   repaints k (stateAfter m t)) ->
  repaints (m ;; k) t.
Proof.
  intros (Hc & Hs & Hb) Hk. destruct (Hk Hs Hb) as (Kc & Ks & Kb).
  unfold repaints. rewrite completionOf_bind, stateAfter_bind, Hc.
  split; [exact Kc | split; [|exact Kb]].
  eapply sameCursors_trans; eassumption.
Qed.

Lemma repaints_get (k : VirtualTerminal -> M unit) (t : VirtualTerminal) :
  repaints (k t) t -> repaints (bind get k) t.
Proof. intro H. exact H. Qed.

Lemma repaints_forEach (l : list nat) (body : nat -> M unit) (t : VirtualTerminal) :
  tidyScreen t ->
  (forall i u, In i l -> sameCursors t u -> tidyScreen u -> repaints (body i) u) ->
  repaints (forEach l body) t.
Proof.
  intros Hw H.
  assert (G : forall u, sameCursors t u -> tidyScreen u ->
                        completionOf (forEach l body) u = Normal tt /\
                        sameCursors t (stateAfter (forEach l body) u) /\
                        tidyScreen (stateAfter (forEach l body) u)).
  { induction l as [|i l IH]; intros u Hs Hu.
    - split; [reflexivity | split; [exact Hs | exact Hu]].
    - cbn [forEach]. rewrite completionOf_bind, stateAfter_bind.
      destruct (H i u (or_introl eq_refl) Hs Hu) as (-> & Bs & Bw).
      apply IH; [intros j v Hj; apply H; now right | | exact Bw].
      eapply sameCursors_trans; eassumption. }
  apply G; [apply sameCursors_refl | exact Hw].
Qed.

Lemma wellFormed_repainted (t u : VirtualTerminal) :
  wellFormed t -> sameCursors t u -> tidyScreen u -> wellFormed u.
Proof. intros Ht Hs Hu. apply (wellFormed_painted t); [exact Ht | exact Hs | now apply tidyScreen_whole]. Qed.

Lemma repaints_times (count : nat) (body : M unit) (t : VirtualTerminal) :
  wellFormed t -> tidyScreen t ->
  (forall u, wellFormed u -> tidyScreen u -> repaints body u) ->
  repaints (times count body) t.
Proof.
  intros Hw Ht H. apply repaints_forEach; [exact Ht|].
  intros _ u _ Hs Hu. apply H; [now apply (wellFormed_repainted t) | exact Hu].
Qed.

Lemma setCell_repaints (y x : nat) (c : CodeUnit) (a : option Attr.t)
    (u : VirtualTerminal) :
  tidyScreen u -> y < rows u -> x <= cols u -> 32 <= c ->
  repaints (setCell y x (mkCell c a)) u.
Proof.
  intros Hw Hy Hx Hc. destruct (tidy_row _ _ _ y Hw Hy) as (r & Er & Hr).
  unfold repaints, completionOf, stateAfter. rewrite (setCell_run _ _ _ _ _ Er).
  cbn [fst snd]. split; [reflexivity | split; [repeat split|]].
  unfold tidyScreen. cbn [cols rows buffer set_buffer].
  apply putRow_tidy; [exact Hw | exact Hy | now apply set_tidyRow].
Qed.

Lemma blank_repaints (y x : nat) (u : VirtualTerminal) :
  tidyScreen u -> y < rows u -> x <= cols u ->
  repaints (t <- get ;; setCell y x (blank t)) u.
Proof.
  intros Hw Hy Hx. apply repaints_get. unfold blank.
  apply setCell_repaints; try assumption. unfold SPACE. lia.
Qed.

Lemma copyRow_repaints (f : Row -> Row) (src dst : nat) (u : VirtualTerminal) :
  (forall r, Forall isVal r -> f r = r) ->
  tidyScreen u -> src < rows u -> dst < rows u ->
  repaints (r <- readRow src ;;
            modify (fun t => set_buffer (putRow (buffer t) dst (f r)) t)) u.
Proof.
  intros Hf Hw Hs Hd. destruct (tidy_row _ _ _ src Hw Hs) as (r & Er & Hr).
  unfold repaints, completionOf, stateAfter. rewrite bind_run, readRow_run, Er.
  cbn [modify fst snd]. split; [reflexivity | split; [repeat split|]].
  unfold tidyScreen. cbn [cols rows buffer set_buffer].
  rewrite Hf by (apply (tidyRow_wholeRow _ _ Hr)).
  apply putRow_tidy; [exact Hw | exact Hd | exact Hr].
Qed.

Ltac regot := apply repaints_get; cbv beta.

Lemma clearLine_repaints (y : nat) (u : VirtualTerminal) :
  tidyScreen u -> y < rows u -> repaints (clearLine y) u.
Proof.
  intros Hw Hy. unfold clearLine. regot.
  apply repaints_forEach; [exact Hw|]. intros x v Hx Hs Hv.
  apply blank_repaints; [exact Hv | numbers | numbers].
Qed.

Lemma scrollUp_repaints (count : nat) (t : VirtualTerminal) :
  wellFormed t -> tidyScreen t -> repaints (scrollUp count) t.
Proof.
  intros Ht Hb. unfold scrollUp. apply repaints_times; [exact Ht | exact Hb|].
  intros u Hu Hub. regot. apply repaints_seq.
  - apply repaints_forEach; [exact Hub|]. intros y v Hy Hs Hv.
    apply copyRow_repaints; [apply whole_map_id | exact Hv | numbers | numbers].
  - intros Hs Hv. regot. apply clearLine_repaints; [exact Hv | numbers].
Qed.

Lemma scrollDown_repaints (count : nat) (t : VirtualTerminal) :
  wellFormed t -> tidyScreen t -> repaints (scrollDown count) t.
Proof.
  intros Ht Hb. unfold scrollDown. apply repaints_times; [exact Ht | exact Hb|].
  intros u Hu Hub. regot. apply repaints_seq.
  - apply repaints_forEach; [exact Hub|]. intros y v Hy Hs Hv.
    apply copyRow_repaints; [apply whole_spread_id | exact Hv | numbers | numbers].
  - intros Hs Hv. regot. apply clearLine_repaints; [exact Hv | numbers].
Qed.

Lemma insertLines_repaints (count : nat) (t : VirtualTerminal) :
  wellFormed t -> tidyScreen t -> repaints (insertLines count) t.
Proof.
  intros Ht Hb. unfold insertLines. apply repaints_times; [exact Ht | exact Hb|].
  intros u Hu Hub. regot. apply repaints_seq.
  - apply repaints_forEach; [exact Hub|]. intros y v Hy Hs Hv.
    apply copyRow_repaints; [apply whole_spread_id | exact Hv | numbers | numbers].
  - intros Hs Hv. regot. apply clearLine_repaints; [exact Hv | numbers].
Qed.

Lemma deleteLines_repaints (count : nat) (t : VirtualTerminal) :
  wellFormed t -> tidyScreen t -> repaints (deleteLines count) t.
Proof.
  intros Ht Hb. unfold deleteLines. apply repaints_times; [exact Ht | exact Hb|].
  intros u Hu Hub. regot. apply repaints_seq.
  - apply repaints_forEach; [exact Hub|]. intros y v Hy Hs Hv.
    apply copyRow_repaints; [apply whole_spread_id | exact Hv | numbers | numbers].
  - intros Hs Hv. regot. apply clearLine_repaints; [exact Hv | numbers].
Qed.

Lemma shiftCell_repaints (y x : nat) (u : VirtualTerminal) :
  tidyScreen u -> y < rows u -> x + 1 < cols u ->
  repaints (r <- readRow y ;; setCell y x (cloneCell (Js.get r (x + 1)))) u.
Proof.
  intros Hw Hy Hx. destruct (tidy_row _ _ _ y Hw Hy) as (r & Er & Hr).
  destruct (tidy_get _ r (x + 1) Hr Hx) as (c & a & Eg & Hc).
  assert (E : (r0 <- readRow y ;; setCell y x (cloneCell (Js.get r0 (x + 1)))) u
              = setCell y x (mkCell c a) u).
  { rewrite bind_run, readRow_run, Er, Eg. reflexivity. }
  unfold repaints, completionOf, stateAfter. rewrite E.
  apply setCell_repaints; [exact Hw | exact Hy | lia | exact Hc].
Qed.

Lemma deleteCharacters_repaints (count : nat) (t : VirtualTerminal) :
  wellFormed t -> tidyScreen t -> repaints (deleteCharacters count) t.
Proof.
  intros Ht Hb. unfold deleteCharacters, times. regot.
  apply repaints_forEach; [exact Hb|]. intros _ u _ Hs Hu.
  regot. apply repaints_seq.
  - apply repaints_forEach; [exact Hu|]. intros x v Hx Hv Hw.
    apply shiftCell_repaints; [exact Hw | numbers | numbers].
  - intros Hv Hw. apply blank_repaints; [exact Hw | numbers | numbers].
Qed.

Lemma eraseInLine_repaints (mode : nat) (t : VirtualTerminal) :
  wellFormed t -> tidyScreen t -> repaints (eraseInLine mode) t.
Proof.
  intros Ht Hb. unfold eraseInLine. regot.
  destruct mode as [|[|[|mode]]].
  - apply repaints_forEach; [exact Hb|]. intros x u Hx Hs Hu.
    apply blank_repaints; [exact Hu | numbers | numbers].
  - apply repaints_forEach; [exact Hb|]. intros x u Hx Hs Hu.
    apply blank_repaints; [exact Hu | numbers | numbers].
  - apply clearLine_repaints; [exact Hb | numbers].
  - apply repaints_ret, Hb.
Qed.

Lemma eraseBelow_repaints (t : VirtualTerminal) :
  wellFormed t -> tidyScreen t ->
  repaints (eraseInLine 0 ;;
            t <- get ;;
            forEach (range (Cursor.y (cursor t) + 1) (rows t)) clearLine) t.
Proof.
  intros Ht Hb. apply repaints_seq; [now apply eraseInLine_repaints|].
  intros Hs Hu. regot. apply repaints_forEach; [exact Hu|]. intros y v Hy Hv Hw.
  apply clearLine_repaints; [exact Hw | numbers].
Qed.

Lemma eraseAbove_repaints (t : VirtualTerminal) :
  wellFormed t -> tidyScreen t ->
  repaints (t <- get ;;
            forEach (range 0 (Cursor.y (cursor t))) clearLine ;;
            eraseInLine 1) t.
Proof.
  intros Ht Hb. regot. apply repaints_seq.
  - apply repaints_forEach; [exact Hb|]. intros y v Hy Hv Hw.
    apply clearLine_repaints; [exact Hw | numbers].
  - intros Hs Hu. apply eraseInLine_repaints; [|exact Hu].
    now apply (wellFormed_repainted t).
Qed.

Lemma tidy_repainted (t u : VirtualTerminal) :
  tidy t -> sameCursors t u -> tidyScreen u -> tidy u.
Proof.
  intros [_ Ha] (Hc & Hr & _ & _ & Hal & _) Hu. split; [exact Hu|].
  now rewrite Hal, Hc, Hr.
Qed.

Lemma repaints_keepsTidy (m : M unit) (t : VirtualTerminal) :
  wellFormed t -> tidy t -> repaints m t -> keepsTidy m t.
Proof.
  intros Hw Ht (Hc & Hs & Hb). split; [exact Hc | split].
  - now apply (wellFormed_repainted t).
  - now apply (tidy_repainted t).
Qed.

Lemma fine_keepsTidy (m : M unit) (t : VirtualTerminal) :
  fine m t -> tidy (stateAfter m t) -> keepsTidy m t.
Proof. intros [Hc Hw] Ht. split; [exact Hc | split; assumption]. Qed.

Lemma keepsTidy_ret (t : VirtualTerminal) : wellFormed t -> tidy t -> keepsTidy (ret tt) t.
Proof. intros Hw Ht. split; [reflexivity | split; assumption]. Qed.

Lemma keepsTidy_get (k : VirtualTerminal -> M unit) (t : VirtualTerminal) :
  keepsTidy (k t) t -> keepsTidy (bind get k) t.
Proof. intro H. exact H. Qed.

Lemma keepsTidy_seq (m k : M unit) (t : VirtualTerminal) :
  keepsTidy m t ->
  (wellFormed (stateAfter m t) -> tidy (stateAfter m t) -> keepsTidy k (stateAfter m t)) ->
  keepsTidy (m ;; k) t.
Proof.
  intros (Hc & Hw & Ht) Hk. destruct (Hk Hw Ht) as (Kc & Kw & Kt).
  unfold keepsTidy. now rewrite completionOf_bind, stateAfter_bind, Hc.
Qed.

Lemma keepsTidy_forEach (l : list nat) (body : nat -> M unit) (t : VirtualTerminal) :
  (forall i u, wellFormed u -> tidy u -> keepsTidy (body i) u) ->
  wellFormed t -> tidy t -> keepsTidy (forEach l body) t.
Proof.
  intros H Hw Ht.
  destruct (forEach_returns (fun u => wellFormed u /\ tidy u) l body) with (t := t)
    as (Hc & Hw' & Ht'); [|now split|].
  - intros i u _ [Hu1 Hu2]. destruct (H i u Hu1 Hu2) as (Kc & Kw & Kt).
    split; [exact Kc | split; assumption].
  - split; [exact Hc | split; assumption].
Qed.

(** Tidiness reads the dimensions, the buffer and the snapshot only. *)
Ltac tidy_fields :=
  unfold tidy, tidyScreen in *;
  cbn [cols rows buffer altScreenBuffer
       set_cursor set_buffer set_savedCursor set_scrollRegion
       set_altScreenBuffer set_isAltScreen set_currentAttr set_cursorVisible
       set_parseState set_frameCounter set_hasChangedSinceLastCheck
       AltScreen.buffer AltScreen.cursor] in *.

Ltac tidy_leaf :=
  tidy_fields;
  repeat match goal with
         | H : _ /\ _ |- _ => destruct H
         end;
  repeat match goal with
         | |- _ /\ _ => split
         end;
  solve [assumption | exact I].

Lemma tidy_still (t t' : VirtualTerminal) :
  sameScreen t t' -> sameHost t t' -> tidy t -> tidy t'.
Proof.
  intros (Hb & _ & Ha) (Hc & Hr & _) Ht. unfold tidy, tidyBuffer in *.
  now rewrite Hb, Ha, Hc, Hr.
Qed.

Lemma clearScreen_keepsTidy (t : VirtualTerminal) :
  wellFormed t -> tidy t -> keepsTidy clearScreen t.
Proof.
  intros Hw Ht. apply fine_keepsTidy; [now apply clearScreen_fine|].
  cbn [stateAfter clearScreen modify snd]. unfold createEmptyBuffer.
  pose proof (emptyBuffer_tidy (Some (currentAttr t)) (cols t) (rows t)) as He.
  tidy_leaf.
Qed.

Lemma lineFeed_keepsTidy (t : VirtualTerminal) :
  wellFormed t -> tidy t -> keepsTidy lineFeed t.
Proof.
  intros Hw Ht. apply fine_keepsTidy; [now apply lineFeed_fine|].
  unfold lineFeed. rewrite stateAfter_bind.
  cbn [completionOf stateAfter modify fst snd].
  set (u := set_cursor (Cursor.mk 0 (Cursor.y (cursor t))) t).
  assert (Hu : wellFormed u)
    by (apply wellFormed_cursor; [exact Hw | |]; cbn [Cursor.x Cursor.y]; numbers).
  assert (Htu : tidy u) by (subst u; tidy_leaf).
  rewrite stateAfter_bind. cbn [completionOf stateAfter get fst snd].
  match goal with
  | |- context [if ?a <=? ?b then _ else _] => destruct (a <=? b)
  end.
  - apply (repaints_keepsTidy _ u Hu Htu). apply scrollUp_repaints; [exact Hu | apply Htu].
  - cbn [stateAfter modify snd]. tidy_leaf.
Qed.

Lemma reverseIndex_keepsTidy (t : VirtualTerminal) :
  wellFormed t -> tidy t -> keepsTidy reverseIndex t.
Proof.
  intros Hw Ht. apply fine_keepsTidy; [now apply reverseIndex_fine|].
  unfold reverseIndex. rewrite stateAfter_bind.
  cbn [completionOf stateAfter get fst snd].
  match goal with
  | |- context [if ?a <=? ?b then _ else _] => destruct (a <=? b)
  end.
  - apply (repaints_keepsTidy _ t Hw Ht). apply scrollDown_repaints; [exact Hw | apply Ht].
  - cbn [stateAfter modify snd]. tidy_leaf.
Qed.

Lemma printChar_keepsTidy (char : CodeUnit) (t : VirtualTerminal) :
  32 <= char -> wellFormed t -> tidy t -> keepsTidy (printChar char) t.
Proof.
  intros Hc Hw Ht. unfold printChar. apply keepsTidy_get.
  set (wrap := when (cols t <=? Cursor.x (cursor t))
                 (modify (fun t0 => set_cursor (Cursor.mk 0 (Cursor.y (cursor t0))) t0) ;;
                  lineFeed)).
  assert (Hwrap : keepsTidy wrap t /\
                  Cursor.x (cursor (stateAfter wrap t)) < cols (stateAfter wrap t)).
  { subst wrap. destruct (Nat.leb_spec (cols t) (Cursor.x (cursor t))); cbn [when].
    - assert (Hf : keepsTidy
                     (modify (fun t0 => set_cursor (Cursor.mk 0 (Cursor.y (cursor t0))) t0) ;;
                      lineFeed) t).
      { apply keepsTidy_seq.
        - apply fine_keepsTidy; [move_cursor | cbn [stateAfter modify snd]; tidy_leaf].
        - intros Hu Htu. now apply lineFeed_keepsTidy. }
      split; [exact Hf|]. destruct Hf as (_ & Hf & _). apply wellFormed_bounds in Hf.
      rewrite stateAfter_bind in *. cbn [completionOf stateAfter modify fst snd] in *.
      rewrite lineFeed_column. lia.
    - split; [now apply keepsTidy_ret | exact H]. }
  destruct Hwrap as [Hwrap Hx]. apply keepsTidy_seq; [exact Hwrap|].
  intros Hu Htu. set (u := stateAfter wrap t) in *. apply keepsTidy_get.
  apply keepsTidy_seq.
  - apply (repaints_keepsTidy _ u Hu Htu).
    apply setCell_repaints; [apply Htu | numbers | lia | exact Hc].
  - intros Hv Htv.
    match goal with
    | |- keepsTidy _ (stateAfter (setCell ?a ?b ?c) u) =>
        pose proof (setCell_sameCursors a b c u) as Hs
    end.
    apply fine_keepsTidy.
    + apply fine_modify, wellFormed_cursor; [exact Hv | |];
        cbn [Cursor.x Cursor.y]; numbers.
    + cbn [stateAfter modify snd]. tidy_leaf.
Qed.

Lemma snapshot_tidy (ncols nrows : nat) (b : Buffer) :
  tidyBuffer ncols nrows b -> map (Js.map cloneCell) b = b.
Proof.
  intros [_ Hb]. induction Hb as [|r b Hr Hb IH]; [reflexivity|].
  cbn [map]. rewrite IH, whole_map_id; [reflexivity|].
  apply (tidyRow_wholeRow _ _ Hr).
Qed.

Lemma enableAltScreen_keepsTidy (t : VirtualTerminal) :
  wellFormed t -> tidy t -> keepsTidy enableAltScreen t.
Proof.
  intros Hw Ht. apply fine_keepsTidy; [now apply enableAltScreen_fine|].
  unfold enableAltScreen. rewrite stateAfter_bind.
  cbn [completionOf stateAfter get fst snd].
  destruct (isAltScreen t); cbn [negb when]; [exact Ht|].
  cbn [stateAfter bind modify clearScreen snd]. unfold createEmptyBuffer.
  cbn [cols rows currentAttr set_altScreenBuffer set_isAltScreen].
  rewrite (snapshot_tidy _ _ _ (proj1 Ht)).
  pose proof (emptyBuffer_tidy (Some (currentAttr t)) (cols t) (rows t)) as He.
  tidy_leaf.
Qed.

Lemma disableAltScreen_keepsTidy (t : VirtualTerminal) :
  wellFormed t -> tidy t -> keepsTidy disableAltScreen t.
Proof.
  intros Hw Ht. apply fine_keepsTidy; [now apply disableAltScreen_fine|].
  unfold disableAltScreen. rewrite stateAfter_bind.
  cbn [completionOf stateAfter get fst snd].
  destruct (isAltScreen t); [|exact Ht].
  destruct (altScreenBuffer t) as [saved|] eqn:Hs; [|exact Ht].
  cbn [stateAfter bind modify snd]. tidy_fields. rewrite Hs in Ht. tidy_leaf.
Qed.

Lemma reset_keepsTidy (t : VirtualTerminal) :
  wellFormed t -> tidy t -> keepsTidy reset t.
Proof.
  intros Hw Ht. apply fine_keepsTidy; [now apply reset_fine|].
  cbn [stateAfter reset bind modify snd]. unfold createEmptyBuffer.
  pose proof (emptyBuffer_tidy (Some (currentAttr t)) (cols t) (rows t)) as He.
  tidy_leaf.
Qed.

Lemma setMode_keepsTidy (params : list nat) (i : JsString) (t : VirtualTerminal) :
  wellFormed t -> tidy t -> keepsTidy (setMode params i) t.
Proof.
  intros Hw Ht. unfold setMode. apply keepsTidy_forEach; [|exact Hw | exact Ht].
  intros p u Hu Htu.
  destruct (isPrivate i); [|now apply keepsTidy_ret].
  destruct (p =? 25).
  { apply fine_keepsTidy; [apply fine_modify; wf_leaf | cbn [stateAfter modify snd]; tidy_leaf]. }
  destruct (p =? 1049); [now apply enableAltScreen_keepsTidy | now apply keepsTidy_ret].
Qed.

Lemma resetMode_keepsTidy (params : list nat) (i : JsString) (t : VirtualTerminal) :
  wellFormed t -> tidy t -> keepsTidy (resetMode params i) t.
Proof.
  intros Hw Ht. unfold resetMode. apply keepsTidy_forEach; [|exact Hw | exact Ht].
  intros p u Hu Htu.
  destruct (isPrivate i); [|now apply keepsTidy_ret].
  destruct (p =? 25).
  { apply fine_keepsTidy; [apply fine_modify; wf_leaf | cbn [stateAfter modify snd]; tidy_leaf]. }
  destruct (p =? 1049); [now apply disableAltScreen_keepsTidy | now apply keepsTidy_ret].
Qed.

Lemma eraseInDisplay_keepsTidy (mode : nat) (t : VirtualTerminal) :
  wellFormed t -> tidy t -> keepsTidy (eraseInDisplay mode) t.
Proof.
  intros Hw Ht. unfold eraseInDisplay. destruct mode as [|[|[|mode]]].
  - apply (repaints_keepsTidy _ t Hw Ht). apply eraseBelow_repaints; [exact Hw | apply Ht].
  - apply (repaints_keepsTidy _ t Hw Ht). apply eraseAbove_repaints; [exact Hw | apply Ht].
  - now apply clearScreen_keepsTidy.
  - now apply keepsTidy_ret.
Qed.

(** ** Tidiness along a write *)

Lemma keepsTidy_tidyKept (m : M unit) (t : VirtualTerminal) :
  (wellFormed t -> tidy t -> keepsTidy m t) -> tidyKept t (stateAfter m t).
Proof. intros H Hw Ht. apply (H Hw Ht). Qed.

Lemma still_tidyKept {A} (m : M A) (t : VirtualTerminal) :
  preserves sameScreen m -> preserves sameHost m -> tidyKept t (stateAfter m t).
Proof. intros Hs Hh _ Ht. exact (tidy_still _ _ (Hs t) (Hh t) Ht). Qed.

Ltac stays := apply still_tidyKept; [screen_frame | host].

Lemma handleNormalChar_tidyKept (c : CodeUnit) (t : VirtualTerminal) :
  tidyKept t (stateAfter (handleNormalChar c) t).
Proof.
  unfold handleNormalChar.
  destruct (c =? 27); [stays|]. destruct (c =? 8); [stays|].
  destruct (c =? 9); [stays|].
  destruct (Nat.eqb_spec c 10);
    [apply keepsTidy_tidyKept; intros; now apply lineFeed_keepsTidy|].
  destruct (c =? 13); [stays|]. destruct (c =? 7); [stays|].
  destruct (Nat.leb_spec 32 c); cbn [orb]; [|stays].
  apply keepsTidy_tidyKept; intros; now apply printChar_keepsTidy.
Qed.

Lemma setParseMode_keepsTidy (m : ParseState.Mode) (t : VirtualTerminal) :
  wellFormed t -> tidy t -> keepsTidy (setParseMode m) t.
Proof.
  intros Hw Ht. apply fine_keepsTidy; [now apply setParseMode_fine|].
  cbn [stateAfter setParseMode modify snd]. tidy_leaf.
Qed.

Lemma handleEscapeChar_tidyKept (c : CodeUnit) (t : VirtualTerminal) :
  tidyKept t (stateAfter (handleEscapeChar c) t).
Proof.
  unfold handleEscapeChar, index, nextLine.
  destruct (isChar c "["); [stays|]. destruct (isChar c "]"); [stays|].
  destruct (isChar c "D").
  { apply keepsTidy_tidyKept; intros. apply keepsTidy_seq;
      [now apply lineFeed_keepsTidy | intros; now apply setParseMode_keepsTidy]. }
  destruct (isChar c "M").
  { apply keepsTidy_tidyKept; intros. apply keepsTidy_seq;
      [now apply reverseIndex_keepsTidy | intros; now apply setParseMode_keepsTidy]. }
  destruct (isChar c "E").
  { apply keepsTidy_tidyKept; intros. apply keepsTidy_seq;
      [|intros; now apply setParseMode_keepsTidy].
    apply keepsTidy_seq; [|intros; now apply lineFeed_keepsTidy].
    apply fine_keepsTidy; [now apply carriageReturn_fine|].
    cbn [stateAfter carriageReturn modify snd]. tidy_leaf. }
  destruct (isChar c "7"); [stays|]. destruct (isChar c "8"); [stays|].
  destruct (isChar c "c"); [|stays].
  apply keepsTidy_tidyKept; intros. apply keepsTidy_seq;
    [now apply reset_keepsTidy | intros; now apply setParseMode_keepsTidy].
Qed.

Lemma handleCSISequence_tidyKept (c : CodeUnit) (ps : list nat) (i : JsString)
    (t : VirtualTerminal) :
  tidyKept t (stateAfter (handleCSISequence c ps i) t).
Proof.
  unfold handleCSISequence.
  repeat match goal with
         | |- tidyKept _ (stateAfter (if ?b then _ else _) _) => destruct b
         end;
    try solve [ stays
              | apply keepsTidy_tidyKept; intros Hw Ht;
                solve [ now apply eraseInDisplay_keepsTidy
                      | now apply setMode_keepsTidy
                      | now apply resetMode_keepsTidy
                      | apply (repaints_keepsTidy _ t Hw Ht);
                        solve [ apply eraseInLine_repaints; [exact Hw | apply Ht]
                              | apply insertLines_repaints; [exact Hw | apply Ht]
                              | apply deleteLines_repaints; [exact Hw | apply Ht]
                              | apply deleteCharacters_repaints; [exact Hw | apply Ht]
                              | apply scrollUp_repaints; [exact Hw | apply Ht]
                              | apply scrollDown_repaints; [exact Hw | apply Ht] ] ] ].
Qed.

Lemma set_parseState_same (t : VirtualTerminal) : set_parseState (parseState t) t = t.
Proof. now destruct t. Qed.

Lemma processChar_tidyKept (c : CodeUnit) (t : VirtualTerminal) :
  tidyKept t (stateAfter (processChar c) t).
Proof.
  apply (processChar_rel parseOnly tidyKept).
  - intro u. exists (parseState u). symmetry. apply set_parseState_same.
  - intros u p. now exists p.
  - intros u u' [p ->] Hw Ht. tidy_leaf.
  - intros u u1 u2 u3 [p1 ->] H [p3 ->] Hw Ht.
    assert (T2 : tidy u2)
      by (apply H; [now apply wellFormed_parseState | tidy_leaf]).
    tidy_leaf.
  - apply handleCSISequence_tidyKept.
  - apply handleNormalChar_tidyKept.
  - apply handleEscapeChar_tidyKept.
Qed.

Lemma processChars_keepsTidy (data : JsString) (t : VirtualTerminal) :
  wellFormed t -> tidy t -> Forall topInside (charStates data t) ->
  keepsTidy (processChars data) t.
Proof.
  unfold processChars. revert t.
  induction data as [|c rest IH]; intros t Hw Ht Hi; [now apply keepsTidy_ret|].
  cbn [forEach charStates] in *.
  destruct (processChar_held c t Hw) as [Hc Hh].
  pose proof (processChar_tidyKept c t Hw Ht) as Hk.
  unfold keepsTidy. rewrite completionOf_bind, stateAfter_bind, Hc.
  assert (E : processChar c t = (Normal tt, stateAfter (processChar c) t)).
  { unfold completionOf, stateAfter in *.
    destruct (processChar c t) as [[[]|e] t1]; cbn [fst snd] in *;
      [reflexivity | discriminate]. }
  rewrite E in Hi. inversion Hi; subst. apply IH; [now apply Hh | exact Hk | assumption].
Qed.

Lemma write_keepsTidy behaviour (now : nat) (data : JsString) (t : VirtualTerminal) :
  wellFormed t -> tidy t ->
  Forall topInside (visitedBy behaviour (Write now data) t) ->
  tidy (after (write behaviour now data t)).
Proof.
  intros Hw Ht Hi. cbn [visitedBy] in Hi. unfold write. rewrite toString_run.
  pose proof (render_whole _ _ _ (proj1 (proj2 Hw))) as Hb.
  destruct (render (buffer t)) as [before|]; [|contradiction].
  destruct (processChars_keepsTidy data t Hw Ht Hi) as (Hc & Hw' & Ht').
  unfold completionOf, stateAfter in Hc, Hw', Ht'.
  destruct (processChars data t) as [[u|e] t1]; cbn [fst snd] in *; [|discriminate].
  rewrite toString_run.
  destruct (render (buffer t1)) as [after'|]; [|exact Ht'].
  destruct (list_eq_dec Nat.eq_dec before after'); cbn [after]; [exact Ht'|].
  tidy_leaf.
Qed.

Lemma new_tidy (ncols nrows : nat) : tidy (new ncols nrows).
Proof.
  pose proof (emptyBuffer_tidy None ncols nrows) as He. unfold new. tidy_leaf.
Qed.

Lemma writes_keepTidy behaviour (chunks : list (nat * JsString)) (t : VirtualTerminal) :
  wellFormed t -> tidy t ->
  Forall topInside
    (visited behaviour (map (fun c => Write (fst c) (snd c)) chunks) t) ->
  wellFormed (finalState behaviour (map (fun c => Write (fst c) (snd c)) chunks) t) /\
  tidy (finalState behaviour (map (fun c => Write (fst c) (snd c)) chunks) t).
Proof.
  revert t; induction chunks as [|[now data] rest IH]; intros t Hw Ht Hi.
  - split; assumption.
  - cbn [map finalState visited fst snd] in *.
    apply Forall_app in Hi. destruct Hi as [Hc Hr]. cbn [perform] in *.
    apply IH; [apply (write_fine behaviour now data t Hw Hc) | | exact Hr].
    now apply write_keepsTidy.
Qed.

(** ** The screen text of a tidy terminal *)

Lemma rowText_tidy (r : Row) :
  Forall printedSlot r ->
  exists l, rowText r = Some l /\ length l = length r /\ Forall (fun c => 32 <= c) l.
Proof.
  unfold rowText. induction 1 as [|s r Hs Hr IH].
  - exists []. repeat split. constructor.
  - destruct IH as (l & El & Hl & Hc).
    destruct s as [| |[|c a]]; try contradiction.
    exists (c :: l). cbn [rowChars charOf].
    destruct (rowChars r) as [chars|]; [|discriminate].
    cbn [option_map] in *. inversion El; subst.
    split; [reflexivity | split; [cbn [length]; now rewrite Hl | now constructor]].
Qed.

Lemma rowTexts_tidy (ncols : nat) (b : Buffer) :
  Forall (tidyRow ncols) b ->
  exists lines,
    rowTexts b = Some lines /\ length lines = length b /\
    Forall (tidyLine ncols) lines.
Proof.
  induction 1 as [|r b Hr Hb IH].
  - exists []. repeat split. constructor.
  - destruct IH as (lines & El & Hl & Hlines).
    destruct Hr as [Hlen Hcells].
    destruct (rowText_tidy r Hcells) as (l & Er & Hlr & Hc).
    exists (l :: lines). cbn [rowTexts]. rewrite Er, El. cbn [option_map length].
    split; [reflexivity | split; [now rewrite Hl|]].
    constructor; [|exact Hlines]. split; [lia | exact Hc].
Qed.

Lemma tidyLine_no_newline (ncols : nat) (l : JsString) :
  tidyLine ncols l -> ~ In NEWLINE l.
Proof.
  intros [_ H] Hin. rewrite Forall_forall in H. specialize (H _ Hin).
  unfold NEWLINE in H. lia.
Qed.

Lemma tidy_screen_text (t : VirtualTerminal) :
  1 <= rows t -> tidy t ->
  exists lines,
    screenLines t = Some lines /\
    completionOf getScreenText t = Normal (Js.joinWith [NEWLINE] lines) /\
    splitLines (Js.joinWith [NEWLINE] lines) = lines /\
    length lines = rows t /\
    Forall (tidyLine (cols t)) lines.
Proof.
  intros Hr [[Hl Hb] _].
  destruct (rowTexts_tidy _ _ Hb) as (lines & El & Hn & Hlines).
  exists lines. unfold screenLines, getScreenText, completionOf.
  rewrite toString_run. unfold render. rewrite El. cbn [option_map fst].
  split; [reflexivity | split; [reflexivity | split; [|split; [congruence | exact Hlines]]]].
  apply splitLines_joinWith.
  - destruct lines; [cbn in Hn; lia | discriminate].
  - eapply Forall_impl; [|exact Hlines]. intro l. apply tidyLine_no_newline.
Qed.

Lemma writes_dimensions behaviour (chunks : list (nat * JsString)) (t : VirtualTerminal) :
  cols (finalState behaviour (map (fun c => Write (fst c) (snd c)) chunks) t) = cols t /\
  rows (finalState behaviour (map (fun c => Write (fst c) (snd c)) chunks) t) = rows t.
Proof.
  revert t; induction chunks as [|[now data] rest IH]; intro t; [now split|].
  cbn [map finalState fst snd perform].
  destruct (IH (after (write behaviour now data t))) as [-> ->].
  apply write_dimensions.
Qed.

(** X8.  After any sequence of writes to a new terminal during which
    the top of the scroll region stays on the screen,
    [getScreenText()] returns, and what it returns splits into exactly
    [rows] lines; every line has [cols] or [cols + 1] characters,
    none of them a control code.  (The extra character is the cell
    [CSI 1 K] appends when the cursor waits past the last column.)
    The same holds after one write to any well-formed, tidy
    terminal. *)
Theorem screen_text_keeps_its_lines :
  forall behaviour ncols nrows (chunks : list (nat * JsString)),
    1 <= ncols -> 1 <= nrows ->
    Forall topInside
      (visited behaviour (map (fun c => Write (fst c) (snd c)) chunks)
               (new ncols nrows)) ->
    (exists lines,
        screenLines
          (finalState behaviour (map (fun c => Write (fst c) (snd c)) chunks)
                      (new ncols nrows)) = Some lines /\
        completionOf getScreenText
          (finalState behaviour (map (fun c => Write (fst c) (snd c)) chunks)
                      (new ncols nrows))
        = Normal (Js.joinWith [NEWLINE] lines) /\
        splitLines (Js.joinWith [NEWLINE] lines) = lines /\
        length lines = nrows /\
        Forall (tidyLine ncols) lines) /\
    (forall now data t,
        wellFormed t -> tidy t ->
        Forall topInside (visitedBy behaviour (Write now data) t) ->
        tidy (after (write behaviour now data t))).
Proof.
  intros behaviour ncols nrows chunks Hc Hr Hi. split.
  - destruct (writes_keepTidy behaviour chunks (new ncols nrows)) as [Hw Ht];
      [now apply new_wellFormed | apply new_tidy | exact Hi |].
    destruct (writes_dimensions behaviour chunks (new ncols nrows)) as [Dc Dr].
    cbn [cols rows new] in Dc, Dr.
    destruct (tidy_screen_text _ (eq_ind_r (fun n => 1 <= n) Hr Dr) Ht)
      as (lines & H1 & H2 & H3 & H4 & H5).
    exists lines. rewrite Dr in H4. rewrite Dc in H5.
    repeat split; assumption.
  - intros now data t. apply write_keepsTidy.
Qed.

(** The statement of X8 at work: on a new 5x3 terminal "Hello" fills
    the first row and [CSI 1 K] then makes it six characters long. *)
Lemma screen_text_keeps_its_lines_witness :
  exists lines,
    screenLines
      (finalState quiet
         (map (fun c => Write (fst c) (snd c))
              [(0, str "Hello"); (1, sequenceEraseToCursor)])
         (new 5 3)) = Some lines /\
    completionOf getScreenText
      (finalState quiet
         (map (fun c => Write (fst c) (snd c))
              [(0, str "Hello"); (1, sequenceEraseToCursor)])
         (new 5 3))
    = Normal (Js.joinWith [NEWLINE] lines) /\
    splitLines (Js.joinWith [NEWLINE] lines) = lines /\
    length lines = 3 /\
    Forall (tidyLine 5) lines.
Proof.
  apply (proj1 (screen_text_keeps_its_lines quiet 5 3
                  [(0, str "Hello"); (1, sequenceEraseToCursor)]
                  ltac:(lia) ltac:(lia)
                  ltac:(vm_compute; repeat constructor))).
Defined.

(** ** Erasing in a line *)

Lemma paint_range (v : Cell) (a n : nat) (r : Row) :
  a <= length r ->
  fold_left (fun r x => Js.set r x v) (seq a n) r
  = firstn a r ++ Js.make n v ++ skipn (a + n) r.
Proof.
  intro Ha. unfold Js.make. induction n as [|n IH].
  - cbn [seq fold_left repeat app]. now rewrite Nat.add_0_r, firstn_skipn.
  - rewrite seq_S, fold_left_app, IH. cbn [fold_left].
    replace (Js.set (firstn a r ++ repeat (Js.Val v) n ++ skipn (a + n) r) (a + n) v)
      with (Js.set ((firstn a r ++ repeat (Js.Val v) n) ++ skipn (a + n) r)
                   (length (firstn a r ++ repeat (Js.Val v) n)) v).
    2:{ rewrite length_app, length_firstn, repeat_length, <- app_assoc.
        now replace (Nat.min a (length r)) with a by lia. }
    rewrite set_at_end, tl_skipn, <- app_assoc. f_equal.
    replace (a + S n) with (S (a + n)) by lia.
    change (Js.Val v :: skipn (S (a + n)) r) with ([Js.Val v] ++ skipn (S (a + n)) r).
    rewrite app_assoc. f_equal. symmetry. apply (repeat_cons n (Js.Val v)).
Qed.

Lemma eraseInLine_run (mode : nat) (t : VirtualTerminal) (r : Row) :
  nth_error (buffer t) (Cursor.y (cursor t)) = Some r ->
  Cursor.x (cursor t) <= length r ->
  eraseInLine mode t
  = (Normal tt,
     set_buffer (putRow (buffer t) (Cursor.y (cursor t)) (erasedRow mode t r)) t).
Proof.
  intros Er Hx. unfold eraseInLine. rewrite bind_run. cbn [get].
  destruct mode as [|[|[|mode]]]; cbn [erasedRow].
  - unfold range. rewrite (paintLoop_run _ _ _ _ Er), paint_range by exact Hx.
    replace (Cursor.x (cursor t) + (cols t - Cursor.x (cursor t)))
      with (Nat.max (Cursor.x (cursor t)) (cols t)) by lia.
    reflexivity.
  - unfold range. rewrite Nat.sub_0_r, (paintLoop_run _ _ _ _ Er), paint_seq. reflexivity.
  - apply (clearLine_run _ _ _ Er).
  - now rewrite (putRow_same _ _ _ Er), set_buffer_same.
Qed.

(** X9.  [eraseInLine(mode)] on a cursor row that reaches the cursor
    column returns and rewrites that row only: mode 0 blanks the
    columns from the cursor to the last one, mode 1 the columns from
    the first through the cursor's (inclusive), mode 2 all [cols]
    columns, and any other mode changes nothing.  The blank cells carry
    the current attributes; the cursor and the other rows stay. *)
Theorem eraseInLine_rewrites_cursor_row :
  forall mode t r,
    nth_error (buffer t) (Cursor.y (cursor t)) = Some r ->
    Cursor.x (cursor t) <= length r ->
    eraseInLine mode t
    = (Normal tt,
       set_buffer (putRow (buffer t) (Cursor.y (cursor t)) (erasedRow mode t r)) t) /\
    nth_error (buffer (stateAfter (eraseInLine mode) t)) (Cursor.y (cursor t))
    = Some (erasedRow mode t r) /\
    (forall i, i <> Cursor.y (cursor t) ->
               nth_error (buffer (stateAfter (eraseInLine mode) t)) i
               = nth_error (buffer t) i) /\
    cursor (stateAfter (eraseInLine mode) t) = cursor t /\
    (3 <= mode -> stateAfter (eraseInLine mode) t = t).
Proof.
  intros mode t r Er Hx. pose proof (eraseInLine_run mode t r Er Hx) as Hrun.
  pose proof (nth_error_lt _ _ _ Er) as Hy.
  split; [exact Hrun|]. unfold stateAfter. rewrite Hrun. cbn [snd buffer set_buffer cursor].
  split; [|split; [|split]].
  - rewrite putRow_nth by exact Hy. now rewrite Nat.eqb_refl.
  - intros i Hi. rewrite putRow_nth by exact Hy.
    destruct (Nat.eqb_spec i (Cursor.y (cursor t))); [contradiction | reflexivity].
  - reflexivity.
  - intro Hm. destruct mode as [|[|[|mode]]]; try lia. cbn [erasedRow].
    now rewrite (putRow_same _ _ _ Er), set_buffer_same.
Qed.

(** The statement of X9 at work: "abcde" with the cursor on "c",
    erased to the end of the line. *)
Lemma eraseInLine_witness :
  nth_error (buffer (stateAfter (eraseInLine 0) screenAbcde))
            (Cursor.y (cursor screenAbcde))
  = Some (erasedRow 0 screenAbcde (map (printed Attr.default) (str "abcde"))) /\
  rowText (erasedRow 0 screenAbcde (map (printed Attr.default) (str "abcde")))
  = Some (str "ab   ").
Proof.
  split.
  - apply (eraseInLine_rewrites_cursor_row 0 screenAbcde
             (map (printed Attr.default) (str "abcde"))).
    + vm_compute. reflexivity.
    + vm_compute. lia.
  - vm_compute. reflexivity.
Defined.

(** ** Scrolling by several rows *)

Lemma forEach_const (m : M unit) (a b n : nat) :
  forEach (seq a n) (fun _ => m) = forEach (seq b n) (fun _ => m).
Proof.
  revert a b; induction n as [|n IH]; intros a b; [reflexivity|].
  cbn [seq forEach]. now rewrite (IH (S a) (S b)).
Qed.

Lemma times_add (a b : nat) (m : M unit) (t : VirtualTerminal) :
  times (a + b) m t = (times a m ;; times b m) t.
Proof.
  unfold times, range. rewrite !Nat.sub_0_r, seq_app, forEach_app.
  now rewrite (forEach_const m (0 + a) 0 b).
Qed.

Lemma scrollUp_add (a b : nat) (t : VirtualTerminal) :
  scrollUp (a + b) t = (scrollUp a ;; scrollUp b) t.
Proof. apply times_add. Qed.

Lemma clearedRow_twice (n : nat) (v : Cell) (r : Row) :
  clearedRow n v (clearedRow n v r) = clearedRow n v r.
Proof.
  unfold clearedRow, Js.make. f_equal.
  rewrite skipn_app, repeat_length, Nat.sub_diag, skipn_all2 by (rewrite repeat_length; lia).
  reflexivity.
Qed.

Lemma whole_nth_clone (t : VirtualTerminal) (j : nat) :
  whole t ->
  option_map (Js.map cloneCell) (nth_error (buffer t) j) = nth_error (buffer t) j.
Proof.
  intros [_ Hb]. destruct (nth_error (buffer t) j) as [r|] eqn:E; [|reflexivity].
  cbn [option_map]. f_equal. apply whole_map_id.
  assert (Hr : wholeRow (cols t) r)
    by (eapply Forall_forall; [exact Hb | eapply nth_error_In; exact E]).
  apply Hr.
Qed.

Lemma scrollUp_closed (n : nat) (t : VirtualTerminal) :
  wellFormed t ->
  exists b',
    scrollUp n t = (Normal tt, set_buffer b' t) /\
    forall i, nth_error b' i = scrolledUpBy n t i.
Proof.
  revert t; induction n as [|n IH]; intros t Hw.
  - exists (buffer t). split; [cbn; now rewrite set_buffer_same | reflexivity].
  - change (S n) with (1 + n). rewrite scrollUp_add, bind_run.
    pose proof (wellFormed_bounds t Hw) as (_ & _ & _ & Hb & _).
    assert (Hlen : length (buffer t) = rows t) by apply Hw.
    destruct (scrollUp_run t) as (b1 & Hrun & Hnth); [lia|].
    rewrite Hrun.
    assert (Hw1 : wellFormed (set_buffer b1 t)).
    { destruct (scrollUp_paints 1 t Hw) as (_ & Hs & Hwh).
      unfold stateAfter in Hs, Hwh. rewrite Hrun in Hs, Hwh.
      now apply (wellFormed_painted t). }
    destruct (IH _ Hw1) as (b' & Hrun' & Hnth').
    exists b'. rewrite Hrun'. split; [reflexivity|].
    intro i. rewrite Hnth'. unfold scrolledUpBy.
    cbn [scrollRegion cols buffer set_buffer]. change (blank (set_buffer b1 t)) with (blank t).
    set (top := ScrollRegion.top (scrollRegion t)).
    set (bottom := ScrollRegion.bottom (scrollRegion t)) in *.
    rewrite !Hnth. unfold regionScrolledUp. fold top bottom.
    pose proof (whole_nth_clone t (i + 1) (proj1 (proj2 Hw))) as C1.
    pose proof (whole_nth_clone t (i + n + 1) (proj1 (proj2 Hw))) as C2.
    rewrite Nat.eqb_refl.
    destruct (nth_error (buffer t) bottom) as [rb|] eqn:Eb;
      [|apply nth_error_None in Eb; lia].
    cbn [option_map Nat.add]. rewrite clearedRow_twice.
    destruct n as [|n]; cbn [Nat.eqb].
    + rewrite Nat.add_0_r in *. split_tests; cbn [andb orb]; try lia;
        try reflexivity; try (rewrite C1; f_equal; lia).
    + split_tests; cbn [andb orb]; try lia; try reflexivity;
        try (rewrite C2; f_equal; lia);
        try (replace (i + S (S n)) with (i + S n + 1) by lia; exact C2).
Qed.

(** X10.  On a well-formed terminal [scrollUp(n)], for a count [n]
    that is a safe integer (the loop of the source does not end on a
    larger one), returns and moves every row of the scroll region up
    by [n] rows: a row of the region takes the content of the row [n]
    below it while that row is in the region and becomes a blank row
    otherwise, so that [n] larger than the height of the region blanks
    the region; the rows outside the region and the cursor stay.
    Scrolling by a safe [a + b] is scrolling by [a], then by [b]. *)
Theorem scrollUp_moves_region_rows :
  forall n t,
    safeInteger n = true ->
    wellFormed t ->
    completionOf (scrollUp n) t = Normal tt /\
    (forall i, nth_error (buffer (stateAfter (scrollUp n) t)) i = scrolledUpBy n t i) /\
    (ScrollRegion.bottom (scrollRegion t) - ScrollRegion.top (scrollRegion t) < n ->
     forall i,
       ScrollRegion.top (scrollRegion t) <= i <= ScrollRegion.bottom (scrollRegion t) ->
       nth_error (buffer (stateAfter (scrollUp n) t)) i
       = option_map (clearedRow (cols t) (blank t))
           (nth_error (buffer t) (ScrollRegion.bottom (scrollRegion t)))) /\
    cursor (stateAfter (scrollUp n) t) = cursor t /\
    (forall a b u, safeInteger (a + b) = true ->
                   scrollUp (a + b) u = (scrollUp a ;; scrollUp b) u).
Proof.
  intros n t _ Hw. destruct (scrollUp_closed n t Hw) as (b' & Hrun & Hnth).
  unfold completionOf, stateAfter. rewrite Hrun. cbn [fst snd buffer set_buffer cursor].
  split; [reflexivity | split; [exact Hnth | split; [|split; [reflexivity|]]]].
  - intros Hn i Hi. rewrite Hnth. unfold scrolledUpBy.
    split_tests; cbn [andb orb]; try lia; reflexivity.
  - intros a b u _. apply scrollUp_add.
Qed.

(** The statement of X10 at work on a new 5x3 terminal after "A", "B"
    and "C" were written on its three rows. *)
Lemma scrollUp_moves_region_rows_witness :
  completionOf (scrollUp 2)
    (after (write quiet 0 (str "A" ++ [NEWLINE] ++ str "B" ++ [NEWLINE] ++ str "C")
              (new 5 3))) = Normal tt /\
  lineAt (stateAfter (scrollUp 2)
            (after (write quiet 0 (str "A" ++ [NEWLINE] ++ str "B" ++ [NEWLINE] ++ str "C")
                      (new 5 3)))) 0 = Some (str "C    ").
Proof.
  destruct (scrollUp_moves_region_rows 2
              (after (write quiet 0 (str "A" ++ [NEWLINE] ++ str "B" ++ [NEWLINE] ++ str "C")
                        (new 5 3)))) as (Hc & Hrows & _).
  - reflexivity.
  - apply (write_fine quiet 0 _ (new 5 3)).
    + apply new_wellFormed; lia.
    + vm_compute. repeat constructor.
  - split; [exact Hc|]. unfold lineAt. rewrite Hrows. vm_compute. reflexivity.
Defined.

(** ** Resizing *)





Lemma nth_error_repeat {A} (v : A) (n i : nat) :
  nth_error (repeat v n) i = if i <? n then Some v else None.
Proof.
  revert i; induction n as [|n IH]; intro i; [now destruct i|].
  destruct i; [reflexivity|]. cbn [repeat nth_error]. rewrite IH.
  now destruct (Nat.ltb_spec i n), (Nat.ltb_spec (S i) (S n)); try lia.
Qed.














(** ** Deleting characters *)

Lemma set_nth {A} (r : Js.Array A) (i : nat) (v : A) (j : nat) :
  i < length r ->
  nth_error (Js.set r i v) j = (if j =? i then Some (Js.Val v) else nth_error r j) /\
  length (Js.set r i v) = length r.
Proof.
  revert i j; induction r as [|s r IH]; intros i j Hi; [cbn in Hi; lia|].
  destruct i as [|i]; cbn [Js.set length].
  - split; [now destruct j | reflexivity].
  - destruct (IH i (pred j)) as [H1 H2]; [cbn in Hi; lia|].
    split; [|now rewrite H2].
    destruct j as [|j]; [reflexivity|]. cbn [nth_error pred] in *. exact H1.
Qed.

Lemma set_isVal {A} (r : Js.Array A) (i : nat) (v : A) :
  i < length r -> Forall isVal r -> Forall isVal (Js.set r i v).
Proof.
  revert i; induction r as [|s r IH]; intros i Hi H; [cbn in Hi; lia|].
  inversion H; subst. destruct i as [|i]; cbn [Js.set].
  - constructor; [exact I | assumption].
  - constructor; [assumption | apply IH; [cbn in Hi; lia | assumption]].
Qed.

Lemma whole_get (r : Row) (i : nat) :
  Forall isVal r -> i < length r ->
  nth_error r i = Some (Js.Val (cloneCell (Js.get r i))).
Proof.
  intros H Hi. unfold Js.get.
  destruct (nth_error r i) as [s|] eqn:E; [|apply nth_error_None in E; lia].
  assert (Hs : isVal s) by (eapply Forall_forall; [exact H | eapply nth_error_In; exact E]).
  destruct s; try contradiction. reflexivity.
Qed.

Lemma shiftCells_run (y n x : nat) (u : VirtualTerminal) (r : Row) :
  nth_error (buffer u) y = Some r -> Forall isVal r ->
  n = 0 \/ x + n < length r ->
  exists r',
    forEach (seq x n)
      (fun j => r0 <- readRow y ;; setCell y j (cloneCell (Js.get r0 (j + 1)))) u
    = (Normal tt, set_buffer (putRow (buffer u) y r') u) /\
    length r' = length r /\ Forall isVal r' /\
    forall j,
      nth_error r' j
      = if (x <=? j) && (j <? x + n) then nth_error r (j + 1) else nth_error r j.
Proof.
  revert x u r; induction n as [|n IH]; intros x u r Er Hr Hn.
  - exists r. cbn [seq forEach]. rewrite (putRow_same _ _ _ Er), set_buffer_same.
    repeat split; [exact Hr|]. intro j. split_tests; reflexivity.
  - destruct Hn as [Hn|Hn]; [discriminate Hn|].
    pose proof (nth_error_lt _ _ _ Er) as Hy.
    cbn [seq forEach]. rewrite bind_run, bind_run, readRow_run, Er.
    rewrite (setCell_run _ _ _ _ _ Er).
    assert (Hxl : x < length r) by lia.
    set (r1 := Js.set r x (cloneCell (Js.get r (x + 1)))).
    set (u1 := set_buffer (putRow (buffer u) y r1) u).
    assert (E1 : nth_error (buffer u1) y = Some r1)
      by (cbn; rewrite putRow_nth by exact Hy; now rewrite Nat.eqb_refl).
    assert (Hset : forall j, nth_error r1 j
                             = if j =? x then nth_error r (x + 1) else nth_error r j).
    { intro j. subst r1. rewrite (proj1 (set_nth r x _ j Hxl)).
      destruct (j =? x); [|reflexivity]. symmetry. apply whole_get; [exact Hr | lia]. }
    assert (Hl1 : length r1 = length r) by (apply (set_nth r x _ 0 Hxl)).
    assert (Hv1 : Forall isVal r1) by (apply set_isVal; [lia | exact Hr]).
    destruct (IH (S x) u1 r1 E1 Hv1) as (r' & Hrun & Hlen & Hv & Hnth); [right; lia|].
    exists r'. rewrite Hrun. subst u1. cbn [buffer set_buffer].
    rewrite putRow_putRow by exact Hy.
    repeat split; [congruence | exact Hv|].
    intro j. rewrite Hnth, !Hset.
    split_tests; try reflexivity; subst; try lia; f_equal; lia.
Qed.

Lemma deleteOne_run (t : VirtualTerminal) (r : Row) :
  nth_error (buffer t) (Cursor.y (cursor t)) = Some r ->
  Forall isVal r -> cols t <= length r -> Cursor.x (cursor t) < cols t ->
  exists r',
    deleteCharacters 1 t
    = (Normal tt, set_buffer (putRow (buffer t) (Cursor.y (cursor t)) r') t) /\
    length r' = length r /\ Forall isVal r' /\
    forall j, nth_error r' j = deletedCell 1 t r j.
Proof.
  intros Er Hr Hc Hx. pose proof (nth_error_lt _ _ _ Er) as Hy.
  destruct (shiftCells_run (Cursor.y (cursor t)) (cols t - 1 - Cursor.x (cursor t))
              (Cursor.x (cursor t)) t r Er Hr) as (r1 & Hrun & Hlen & Hv & Hnth);
    [lia|].
  assert (Hlast : cols t - 1 < length r1) by lia.
  set (u1 := set_buffer (putRow (buffer t) (Cursor.y (cursor t)) r1) t) in *.
  assert (E1 : nth_error (buffer u1) (Cursor.y (cursor t)) = Some r1)
    by (cbn; rewrite putRow_nth by exact Hy; now rewrite Nat.eqb_refl).
  exists (Js.set r1 (cols t - 1) (blank t)). split; [|split; [|split]].
  - unfold deleteCharacters, times, range. rewrite bind_run. cbn [get seq Nat.sub forEach].
    rewrite bind_run, bind_run. cbn [get]. unfold range.
    rewrite bind_run, Hrun, bind_run. cbn [get].
    rewrite (setCell_run _ _ _ _ _ E1). subst u1. cbn [buffer set_buffer cols].
    rewrite putRow_putRow by exact Hy. reflexivity.
  - rewrite (proj2 (set_nth r1 (cols t - 1) (blank t) 0 Hlast)). exact Hlen.
  - apply set_isVal; [lia | exact Hv].
  - intro j. rewrite (proj1 (set_nth r1 (cols t - 1) (blank t) j Hlast)), Hnth.
    unfold deletedCell. split_tests; try reflexivity; try lia; f_equal; lia.
Qed.

Lemma deleteCharacters_add (a b : nat) (t : VirtualTerminal) (r' : Row) :
  deleteCharacters a t
  = (Normal tt, set_buffer (putRow (buffer t) (Cursor.y (cursor t)) r') t) ->
  deleteCharacters (a + b) t
  = deleteCharacters b (set_buffer (putRow (buffer t) (Cursor.y (cursor t)) r') t).
Proof.
  unfold deleteCharacters. rewrite !bind_run. cbn [get]. intro H.
  rewrite times_add, bind_run, H. reflexivity.
Qed.

Lemma deleteCharacters_closed (k : nat) (t : VirtualTerminal) (r : Row) :
  nth_error (buffer t) (Cursor.y (cursor t)) = Some r ->
  Forall isVal r -> cols t <= length r -> Cursor.x (cursor t) < cols t ->
  exists r',
    deleteCharacters k t
    = (Normal tt, set_buffer (putRow (buffer t) (Cursor.y (cursor t)) r') t) /\
    length r' = length r /\ Forall isVal r' /\
    forall j, nth_error r' j = deletedCell k t r j.
Proof.
  revert t r; induction k as [|k IH]; intros t r Er Hr Hc Hx.
  - exists r. split; [|split; [reflexivity | split; [exact Hr|]]].
    + unfold deleteCharacters. rewrite bind_run. cbn.
      now rewrite (putRow_same _ _ _ Er), set_buffer_same.
    + intro j. unfold deletedCell. rewrite Nat.add_0_r.
      split_tests; reflexivity.
  - pose proof (nth_error_lt _ _ _ Er) as Hy.
    destruct (deleteOne_run t r Er Hr Hc Hx) as (r1 & Hrun1 & Hl1 & Hv1 & Hn1).
    change (S k) with (1 + k). rewrite (deleteCharacters_add 1 k t r1 Hrun1).
    set (t1 := set_buffer (putRow (buffer t) (Cursor.y (cursor t)) r1) t).
    assert (E1 : nth_error (buffer t1) (Cursor.y (cursor t1)) = Some r1)
      by (cbn; rewrite putRow_nth by exact Hy; now rewrite Nat.eqb_refl).
    destruct (IH t1 r1 E1 Hv1) as (r' & Hrun & Hlen & Hv & Hnth);
      [cbn; lia | exact Hx |].
    exists r'. rewrite Hrun. subst t1. cbn [buffer set_buffer cursor].
    rewrite putRow_putRow by exact Hy.
    split; [reflexivity | split; [congruence | split; [exact Hv|]]].
    intro j. rewrite Hnth. unfold deletedCell.
    cbn [cursor cols set_buffer].
    change (blank (set_buffer (putRow (buffer t) (Cursor.y (cursor t)) r1) t))
      with (blank t).
    rewrite !Hn1. unfold deletedCell.
    split_tests; try reflexivity; try lia; f_equal; lia.
Qed.

(** X13.  [deleteCharacters(k)], for a count [k] that is a safe
    integer (the loop of the source does not end on a larger one), with
    the cursor on the screen, on a cursor row that has a cell for every
    column, returns and rewrites that row only: the cells left of the cursor stay, the cells from
    [k] columns right of the cursor on move [k] columns to the left,
    the last [k] columns of the line become blank with the current
    attributes, and the row keeps its length.  With [k] at least the
    distance to the end of the line, everything from the cursor on
    is blank. *)
Theorem deleteCharacters_shifts_left :
  forall k t r,
    safeInteger k = true ->
    nth_error (buffer t) (Cursor.y (cursor t)) = Some r ->
    Forall isVal r -> cols t <= length r -> Cursor.x (cursor t) < cols t ->
    exists r',
      deleteCharacters k t
      = (Normal tt, set_buffer (putRow (buffer t) (Cursor.y (cursor t)) r') t) /\
      length r' = length r /\
      (forall j, nth_error r' j = deletedCell k t r j) /\
      (cols t - Cursor.x (cursor t) <= k ->
       forall j, Cursor.x (cursor t) <= j < cols t ->
                 nth_error r' j = Some (Js.Val (blank t))).
Proof.
  intros k t r _ Er Hr Hc Hx.
  destruct (deleteCharacters_closed k t r Er Hr Hc Hx) as (r' & Hrun & Hlen & _ & Hnth).
  exists r'. split; [exact Hrun | split; [exact Hlen | split; [exact Hnth|]]].
  intros Hk j Hj. rewrite Hnth. unfold deletedCell.
  split_tests; try lia; reflexivity.
Qed.

(** The statement of X13 at work: "abcde" with the cursor on "c"
    becomes "abde ". *)
Lemma deleteCharacters_shifts_left_witness :
  exists r',
    deleteCharacters 1 screenAbcde
    = (Normal tt,
       set_buffer (putRow (buffer screenAbcde) (Cursor.y (cursor screenAbcde)) r')
                  screenAbcde) /\
    length r' = length (map (printed Attr.default) (str "abcde")) /\
    (forall j, nth_error r' j
               = deletedCell 1 screenAbcde (map (printed Attr.default) (str "abcde")) j) /\
    (cols screenAbcde - Cursor.x (cursor screenAbcde) <= 1 ->
     forall j, Cursor.x (cursor screenAbcde) <= j < cols screenAbcde ->
               nth_error r' j = Some (Js.Val (blank screenAbcde))).
Proof.
  apply (deleteCharacters_shifts_left 1 screenAbcde
           (map (printed Attr.default) (str "abcde"))).
  - reflexivity.
  - vm_compute. reflexivity.
  - repeat constructor.
  - vm_compute. lia.
  - vm_compute. lia.
Defined.

(** ** Decoding CSI parameters *)

Lemma digitsValue_snoc (acc : nat) (ds : JsString) (d : CodeUnit) :
  digits ds -> isDigit d = true ->
  digitsValue acc (ds ++ [d]) = 10 * digitsValue acc ds + (d - 48).
Proof.
  intro H. revert acc; induction H as [|x ds Hx Hds IH]; intros acc Hd.
  - cbn [app digitsValue]. now rewrite Hd.
  - cbn [app digitsValue]. rewrite Hx. now apply IH.
Qed.

Lemma paramValue_digits (ds : JsString) :
  digits ds -> paramValue ds = digitsValue 0 ds.
Proof.
  unfold paramValue, parseInt. intro H. destruct H as [|d ds Hd Hds]; [reflexivity|].
  rewrite Hd. cbn [Js.orElse]. now destruct (digitsValue 0 (d :: ds)).
Qed.

Lemma processChar_csi (c : CodeUnit) (t : VirtualTerminal) :
  mode t = ParseState.csi -> processChar c t = handleCSIChar c t.
Proof. unfold mode, processChar. intro H. rewrite bind_run. cbn [get]. now rewrite H. Qed.

Lemma processChars_digits (ds : JsString) (t : VirtualTerminal) :
  mode t = ParseState.csi -> digits ds ->
  processChars ds t
  = (Normal tt,
     set_parseState
       (ParseState.with_current (ParseState.current (parseState t) ++ ds) (parseState t))
       t).
Proof.
  unfold processChars. intros Hm H. revert t Hm.
  induction H as [|d ds Hd Hds IH]; intros t Hm.
  - cbn [forEach ret]. rewrite app_nil_r. f_equal.
    destruct t as [? ? ? ? ? ? ? ? ? ? p]; destruct p; reflexivity.
  - cbn [forEach]. rewrite bind_run, (processChar_csi d t Hm).
    unfold handleCSIChar. rewrite Hd. cbn [modify].
    rewrite IH by exact Hm. f_equal.
    cbn [parseState set_parseState ParseState.current ParseState.with_current
         ParseState.state ParseState.params ParseState.intermediate].
    now rewrite <- app_assoc.
Qed.

Lemma isFinal_tests (c : CodeUnit) :
  isFinal c = true ->
  isDigit c = false /\ isChar c ";" = false /\
  (32 <=? c) && (c <=? 47) = false /\ isChar c "?" = false.
Proof.
  unfold isFinal. intro H. apply negb_true_iff in H.
  repeat (apply orb_false_elim in H; destruct H as [H ?]). repeat split; assumption.
Qed.

Lemma processChar_final (c : CodeUnit) (ps : list nat) (cur : JsString)
    (t : VirtualTerminal) :
  isFinal c = true ->
  parseState t = ParseState.mk ParseState.csi ps cur [] ->
  processChar c t
  = (handleCSISequence c
       (ps ++ match cur with [] => [] | _ => [paramValue cur] end) [] ;;
     setParseMode ParseState.normal)
      (set_parseState
         (ParseState.mk ParseState.csi
            (ps ++ match cur with [] => [] | _ => [paramValue cur] end) cur []) t).
Proof.
  intros Hc Hp. rewrite processChar_csi by (unfold mode; now rewrite Hp).
  destruct (isFinal_tests c Hc) as (T1 & T2 & T3 & T4).
  unfold handleCSIChar. rewrite T1, T2, T3, T4.
  destruct t as [? ? ? ? ? ? ? ? ? ? p]. cbn [parseState] in Hp. subst p.
  destruct cur as [|d cur].
  - rewrite app_nil_r. reflexivity.
  - reflexivity.
Qed.

Lemma processChar_semicolon (ps : list nat) (cur : JsString) (t : VirtualTerminal) :
  parseState t = ParseState.mk ParseState.csi ps cur [] ->
  processChar (nat_of_ascii ";") t
  = (Normal tt,
     set_parseState (ParseState.mk ParseState.csi (ps ++ [paramValue cur]) [] []) t).
Proof.
  intro Hp. rewrite processChar_csi by (unfold mode; now rewrite Hp).
  destruct t as [? ? ? ? ? ? ? ? ? ? p]. cbn [parseState] in Hp. subst p.
  reflexivity.
Qed.

Lemma processChars_run_digits (ds : JsString) (ps : list nat) (t : VirtualTerminal) :
  digits ds ->
  parseState t = ParseState.mk ParseState.csi ps [] [] ->
  processChars ds t
  = (Normal tt, set_parseState (ParseState.mk ParseState.csi ps ds []) t).
Proof.
  intros Hd Hp. rewrite processChars_digits by (try exact Hd; unfold mode; now rewrite Hp).
  now rewrite Hp.
Qed.

Lemma set_parseState_twice (p q : ParseState.t) (t : VirtualTerminal) :
  set_parseState p (set_parseState q t) = set_parseState p t.
Proof. reflexivity. Qed.

(** The parser in CSI mode with parameters [ps] gathered and nothing
    pending. *)
Lemma processChars_params (dss : list JsString) (c : CodeUnit) (ps : list nat)
    (t : VirtualTerminal) :
  dss <> [] -> Forall digits dss -> isFinal c = true ->
  parseState t = ParseState.mk ParseState.csi ps [] [] ->
  processChars (joinParams dss ++ [c]) t
  = (handleCSISequence c (ps ++ decodedParams dss) [] ;;
     setParseMode ParseState.normal)
      (set_parseState
         (ParseState.mk ParseState.csi (ps ++ decodedParams dss) (last dss []) []) t).
Proof.
  intros Hne Hd Hc. revert ps t.
  induction Hd as [|ds rest Hds Hrest IH]; [contradiction|]. intros ps t Hp.
  destruct rest as [|ds2 rest].
  - cbn [joinParams decodedParams last].
    rewrite processChars_app, bind_run, (processChars_run_digits ds ps t Hds Hp).
    unfold processChars. cbn [forEach]. rewrite bind_run.
    rewrite (processChar_final c ps ds) by (exact Hc || reflexivity).
    rewrite set_parseState_twice.
    match goal with
    | |- (let (c0, t') := ?m in _) = _ => destruct m as [[[]|e] u]; reflexivity
    end.
  - change (joinParams (ds :: ds2 :: rest))
      with (ds ++ nat_of_ascii ";" :: joinParams (ds2 :: rest)).
    change (decodedParams (ds :: ds2 :: rest))
      with (paramValue ds :: decodedParams (ds2 :: rest)).
    change (last (ds :: ds2 :: rest) []) with (last (ds2 :: rest) []).
    rewrite <- app_assoc, processChars_app, bind_run,
      (processChars_run_digits ds ps t Hds Hp).
    change ((nat_of_ascii ";" :: joinParams (ds2 :: rest)) ++ [c])
      with ([nat_of_ascii ";"] ++ (joinParams (ds2 :: rest) ++ [c])).
    rewrite processChars_app, bind_run.
    unfold processChars at 1. cbn [forEach]. rewrite bind_run.
    rewrite (processChar_semicolon ps ds) by reflexivity.
    rewrite set_parseState_twice. cbn [ret].
    rewrite (IH ltac:(discriminate) (ps ++ [paramValue ds])) by reflexivity.
    rewrite set_parseState_twice, <- app_assoc. reflexivity.
Qed.

Lemma processChars_csi_intro (t : VirtualTerminal) :
  mode t = ParseState.normal ->
  processChars (ESC :: str "[") t
  = (Normal tt, set_parseState (freshParse ParseState.csi) t).
Proof.
  intro Hm. unfold processChars. cbn [str map list_ascii_of_string forEach].
  rewrite bind_run, (processChar_normal ESC t Hm). reflexivity.
Qed.

Lemma csi_sequence_run (dss : list JsString) (c : CodeUnit) (t : VirtualTerminal) :
  mode t = ParseState.normal ->
  dss <> [] -> Forall digits dss -> isFinal c = true ->
  processChars (ESC :: str "[" ++ joinParams dss ++ [c]) t
  = (handleCSISequence c (decodedParams dss) [] ;; setParseMode ParseState.normal)
      (set_parseState
         (ParseState.mk ParseState.csi (decodedParams dss) (last dss []) []) t).
Proof.
  intros Hm Hne Hd Hc.
  change (ESC :: str "[" ++ joinParams dss ++ [c])
    with ((ESC :: str "[") ++ (joinParams dss ++ [c])).
  rewrite processChars_app, bind_run, (processChars_csi_intro t Hm).
  rewrite (processChars_params dss c [] _ Hne Hd Hc) by reflexivity.
  reflexivity.
Qed.

(** X14.  The parser decodes the parameters of a CSI sequence as
    decimal numbers separated by [;]: from normal mode, [ESC []
    followed by runs of digits separated by [;], each denoting a safe
    integer (on longer runs [parseInt] rounds), and a final character
    calls [handleCSISequence] with that final character and one number
    for each run, an empty run counting as 0, except that an empty last
    run gives no number at all; then the parser is back in normal mode.
    A run of digits that denotes a safe integer has its positional
    decimal value. *)
Theorem csi_parameters_are_decoded :
  forall dss c t,
    mode t = ParseState.normal ->
    dss <> [] -> Forall digits dss ->
    Forall (fun ds => safeInteger (paramValue ds) = true) dss ->
    isFinal c = true ->
    processChars (ESC :: str "[" ++ joinParams dss ++ [c]) t
    = (handleCSISequence c (decodedParams dss) [] ;; setParseMode ParseState.normal)
        (set_parseState
           (ParseState.mk ParseState.csi (decodedParams dss) (last dss []) []) t) /\
    paramValue [] = 0 /\
    (forall ds d, digits ds -> isDigit d = true ->
                  safeInteger (10 * paramValue ds + (d - 48)) = true ->
                  paramValue (ds ++ [d]) = 10 * paramValue ds + (d - 48)).
Proof.
  intros dss c t Hm Hne Hd _ Hc.
  split; [now apply csi_sequence_run | split; [reflexivity|]].
  intros ds d Hds Hdd _.
  assert (H : digits (ds ++ [d])) by (apply Forall_app; split; [exact Hds | now constructor]).
  rewrite (paramValue_digits _ H), (paramValue_digits _ Hds).
  now apply digitsValue_snoc.
Qed.

(** The statement of X14 at work on [CSI 12;;5 m]. *)
Lemma csi_parameters_are_decoded_witness :
  processChars (ESC :: str "[" ++ joinParams [str "12"; []; str "5"] ++ [nat_of_ascii "m"])
               (new 20 5)
  = (handleCSISequence (nat_of_ascii "m") (decodedParams [str "12"; []; str "5"]) [] ;;
     setParseMode ParseState.normal)
      (set_parseState
         (ParseState.mk ParseState.csi (decodedParams [str "12"; []; str "5"])
            (last [str "12"; []; str "5"] []) [])
         (new 20 5)) /\
  decodedParams [str "12"; []; str "5"] = [12; 0; 5].
Proof.
  split; [|reflexivity].
  apply (csi_parameters_are_decoded [str "12"; []; str "5"] (nat_of_ascii "m") (new 20 5)).
  - reflexivity.
  - discriminate.
  - repeat constructor.
  - repeat constructor.
  - reflexivity.
Defined.

(** X15.  [CSI row ; col H] moves the cursor to the 1-based position
    it names, clamped to the screen: a missing or zero number counts
    as 1, a row or column past the last one as the last one.  Nothing
    but the cursor and the parse state changes. *)
Theorem cursor_position_sequence :
  forall ds1 ds2 t,
    mode t = ParseState.normal -> digits ds1 -> digits ds2 ->
    exists p,
      processChars (ESC :: str "[" ++ joinParams [ds1; ds2] ++ str "H") t
      = (Normal tt,
         set_parseState p
           (set_cursor
              (Cursor.mk (Nat.min (cols t - 1) (Nat.max 1 (paramValue ds2) - 1))
                         (Nat.min (rows t - 1) (Nat.max 1 (paramValue ds1) - 1)))
              t)) /\
      ParseState.state p = ParseState.normal.
Proof.
  intros ds1 ds2 t Hm H1 H2.
  exists (ParseState.mk ParseState.normal (decodedParams [ds1; ds2]) ds2 []).
  split; [|reflexivity].
  assert (Hrun := csi_sequence_run [ds1; ds2] (nat_of_ascii "H") t Hm
                    ltac:(discriminate)
                    (Forall_cons ds1 H1 (Forall_cons ds2 H2 (Forall_nil _))) eq_refl).
  etransitivity; [exact Hrun|]. clear Hrun.
  cbn [decodedParams last].
  assert (E : forall v rest,
             Js.orElse (param (v :: rest) 0) 1 = Nat.max 1 v).
  { intros v rest. cbn. destruct v; reflexivity. }
  assert (E2 : Js.orElse
                 (param (paramValue ds1 :: match ds2 with
                                           | [] => []
                                           | _ :: _ => [paramValue ds2]
                                           end) 1) 1
               = Nat.max 1 (paramValue ds2)).
  { destruct ds2; cbn [param nth_error]; [reflexivity|].
    cbn [Js.orElse]. now destruct (paramValue (c :: ds2)). }
  unfold handleCSISequence. cbn [isChar nat_of_ascii Nat.eqb orb].
  rewrite bind_run. unfold setCursorPosition. cbn [modify].
  rewrite E, E2. cbn [Nat.max]. reflexivity.
Qed.

(** The statement of X15 at work on [CSI 2;99 H] sent to a new 20x5
    terminal. *)
Lemma cursor_position_sequence_witness :
  exists p,
    processChars (ESC :: str "[" ++ joinParams [str "2"; str "99"] ++ str "H") (new 20 5)
    = (Normal tt,
       set_parseState p
         (set_cursor
            (Cursor.mk (Nat.min (cols (new 20 5) - 1) (Nat.max 1 (paramValue (str "99")) - 1))
                       (Nat.min (rows (new 20 5) - 1) (Nat.max 1 (paramValue (str "2")) - 1)))
            (new 20 5))) /\
    ParseState.state p = ParseState.normal.
Proof.
  apply (cursor_position_sequence (str "2") (str "99") (new 20 5)).
  - reflexivity.
  - repeat constructor.
  - repeat constructor.
Defined.

(** ** Tab stops *)

(** X16.  On a screen with at least one column [tab()] returns and
    changes nothing but the cursor column, which becomes the next tab
    stop (the one multiple of 8 that is right of the cursor and at
    most 8 columns away) or the last column, whichever is less: the
    cursor never wraps to the next line, and from the last column or
    from the position past it it lands on the last column. *)
Theorem tab_moves_to_next_stop :
  forall t : VirtualTerminal,
    1 <= cols t ->
    exists stop,
      (exists q, stop = 8 * q) /\
      Cursor.x (cursor t) < stop <= Cursor.x (cursor t) + 8 /\
      tab t = (Normal tt,
               set_cursor (Cursor.mk (Nat.min stop (cols t - 1)) (Cursor.y (cursor t))) t) /\
      (stop <= cols t - 1 -> Cursor.x (cursor (stateAfter tab t)) = stop) /\
      (cols t - 1 <= Cursor.x (cursor t) ->
       Cursor.x (cursor (stateAfter tab t)) = cols t - 1) /\
      Cursor.x (cursor (stateAfter tab t)) < cols t.
Proof.
  intros t Hc.
  pose proof (Nat.div_mod_eq (Cursor.x (cursor t)) 8) as Hd.
  pose proof (Nat.mod_upper_bound (Cursor.x (cursor t)) 8 ltac:(lia)) as Hm.
  exists (Cursor.x (cursor t) / 8 * 8 + 8).
  cbn [stateAfter tab modify snd cursor set_cursor Cursor.x].
  set (q := Cursor.x (cursor t) / 8) in *.
  split; [exists (q + 1); lia|].
  split; [lia|]. split; [reflexivity|]. repeat split; lia.
Qed.

(** The statement of X16 at work: from column 12 of 20 the cursor
    moves to column 16. *)
Lemma tab_moves_to_next_stop_witness :
  1 <= cols (after (write quiet 0 (str "abcdefghijkl") (new 20 3))) /\
  exists stop,
    (exists q, stop = 8 * q) /\
    Cursor.x (cursor (after (write quiet 0 (str "abcdefghijkl") (new 20 3)))) < stop
    <= Cursor.x (cursor (after (write quiet 0 (str "abcdefghijkl") (new 20 3)))) + 8 /\
    tab (after (write quiet 0 (str "abcdefghijkl") (new 20 3)))
    = (Normal tt,
       set_cursor
         (Cursor.mk
            (Nat.min stop (cols (after (write quiet 0 (str "abcdefghijkl") (new 20 3))) - 1))
            (Cursor.y (cursor (after (write quiet 0 (str "abcdefghijkl") (new 20 3))))))
         (after (write quiet 0 (str "abcdefghijkl") (new 20 3)))) /\
    (stop <= cols (after (write quiet 0 (str "abcdefghijkl") (new 20 3))) - 1 ->
     Cursor.x (cursor (stateAfter tab (after (write quiet 0 (str "abcdefghijkl") (new 20 3)))))
     = stop) /\
    (cols (after (write quiet 0 (str "abcdefghijkl") (new 20 3))) - 1
     <= Cursor.x (cursor (after (write quiet 0 (str "abcdefghijkl") (new 20 3)))) ->
     Cursor.x (cursor (stateAfter tab (after (write quiet 0 (str "abcdefghijkl") (new 20 3)))))
     = cols (after (write quiet 0 (str "abcdefghijkl") (new 20 3))) - 1) /\
    Cursor.x (cursor (stateAfter tab (after (write quiet 0 (str "abcdefghijkl") (new 20 3)))))
    < cols (after (write quiet 0 (str "abcdefghijkl") (new 20 3))).
Proof.
  split; [vm_compute; lia|].
  apply (tab_moves_to_next_stop (after (write quiet 0 (str "abcdefghijkl") (new 20 3)))).
  vm_compute. lia.
Defined.

(** ** The screen hash *)

Lemma toInt32_range (z : Z) : isInt32 (toInt32 z).
Proof.
  unfold isInt32, toInt32.
  pose proof (Z.mod_pos_bound (z + 2147483648) 4294967296 ltac:(lia)). lia.
Qed.

Lemma hash_range (w : JsString) (h : Z) :
  isInt32 h ->
  isInt32 (fold_left (fun hash char =>
                        toInt32 (toInt32 (hash * 32) - hash + Z.of_nat char)%Z) w h).
Proof.
  revert h; induction w as [|c w IH]; intros h Hh; [exact Hh|].
  cbn [fold_left]. apply IH, toInt32_range.
Qed.

Lemma getScreenHash_run (t : VirtualTerminal) :
  getScreenHash t
  = match render (buffer t) with
    | Some w =>
        (Normal (fold_left (fun hash char =>
                              toInt32 (toInt32 (hash * 32) - hash + Z.of_nat char)%Z)
                           w 0%Z), t)
    | None => (Throw TypeError, t)
    end.
Proof.
  unfold getScreenHash. rewrite bind_run, toString_run.
  destruct (render (buffer t)); reflexivity.
Qed.

(** X17.  [getScreenHash()] raises exactly when the screen text cannot
    be read, changes nothing, and otherwise returns a signed 32-bit
    integer that depends on the screen text only.  [markAsRead()]
    clears the unread-change flag first and then stores that hash: when
    the hash cannot be computed it raises with the flag already
    cleared and the stored hash left as it was. *)
Theorem screen_hash_is_int32 :
  forall t : VirtualTerminal,
    stateAfter getScreenHash t = t /\
    match completionOf getScreenHash t with
    | Normal h => isInt32 h /\ render (buffer t) <> None
    | Throw _ => render (buffer t) = None
    end /\
    (forall t', render (buffer t') = render (buffer t) ->
                completionOf getScreenHash t' = completionOf getScreenHash t) /\
    match completionOf getScreenHash t with
    | Normal h =>
        markAsRead t
        = (Normal tt, set_lastScreenHash (Some h) (set_hasChangedSinceLastCheck false t))
    | Throw e =>
        markAsRead t = (Throw e, set_hasChangedSinceLastCheck false t)
    end.
Proof.
  intro t. unfold stateAfter, completionOf. rewrite getScreenHash_run.
  split; [now destruct (render (buffer t))|]. split; [|split].
  - destruct (render (buffer t)) as [w|]; cbn [fst]; [|reflexivity].
    split; [|discriminate]. apply hash_range. unfold isInt32. lia.
  - intros t' E. rewrite getScreenHash_run, E. now destruct (render (buffer t)).
  - unfold markAsRead. rewrite bind_run. cbn [modify].
    rewrite bind_run, getScreenHash_run. cbn [buffer set_hasChangedSinceLastCheck].
    destruct (render (buffer t)); reflexivity.
Qed.

(** ** Saving and restoring the cursor *)

Lemma sameSaved_refl t : sameSaved t t.
Proof. reflexivity. Qed.

Lemma sameSaved_trans t1 t2 t3 : sameSaved t1 t2 -> sameSaved t2 t3 -> sameSaved t1 t3.
Proof. unfold sameSaved; congruence. Qed.

Ltac saved_frame := frame_with sameSaved_refl sameSaved_trans ltac:(reflexivity).

Lemma handleCSISequence_sameSaved (c : CodeUnit) (ps : list nat) (i : JsString) :
  isChar c "s" = false -> preserves sameSaved (handleCSISequence c ps i).
Proof. intro H. unfold handleCSISequence. rewrite H. saved_frame. Qed.

Lemma handleEscapeChar_sameSaved (c : CodeUnit) :
  maySave ParseState.escape c = false -> preserves sameSaved (handleEscapeChar c).
Proof.
  cbn [maySave]. intro H. apply orb_false_elim in H. destruct H as [H7 Hc].
  unfold handleEscapeChar. rewrite H7, Hc. saved_frame.
Qed.

Lemma processChar_sameSaved (c : CodeUnit) (t : VirtualTerminal) :
  maySave (mode t) c = false -> sameSaved t (stateAfter (processChar c) t).
Proof.
  intro H. unfold processChar. rewrite stateAfter_bind.
  cbn [completionOf stateAfter get fst snd]. unfold mode in H.
  destruct (ParseState.state (parseState t)).
  - assert (Hs : preserves sameSaved (handleNormalChar c)) by saved_frame. apply Hs.
  - apply (handleEscapeChar_sameSaved c H).
  - cbn [maySave] in H.
    assert (Hs : preserves sameSaved (handleCSIChar c)).
    { unfold handleCSIChar.
      destruct (isDigit c); [saved_frame|]. destruct (isChar c ";"); [saved_frame|].
      destruct ((32 <=? c) && (c <=? 47)); [saved_frame|].
      destruct (isChar c "?"); [saved_frame|].
      apply (preserves_bind _ sameSaved_trans);
        [apply (preserves_get _ sameSaved_refl) | intro t0].
      apply (preserves_bind _ sameSaved_trans);
        [apply (preserves_when _ sameSaved_refl); saved_frame | intros _].
      apply (preserves_bind _ sameSaved_trans);
        [apply (preserves_get _ sameSaved_refl) | intro t1].
      apply (preserves_bind _ sameSaved_trans);
        [now apply handleCSISequence_sameSaved | intros _].
      saved_frame. }
    apply Hs.
  - assert (Hs : preserves sameSaved (handleOSCChar c)) by saved_frame. apply Hs.
Qed.

Lemma processChars_sameSaved (data : JsString) (t : VirtualTerminal) :
  saveFree (mode t) data = true ->
  sameSaved t (stateAfter (processChars data) t).
Proof.
  unfold processChars. revert t.
  induction data as [|c rest IH]; intros t H; [reflexivity|].
  cbn [saveFree] in H. apply andb_prop in H. destruct H as [Hc Hr].
  apply negb_true_iff in Hc.
  pose proof (processChar_sameSaved c t Hc) as Hs.
  pose proof (processChar_mode c t) as Hm.
  cbn [forEach]. rewrite stateAfter_bind.
  destruct (completionOf (processChar c) t); [|exact Hs].
  rewrite <- Hm in Hr. eapply sameSaved_trans; [exact Hs | now apply IH].
Qed.

Lemma save_run (save : JsString) (t : VirtualTerminal) :
  In save [sequenceSave; sequenceSaveCSI] ->
  mode t = ParseState.normal ->
  exists p,
    processChars save t = (Normal tt, set_parseState p (set_savedCursor (cursor t) t)) /\
    ParseState.state p = ParseState.normal.
Proof.
  intros [<-|[<-|[]]] Hm.
  - exists (freshParse ParseState.normal). split; [|reflexivity].
    unfold processChars, sequenceSave. cbn [str map list_ascii_of_string forEach].
    rewrite bind_run, (processChar_normal ESC t Hm). reflexivity.
  - exists (freshParse ParseState.normal). split; [|reflexivity].
    unfold processChars, sequenceSaveCSI. cbn [str map list_ascii_of_string forEach].
    rewrite bind_run, (processChar_normal ESC t Hm). reflexivity.
Qed.

Lemma restore_run (restore : JsString) (t : VirtualTerminal) :
  In restore [sequenceRestore; sequenceRestoreCSI] ->
  mode t = ParseState.normal ->
  exists p,
    processChars restore t = (Normal tt, set_parseState p (set_cursor (savedCursor t) t)) /\
    ParseState.state p = ParseState.normal.
Proof.
  intros [<-|[<-|[]]] Hm.
  - exists (freshParse ParseState.normal). split; [|reflexivity].
    unfold processChars, sequenceRestore. cbn [str map list_ascii_of_string forEach].
    rewrite bind_run, (processChar_normal ESC t Hm). reflexivity.
  - exists (freshParse ParseState.normal). split; [|reflexivity].
    unfold processChars, sequenceRestoreCSI. cbn [str map list_ascii_of_string forEach].
    rewrite bind_run, (processChar_normal ESC t Hm). reflexivity.
Qed.

(** X18.  Saving and restoring the cursor is a round trip.  On a
    well-formed terminal in normal mode, [ESC 7] or [CSI s], then any
    chunk that ends in normal mode, contains neither of them nor
    [ESC c], keeps the top of the scroll region on the screen and
    the numbers the parser reads safe integers, then [ESC 8] or
    [CSI u], returns with the cursor where it was
    when it was saved: printing, scrolling, erasing, moving the cursor
    and switching to the alternate screen in between do not touch the
    saved position, and the two pairs of sequences share it. *)
Theorem saved_cursor_round_trip :
  forall save restore data t,
    In save [sequenceSave; sequenceSaveCSI] ->
    In restore [sequenceRestore; sequenceRestoreCSI] ->
    wellFormed t -> mode t = ParseState.normal ->
    saveFree ParseState.normal data = true ->
    modeAfter ParseState.normal data = ParseState.normal ->
    Forall topInside (charStates data (stateAfter (processChars save) t)) ->
    forallb smallNumbers (charStates data (stateAfter (processChars save) t)) = true ->
    completionOf (processChars (save ++ data ++ restore)) t = Normal tt /\
    cursor (stateAfter (processChars (save ++ data ++ restore)) t) = cursor t /\
    savedCursor (stateAfter (processChars (save ++ data ++ restore)) t) = cursor t.
Proof.
  intros save restore data t Hs Hr Hw Hm Hfree Hend Hi _.
  destruct (save_run save t Hs Hm) as (p1 & Hrun1 & Hp1).
  unfold stateAfter in Hi. rewrite Hrun1 in Hi. cbn [snd] in Hi.
  set (t1 := set_parseState p1 (set_savedCursor (cursor t) t)) in *.
  assert (Hw1 : wellFormed t1) by (subst t1; wf_leaf).
  assert (Hm1 : mode t1 = ParseState.normal) by exact Hp1.
  destruct (processChars_fine data t1 Hw1 Hi) as [Hc2 Hw2].
  pose proof (processChars_sameSaved data t1) as Hsv. rewrite Hm1 in Hsv.
  specialize (Hsv Hfree). unfold sameSaved in Hsv.
  destruct (processChars_mode data t1) as [Hmode Hall].
  rewrite (Hall Hc2), Hm1, Hend in Hmode.
  set (t2 := stateAfter (processChars data) t1) in *.
  destruct (restore_run restore t2 Hr Hmode) as (p3 & Hrun3 & Hp3).
  assert (Hrun : processChars (save ++ data ++ restore) t
                 = (Normal tt, set_parseState p3 (set_cursor (savedCursor t2) t2))).
  { rewrite processChars_app, bind_run, Hrun1. fold t1.
    rewrite processChars_app, bind_run, (run_pair (processChars data) t1), Hc2.
    fold t2. exact Hrun3. }
  unfold completionOf, stateAfter. rewrite Hrun.
  cbn [fst snd cursor savedCursor set_parseState set_cursor]. rewrite Hsv.
  repeat split.
Qed.

(** The statement of X18 at work: the cursor saved at the top left
    corner of a new 20x5 terminal, two lines of text and a cursor
    movement, and the cursor restored. *)
Lemma saved_cursor_round_trip_witness :
  completionOf
    (processChars (sequenceSave
                   ++ (str "Hello" ++ [CR; NEWLINE] ++ str "World" ++ ESC :: str "[4;7H")
                   ++ sequenceRestoreCSI)) (new 20 5) = Normal tt /\
  cursor (stateAfter
            (processChars (sequenceSave
                           ++ (str "Hello" ++ [CR; NEWLINE] ++ str "World"
                               ++ ESC :: str "[4;7H")
                           ++ sequenceRestoreCSI)) (new 20 5))
  = cursor (new 20 5) /\
  savedCursor (stateAfter
                 (processChars (sequenceSave
                                ++ (str "Hello" ++ [CR; NEWLINE] ++ str "World"
                                    ++ ESC :: str "[4;7H")
                                ++ sequenceRestoreCSI)) (new 20 5))
  = cursor (new 20 5).
Proof.
  apply (saved_cursor_round_trip sequenceSave sequenceRestoreCSI
           (str "Hello" ++ [CR; NEWLINE] ++ str "World" ++ ESC :: str "[4;7H")
           (new 20 5)).
  - now left.
  - right. now left.
  - apply new_wellFormed; lia.
  - reflexivity.
  - vm_compute. reflexivity.
  - vm_compute. reflexivity.
  - vm_compute. repeat constructor.
  - vm_compute. reflexivity.
Defined.

(** ** Scrolling down, inserting and deleting lines *)

Lemma whole_nth_spread (t : VirtualTerminal) (j : nat) :
  whole t ->
  option_map Js.spread (nth_error (buffer t) j) = nth_error (buffer t) j.
Proof.
  intros [_ Hb]. destruct (nth_error (buffer t) j) as [r|] eqn:E; [|reflexivity].
  cbn [option_map]. f_equal. apply whole_spread_id.
  assert (Hr : wholeRow (cols t) r)
    by (eapply Forall_forall; [exact Hb | eapply nth_error_In; exact E]).
  apply Hr.
Qed.

Lemma scrollDown_add (a b : nat) (t : VirtualTerminal) :
  scrollDown (a + b) t = (scrollDown a ;; scrollDown b) t.
Proof. apply times_add. Qed.

Lemma scrollDown_closed (n : nat) (t : VirtualTerminal) :
  wellFormed t ->
  exists b',
    scrollDown n t = (Normal tt, set_buffer b' t) /\
    forall i, nth_error b' i = scrolledDownBy n t i.
Proof.
  revert t; induction n as [|n IH]; intros t Hw.
  - exists (buffer t). split; [cbn; now rewrite set_buffer_same | reflexivity].
  - change (S n) with (1 + n). rewrite scrollDown_add, bind_run.
    pose proof (wellFormed_bounds t Hw) as (_ & _ & _ & Hb & Ht).
    assert (Hlen : length (buffer t) = rows t) by apply Hw.
    destruct (scrollDown_run t) as (b1 & Hrun & Hnth); [lia|lia|].
    rewrite Hrun.
    assert (Hw1 : wellFormed (set_buffer b1 t)).
    { destruct (scrollDown_paints 1 t Hw) as (_ & Hs & Hwh).
      unfold stateAfter in Hs, Hwh. rewrite Hrun in Hs, Hwh.
      now apply (wellFormed_painted t). }
    destruct (IH _ Hw1) as (b' & Hrun' & Hnth').
    exists b'. rewrite Hrun'. split; [reflexivity|].
    intro i. rewrite Hnth'. unfold scrolledDownBy.
    cbn [scrollRegion cols buffer set_buffer]. change (blank (set_buffer b1 t)) with (blank t).
    set (top := ScrollRegion.top (scrollRegion t)) in *.
    set (bottom := ScrollRegion.bottom (scrollRegion t)) in *.
    rewrite !Hnth. unfold regionScrolledDown. fold top bottom.
    pose proof (whole_nth_spread t (i - 1) (proj1 (proj2 Hw))) as C1.
    pose proof (whole_nth_spread t (i - n - 1) (proj1 (proj2 Hw))) as C2.
    rewrite Nat.eqb_refl.
    destruct (nth_error (buffer t) top) as [rb|] eqn:Eb;
      [|apply nth_error_None in Eb; lia].
    cbn [option_map Nat.add]. rewrite clearedRow_twice.
    destruct n as [|n]; cbn [Nat.eqb].
    + rewrite Nat.sub_0_r in *. split_tests; cbn [andb orb]; try lia;
        try reflexivity; try (rewrite C1; f_equal; lia).
    + split_tests; cbn [andb orb]; try lia; try reflexivity;
        try (rewrite C2; f_equal; lia);
        try (replace (i - S (S n)) with (i - S n - 1) by lia; exact C2).
Qed.

Lemma insertLines_add (a b : nat) (t : VirtualTerminal) :
  insertLines (a + b) t = (insertLines a ;; insertLines b) t.
Proof. apply times_add. Qed.

Lemma deleteLines_add (a b : nat) (t : VirtualTerminal) :
  deleteLines (a + b) t = (deleteLines a ;; deleteLines b) t.
Proof. apply times_add. Qed.

Lemma insertLines_run (t : VirtualTerminal) :
  Cursor.y (cursor t) < length (buffer t) ->
  ScrollRegion.bottom (scrollRegion t) < length (buffer t) ->
  exists b',
    insertLines 1 t = (Normal tt, set_buffer b' t) /\
    forall i, nth_error b' i = regionScrolledDown (regionFromCursor t) i.
Proof.
  intros Ht Hb.
  set (top := Cursor.y (cursor t)) in *.
  set (bottom := ScrollRegion.bottom (scrollRegion t)) in *.
  destruct (shiftDown_run (bottom - top) (S top) t) as (b1 & Hrun & Hlen & Hnth);
    [lia | lia |].
  destruct (nth_error (buffer t) top) as [r|] eqn:Er.
  2:{ apply nth_error_None in Er. lia. }
  assert (Hr1 : nth_error b1 top = Some r).
  { rewrite Hnth. split_tests; exact Er. }
  exists (putRow b1 top (clearedRow (cols t) (blank t) r)). split.
  - unfold insertLines, times, range. cbn [seq Nat.sub forEach].
    rewrite bind_run, bind_run. cbn [get]. fold top bottom. unfold rangeDown.
    rewrite bind_run, Hrun, bind_run. cbn [get].
    rewrite (clearLine_run _ _ r) by exact Hr1. reflexivity.
  - intro i. rewrite putRow_nth by (rewrite Hlen; exact Ht).
    unfold regionScrolledDown, regionFromCursor.
    cbn [scrollRegion set_scrollRegion ScrollRegion.top ScrollRegion.bottom buffer cols].
    change (blank (set_scrollRegion _ t)) with (blank t).
    fold top bottom. rewrite Er, Hnth. cbn [option_map].
    split_tests; reflexivity.
Qed.

Lemma shiftUpSpread_run (n a : nat) (t : VirtualTerminal) :
  n = 0 \/ a + n < length (buffer t) ->
  exists b',
    forEach (seq a n)
      (fun y =>
         r <- readRow (y + 1) ;;
         modify (fun t => set_buffer (putRow (buffer t) y (Js.spread r)) t)) t
    = (Normal tt, set_buffer b' t) /\
    length b' = length (buffer t) /\
    forall i,
      nth_error b' i
      = if (a <=? i) && (i <? a + n)
        then option_map Js.spread (nth_error (buffer t) (i + 1))
        else nth_error (buffer t) i.
Proof.
  revert a t; induction n as [|n IH]; intros a t Hn.
  - exists (buffer t). cbn [seq forEach]. rewrite set_buffer_same.
    repeat split. intro i. split_tests; reflexivity.
  - destruct Hn as [Hn|Hn]; [discriminate Hn|].
    cbn [seq forEach]. rewrite bind_run, bind_run, readRow_run.
    destruct (nth_error (buffer t) (a + 1)) as [r1|] eqn:E1.
    2:{ apply nth_error_None in E1. lia. }
    cbn [modify].
    set (t1 := set_buffer (putRow (buffer t) a (Js.spread r1)) t).
    assert (Hl : length (buffer t1) = length (buffer t))
      by (apply putRow_length; lia).
    destruct (IH (S a) t1) as (b' & Hrun & Hlen & Hnth); [right; lia|].
    exists b'. rewrite Hrun. repeat split; [congruence|].
    intro i. rewrite Hnth. subst t1. cbn [buffer set_buffer].
    rewrite !putRow_nth by lia.
    split_tests; try reflexivity; subst;
      repeat match goal with
             | H : nth_error _ ?k = Some r1 |- context [nth_error _ ?j] =>
                 replace j with k by lia; rewrite H
             end; reflexivity.
Qed.

Lemma deleteLines_run (t : VirtualTerminal) :
  whole t ->
  ScrollRegion.bottom (scrollRegion t) < length (buffer t) ->
  exists b',
    deleteLines 1 t = (Normal tt, set_buffer b' t) /\
    forall i, nth_error b' i = regionScrolledUp (regionFromCursor t) i.
Proof.
  intros Hwh Hb.
  set (top := Cursor.y (cursor t)).
  set (bottom := ScrollRegion.bottom (scrollRegion t)) in *.
  destruct (shiftUpSpread_run (bottom - top) top t) as (b1 & Hrun & Hlen & Hnth); [lia|].
  destruct (nth_error (buffer t) bottom) as [r|] eqn:Er.
  2:{ apply nth_error_None in Er. lia. }
  assert (Hr1 : nth_error b1 bottom = Some r).
  { rewrite Hnth. split_tests; exact Er. }
  exists (putRow b1 bottom (clearedRow (cols t) (blank t) r)). split.
  - unfold deleteLines, times, range. cbn [seq Nat.sub forEach].
    rewrite bind_run, bind_run. cbn [get]. fold top bottom. unfold range.
    rewrite bind_run, Hrun, bind_run. cbn [get].
    rewrite (clearLine_run _ _ r) by exact Hr1. reflexivity.
  - intro i. rewrite putRow_nth by (rewrite Hlen; exact Hb).
    unfold regionScrolledUp, regionFromCursor.
    cbn [scrollRegion set_scrollRegion ScrollRegion.top ScrollRegion.bottom buffer cols].
    change (blank (set_scrollRegion _ t)) with (blank t).
    fold top bottom. rewrite Er, Hnth. cbn [option_map].
    rewrite (whole_nth_clone t (i + 1) Hwh), (whole_nth_spread t (i + 1) Hwh).
    split_tests; reflexivity.
Qed.

Lemma insertLines_closed (n : nat) (t : VirtualTerminal) :
  wellFormed t ->
  exists b',
    insertLines n t = (Normal tt, set_buffer b' t) /\
    forall i, nth_error b' i = scrolledDownBy n (regionFromCursor t) i.
Proof.
  revert t; induction n as [|n IH]; intros t Hw.
  - exists (buffer t). split; [cbn; now rewrite set_buffer_same | reflexivity].
  - change (S n) with (1 + n). rewrite insertLines_add, bind_run.
    pose proof (wellFormed_bounds t Hw) as (_ & _ & Ht & Hb & _).
    assert (Hlen : length (buffer t) = rows t) by apply Hw.
    destruct (insertLines_run t) as (b1 & Hrun & Hnth); [lia|lia|].
    rewrite Hrun.
    assert (Hw1 : wellFormed (set_buffer b1 t)).
    { destruct (insertLines_paints 1 t Hw) as (_ & Hs & Hwh).
      unfold stateAfter in Hs, Hwh. rewrite Hrun in Hs, Hwh.
      now apply (wellFormed_painted t). }
    destruct (IH _ Hw1) as (b' & Hrun' & Hnth').
    exists b'. rewrite Hrun'. split; [reflexivity|].
    intro i. rewrite Hnth'. unfold scrolledDownBy, regionFromCursor.
    cbn [scrollRegion cols buffer cursor set_buffer set_scrollRegion
         ScrollRegion.top ScrollRegion.bottom].
    change (blank (set_scrollRegion _ (set_buffer b1 t))) with (blank t).
    change (blank (set_scrollRegion _ t)) with (blank t).
    rewrite !Hnth. unfold regionScrolledDown, regionFromCursor.
    cbn [scrollRegion cols buffer cursor set_buffer set_scrollRegion
         ScrollRegion.top ScrollRegion.bottom].
    change (blank (set_scrollRegion _ t)) with (blank t).
    set (top := Cursor.y (cursor t)) in *.
    set (bottom := ScrollRegion.bottom (scrollRegion t)) in *.
    pose proof (whole_nth_spread t (i - 1) (proj1 (proj2 Hw))) as C1.
    pose proof (whole_nth_spread t (i - n - 1) (proj1 (proj2 Hw))) as C2.
    rewrite Nat.eqb_refl.
    destruct (nth_error (buffer t) top) as [rb|] eqn:Eb;
      [|apply nth_error_None in Eb; lia].
    cbn [option_map Nat.add]. rewrite clearedRow_twice.
    destruct n as [|n]; cbn [Nat.eqb].
    + rewrite Nat.sub_0_r in *. split_tests; cbn [andb orb]; try lia;
        try reflexivity; try (rewrite C1; f_equal; lia).
    + split_tests; cbn [andb orb]; try lia; try reflexivity;
        try (rewrite C2; f_equal; lia);
        try (replace (i - S (S n)) with (i - S n - 1) by lia; exact C2).
Qed.

Lemma deleteLines_closed (n : nat) (t : VirtualTerminal) :
  wellFormed t ->
  exists b',
    deleteLines n t = (Normal tt, set_buffer b' t) /\
    forall i, nth_error b' i = scrolledUpBy n (regionFromCursor t) i.
Proof.
  revert t; induction n as [|n IH]; intros t Hw.
  - exists (buffer t). split; [cbn; now rewrite set_buffer_same | reflexivity].
  - change (S n) with (1 + n). rewrite deleteLines_add, bind_run.
    pose proof (wellFormed_bounds t Hw) as (_ & _ & Ht & Hb & _).
    assert (Hlen : length (buffer t) = rows t) by apply Hw.
    destruct (deleteLines_run t) as (b1 & Hrun & Hnth); [apply Hw|lia|].
    rewrite Hrun.
    assert (Hw1 : wellFormed (set_buffer b1 t)).
    { destruct (deleteLines_paints 1 t Hw) as (_ & Hs & Hwh).
      unfold stateAfter in Hs, Hwh. rewrite Hrun in Hs, Hwh.
      now apply (wellFormed_painted t). }
    destruct (IH _ Hw1) as (b' & Hrun' & Hnth').
    exists b'. rewrite Hrun'. split; [reflexivity|].
    intro i. rewrite Hnth'. unfold scrolledUpBy, regionFromCursor.
    cbn [scrollRegion cols buffer cursor set_buffer set_scrollRegion
         ScrollRegion.top ScrollRegion.bottom].
    change (blank (set_scrollRegion _ (set_buffer b1 t))) with (blank t).
    change (blank (set_scrollRegion _ t)) with (blank t).
    rewrite !Hnth. unfold regionScrolledUp, regionFromCursor.
    cbn [scrollRegion cols buffer cursor set_buffer set_scrollRegion
         ScrollRegion.top ScrollRegion.bottom].
    change (blank (set_scrollRegion _ t)) with (blank t).
    set (top := Cursor.y (cursor t)) in *.
    set (bottom := ScrollRegion.bottom (scrollRegion t)) in *.
    pose proof (whole_nth_clone t (i + 1) (proj1 (proj2 Hw))) as C1.
    pose proof (whole_nth_clone t (i + n + 1) (proj1 (proj2 Hw))) as C2.
    rewrite Nat.eqb_refl.
    destruct (nth_error (buffer t) bottom) as [rb|] eqn:Eb;
      [|apply nth_error_None in Eb; lia].
    cbn [option_map Nat.add]. rewrite clearedRow_twice.
    destruct n as [|n]; cbn [Nat.eqb].
    + rewrite Nat.add_0_r in *. split_tests; cbn [andb orb]; try lia;
        try reflexivity; try (rewrite C1; f_equal; lia).
    + split_tests; cbn [andb orb]; try lia; try reflexivity;
        try (rewrite C2; f_equal; lia);
        try (replace (i + S (S n)) with (i + S n + 1) by lia; exact C2).
Qed.

(** X19.  On a well-formed terminal [scrollDown(n)], for a count [n]
    that is a safe integer (the loop of the source does not end on a
    larger one), returns and moves every row of the scroll region down
    by [n] rows: a row of the region takes the content of the row [n]
    above it while that row is in the region and becomes a blank row
    otherwise, so that [n] larger than the height of the region blanks
    the region; the rows outside the region and the cursor stay.
    Scrolling by a safe [a + b] is scrolling by [a], then by [b]. *)
Theorem scrollDown_moves_region_rows :
  forall n t,
    safeInteger n = true ->
    wellFormed t ->
    completionOf (scrollDown n) t = Normal tt /\
    (forall i, nth_error (buffer (stateAfter (scrollDown n) t)) i = scrolledDownBy n t i) /\
    (ScrollRegion.bottom (scrollRegion t) - ScrollRegion.top (scrollRegion t) < n ->
     forall i,
       ScrollRegion.top (scrollRegion t) <= i <= ScrollRegion.bottom (scrollRegion t) ->
       nth_error (buffer (stateAfter (scrollDown n) t)) i
       = option_map (clearedRow (cols t) (blank t))
           (nth_error (buffer t) (ScrollRegion.top (scrollRegion t)))) /\
    cursor (stateAfter (scrollDown n) t) = cursor t /\
    (forall a b u, safeInteger (a + b) = true ->
                   scrollDown (a + b) u = (scrollDown a ;; scrollDown b) u).
Proof.
  intros n t _ Hw. destruct (scrollDown_closed n t Hw) as (b' & Hrun & Hnth).
  unfold completionOf, stateAfter. rewrite Hrun. cbn [fst snd buffer set_buffer cursor].
  split; [reflexivity | split; [exact Hnth | split; [|split; [reflexivity|]]]].
  - intros Hn i Hi. rewrite Hnth. unfold scrolledDownBy.
    split_tests; cbn [andb orb]; try lia; reflexivity.
  - intros a b u _. apply scrollDown_add.
Qed.

(** The statement of X19 at work on a new 5x3 terminal after "A", "B"
    and "C" were written on its three rows. *)
Lemma scrollDown_moves_region_rows_witness :
  completionOf (scrollDown 2)
    (after (write quiet 0 (str "A" ++ [NEWLINE] ++ str "B" ++ [NEWLINE] ++ str "C")
              (new 5 3))) = Normal tt /\
  lineAt (stateAfter (scrollDown 2)
            (after (write quiet 0 (str "A" ++ [NEWLINE] ++ str "B" ++ [NEWLINE] ++ str "C")
                      (new 5 3)))) 2 = Some (str "A    ").
Proof.
  destruct (scrollDown_moves_region_rows 2
              (after (write quiet 0 (str "A" ++ [NEWLINE] ++ str "B" ++ [NEWLINE] ++ str "C")
                        (new 5 3)))) as (Hc & Hrows & _).
  - reflexivity.
  - apply (write_fine quiet 0 _ (new 5 3)).
    + apply new_wellFormed; lia.
    + vm_compute. repeat constructor.
  - split; [exact Hc|]. unfold lineAt. rewrite Hrows. vm_compute. reflexivity.
Defined.

Lemma screenABCD_wellFormed : wellFormed screenABCD.
Proof.
  apply (write_fine quiet 0 _ (new 5 4)).
  - apply new_wellFormed; lia.
  - vm_compute. repeat constructor.
Qed.

(** X20.  On a well-formed terminal [insertLines(n)] and
    [deleteLines(n)], for a count [n] that is a safe integer (the
    loops of the source do not end on a larger one), return and scroll
    the rows from the row of the cursor to the bottom of the scroll
    region, down and up by [n] rows:
    the top of the scroll region plays no part, also when the cursor is
    above it; the cursor and the scroll region stay.  With the cursor
    below the scroll region and [n >= 1], [insertLines] blanks the row
    of the cursor and [deleteLines] blanks the bottom row of the
    region, and no other row changes. *)
Theorem insert_delete_lines_scroll_from_cursor :
  forall n t,
    safeInteger n = true ->
    wellFormed t ->
    (completionOf (insertLines n) t = Normal tt /\
     (forall i, nth_error (buffer (stateAfter (insertLines n) t)) i
                = scrolledDownBy n (regionFromCursor t) i) /\
     cursor (stateAfter (insertLines n) t) = cursor t /\
     scrollRegion (stateAfter (insertLines n) t) = scrollRegion t) /\
    (completionOf (deleteLines n) t = Normal tt /\
     (forall i, nth_error (buffer (stateAfter (deleteLines n) t)) i
                = scrolledUpBy n (regionFromCursor t) i) /\
     cursor (stateAfter (deleteLines n) t) = cursor t /\
     scrollRegion (stateAfter (deleteLines n) t) = scrollRegion t) /\
    (ScrollRegion.bottom (scrollRegion t) < Cursor.y (cursor t) -> 1 <= n ->
     forall i,
       nth_error (buffer (stateAfter (insertLines n) t)) i
       = (if i =? Cursor.y (cursor t)
          then option_map (clearedRow (cols t) (blank t)) (nth_error (buffer t) i)
          else nth_error (buffer t) i) /\
       nth_error (buffer (stateAfter (deleteLines n) t)) i
       = (if i =? ScrollRegion.bottom (scrollRegion t)
          then option_map (clearedRow (cols t) (blank t)) (nth_error (buffer t) i)
          else nth_error (buffer t) i)).
Proof.
  intros n t _ Hw.
  destruct (insertLines_closed n t Hw) as (bi & Hi & Hnthi).
  destruct (deleteLines_closed n t Hw) as (bd & Hd & Hnthd).
  unfold completionOf, stateAfter. rewrite Hi, Hd.
  cbn [fst snd buffer set_buffer cursor scrollRegion].
  split; [repeat split; exact Hnthi | split; [repeat split; exact Hnthd|]].
  intros Hbelow Hn i. rewrite Hnthi, Hnthd.
  unfold scrolledDownBy, scrolledUpBy, regionFromCursor.
  cbn [scrollRegion cols buffer cursor set_scrollRegion
       ScrollRegion.top ScrollRegion.bottom].
  change (blank (set_scrollRegion _ t)) with (blank t).
  split; split_tests; cbn [andb orb]; try lia; subst; reflexivity.
Qed.

(** The statement of X20 at work on [screenABCD], whose cursor is on
    row 1 and whose scroll region is rows 2..3: inserting a line pushes
    "B" and "C" down and drops "D", deleting one pulls "C" and "D" up. *)
Lemma insert_delete_lines_witness :
  (lineAt (stateAfter (insertLines 1) screenABCD) 1 = Some (str "     ") /\
   lineAt (stateAfter (insertLines 1) screenABCD) 2 = Some (str "B    ") /\
   lineAt (stateAfter (insertLines 1) screenABCD) 3 = Some (str "C    ")) /\
  (lineAt (stateAfter (deleteLines 1) screenABCD) 1 = Some (str "C    ") /\
   lineAt (stateAfter (deleteLines 1) screenABCD) 2 = Some (str "D    ") /\
   lineAt (stateAfter (deleteLines 1) screenABCD) 3 = Some (str "     ")).
Proof.
  destruct (insert_delete_lines_scroll_from_cursor 1 screenABCD eq_refl
              screenABCD_wellFormed)
    as ((_ & Hi & _) & (_ & Hd & _) & _).
  unfold lineAt. rewrite (Hi 1), (Hi 2), (Hi 3), (Hd 1), (Hd 2), (Hd 3).
  vm_compute. repeat split.
Defined.

(** ** Erasing in the display *)

Lemma clearLines_run (n a : nat) (t : VirtualTerminal) :
  a + n <= length (buffer t) ->
  exists b',
    forEach (seq a n) clearLine t = (Normal tt, set_buffer b' t) /\
    length b' = length (buffer t) /\
    forall i,
      nth_error b' i
      = if (a <=? i) && (i <? a + n)
        then option_map (clearedRow (cols t) (blank t)) (nth_error (buffer t) i)
        else nth_error (buffer t) i.
Proof.
  revert a t; induction n as [|n IH]; intros a t Hn.
  - exists (buffer t). cbn [seq forEach]. rewrite set_buffer_same.
    repeat split. intro i. split_tests; reflexivity.
  - cbn [seq forEach]. rewrite bind_run.
    destruct (nth_error (buffer t) a) as [r|] eqn:Er.
    2:{ apply nth_error_None in Er. lia. }
    rewrite (clearLine_run _ _ _ Er).
    set (t1 := set_buffer (putRow (buffer t) a (clearedRow (cols t) (blank t) r)) t).
    assert (Hl : length (buffer t1) = length (buffer t))
      by (apply putRow_length; lia).
    destruct (IH (S a) t1) as (b' & Hrun & Hlen & Hnth); [lia|].
    exists b'. rewrite Hrun. repeat split; [congruence|].
    intro i. rewrite Hnth. subst t1. cbn [buffer set_buffer cols].
    change (blank (set_buffer _ t)) with (blank t).
    rewrite !putRow_nth by lia.
    split_tests; try reflexivity; subst; rewrite Er; reflexivity.
Qed.

Lemma eraseInDisplay_closed (mode : nat) (t : VirtualTerminal) :
  wellFormed t -> mode <> 2 ->
  exists b',
    eraseInDisplay mode t = (Normal tt, set_buffer b' t) /\
    forall i, nth_error b' i = erasedDisplay mode t i.
Proof.
  intros Hw Hm.
  pose proof (wellFormed_bounds t Hw) as (_ & Hx & Hy & _).
  assert (Hlen : length (buffer t) = rows t) by apply Hw.
  destruct (nth_error (buffer t) (Cursor.y (cursor t))) as [r|] eqn:Er.
  2:{ apply nth_error_None in Er. lia. }
  assert (Hr : wholeRow (cols t) r).
  { destruct Hw as (_ & (_ & Hb) & _).
    eapply Forall_forall; [exact Hb | eapply nth_error_In; exact Er]. }
  assert (Hxr : Cursor.x (cursor t) <= length r) by (destruct Hr; lia).
  destruct mode as [|[|[|mode]]]; [| |contradiction|].
  - pose proof (eraseInLine_run 0 t r Er Hxr) as Hrun.
    set (t1 := set_buffer (putRow (buffer t) (Cursor.y (cursor t)) (erasedRow 0 t r)) t)
      in *.
    assert (Hl1 : length (buffer t1) = length (buffer t))
      by (apply putRow_length; lia).
    destruct (clearLines_run (rows t - (Cursor.y (cursor t) + 1))
                (Cursor.y (cursor t) + 1) t1) as (b' & Hrun' & _ & Hnth); [lia|].
    exists b'. split.
    + unfold eraseInDisplay. rewrite bind_run, Hrun, bind_run. cbn [get]. exact Hrun'.
    + intro i. rewrite Hnth. subst t1. cbn [buffer set_buffer cols erasedDisplay].
      change (blank (set_buffer _ t)) with (blank t).
      rewrite putRow_nth by lia.
      split_tests; try reflexivity; subst; rewrite Er; reflexivity.
  - destruct (clearLines_run (Cursor.y (cursor t) - 0) 0 t) as (b1 & Hrun & Hl1 & Hnth);
      [lia|].
    set (t1 := set_buffer b1 t).
    assert (Er1 : nth_error (buffer t1) (Cursor.y (cursor t1)) = Some r).
    { subst t1. cbn [buffer set_buffer cursor]. rewrite Hnth. split_tests; exact Er. }
    pose proof (eraseInLine_run 1 t1 r Er1 Hxr) as Hrun'.
    exists (putRow b1 (Cursor.y (cursor t)) (erasedRow 1 t r)). split.
    + unfold eraseInDisplay. rewrite bind_run. cbn [get]. unfold range.
      rewrite bind_run, Hrun. exact Hrun'.
    + intro i. rewrite putRow_nth by lia. rewrite Hnth. cbn [erasedDisplay].
      split_tests; try reflexivity; subst; rewrite Er; reflexivity.
  - exists (buffer t). split; [cbn; now rewrite set_buffer_same | reflexivity].
Qed.

(** X21.  On a well-formed terminal [eraseInDisplay(mode)] returns.
    Mode 0 erases the row of the cursor from the cursor on and blanks
    every row below it; mode 1 blanks every row above the cursor and
    erases its row through the column of the cursor; both leave the
    other rows and the cursor as they are.  Mode 2 is [clearScreen],
    the only one that moves the cursor (to the top left corner); any
    larger mode changes nothing. *)
Theorem eraseInDisplay_erases_around_cursor :
  forall mode t,
    wellFormed t ->
    (mode <> 2 ->
     completionOf (eraseInDisplay mode) t = Normal tt /\
     (forall i, nth_error (buffer (stateAfter (eraseInDisplay mode) t)) i
                = erasedDisplay mode t i) /\
     cursor (stateAfter (eraseInDisplay mode) t) = cursor t) /\
    (3 <= mode -> eraseInDisplay mode t = (Normal tt, t)) /\
    eraseInDisplay 2 t = clearScreen t /\
    cursor (stateAfter (eraseInDisplay 2) t) = Cursor.mk 0 0.
Proof.
  intros mode t Hw. split; [|split; [|split; reflexivity]].
  - intro Hm. destruct (eraseInDisplay_closed mode t Hw Hm) as (b' & Hrun & Hnth).
    unfold completionOf, stateAfter. rewrite Hrun. cbn [fst snd buffer set_buffer cursor].
    repeat split. exact Hnth.
  - intro Hm. destruct mode as [|[|[|mode]]]; try lia. reflexivity.
Qed.

(** The statement of X21 at work on [screenABCD], whose cursor is at
    the start of row 1: erasing below keeps "A" and blanks the rest,
    erasing above blanks "A" and the first cell of row 1. *)
Lemma eraseInDisplay_witness :
  (lineAt (stateAfter (eraseInDisplay 0) screenABCD) 0 = Some (str "A    ") /\
   lineAt (stateAfter (eraseInDisplay 0) screenABCD) 1 = Some (str "     ") /\
   lineAt (stateAfter (eraseInDisplay 0) screenABCD) 3 = Some (str "     ")) /\
  (lineAt (stateAfter (eraseInDisplay 1) screenABCD) 0 = Some (str "     ") /\
   lineAt (stateAfter (eraseInDisplay 1) screenABCD) 1 = Some (str "     ") /\
   lineAt (stateAfter (eraseInDisplay 1) screenABCD) 2 = Some (str "C    ")).
Proof.
  destruct (eraseInDisplay_erases_around_cursor 0 screenABCD screenABCD_wellFormed)
    as (H0 & _).
  destruct (eraseInDisplay_erases_around_cursor 1 screenABCD screenABCD_wellFormed)
    as (H1 & _).
  destruct (H0 ltac:(discriminate)) as (_ & E0 & _).
  destruct (H1 ltac:(discriminate)) as (_ & E1 & _).
  unfold lineAt. rewrite (E0 0), (E0 1), (E0 3), (E1 0), (E1 1), (E1 2).
  vm_compute. repeat split.
Defined.

(** ** Writing in chunks *)

Lemma ignoresEvents_ret {A} (a : A) : ignoresEvents (ret a).
Proof. intros f u t. reflexivity. Qed.

Lemma ignoresEvents_throw {A} (e : Exn) : ignoresEvents (@throw A e).
Proof. intros f u t. reflexivity. Qed.

Lemma ignoresEvents_modify (g : VirtualTerminal -> VirtualTerminal) :
  (forall f u t, g (withEvents f u t) = withEvents f u (g t)) ->
  ignoresEvents (modify g).
Proof. intros H f u t. unfold modify, completionOf, stateAfter. cbn. now rewrite H. Qed.

Lemma ignoresEvents_bind {A B} (m : M A) (k : A -> M B) :
  ignoresEvents m -> (forall a, ignoresEvents (k a)) -> ignoresEvents (bind m k).
Proof.
  intros Hm Hk f u t. unfold completionOf, stateAfter. rewrite !bind_run, Hm.
  rewrite (run_pair m t). destruct (completionOf m t) as [a|e]; [|reflexivity].
  rewrite Hk. reflexivity.
Qed.

Lemma ignoresEvents_get_bind {B} (k : VirtualTerminal -> M B) :
  (forall a, ignoresEvents (k a)) ->
  (forall f u a, k (withEvents f u a) = k a) ->
  ignoresEvents (bind get k).
Proof.
  intros Hk He f u t. unfold completionOf, stateAfter. rewrite !bind_run. cbn [get].
  rewrite He. apply Hk.
Qed.

Lemma ignoresEvents_forEach (l : list nat) (body : nat -> M unit) :
  (forall i, ignoresEvents (body i)) -> ignoresEvents (forEach l body).
Proof.
  intro H; induction l as [|i l IH]; cbn [forEach].
  - apply ignoresEvents_ret.
  - apply ignoresEvents_bind; [apply H | intros _; exact IH].
Qed.

Lemma ignoresEvents_times (count : nat) (body : M unit) :
  ignoresEvents body -> ignoresEvents (times count body).
Proof. intro H; apply ignoresEvents_forEach; intros _; exact H. Qed.

Lemma ignoresEvents_when (b : bool) (m : M unit) :
  ignoresEvents m -> ignoresEvents (when b m).
Proof. intro H; destruct b; [exact H | apply ignoresEvents_ret]. Qed.

(** Walks through a computation as [frame_with] does. *)
Ltac events :=
  repeat lazymatch goal with
  | |- ignoresEvents (bind get _) =>
      apply ignoresEvents_get_bind; [intro | intros; reflexivity]
  | |- ignoresEvents (bind _ _) => apply ignoresEvents_bind; [ | intro ]
  | |- ignoresEvents (ret _) => apply ignoresEvents_ret
  | |- ignoresEvents (throw _) => apply ignoresEvents_throw
  | |- ignoresEvents (forEach _ _) => apply ignoresEvents_forEach; intro
  | |- ignoresEvents (times _ _) => apply ignoresEvents_times
  | |- ignoresEvents (when _ _) => apply ignoresEvents_when
  | |- ignoresEvents (modify _) => apply ignoresEvents_modify; intros; reflexivity
  | |- ignoresEvents (if ?b then _ else _) => destruct b
  | |- ignoresEvents (match ?o with _ => _ end) => destruct o
  | |- ignoresEvents ?m => let h := head_of m in unfold h
  end.

Lemma processChar_ignoresEvents (c : CodeUnit) : ignoresEvents (processChar c).
Proof. events. Qed.

Lemma processChars_ignoresEvents (data : JsString) : ignoresEvents (processChars data).
Proof. apply ignoresEvents_forEach. intro c. apply processChar_ignoresEvents. Qed.

Lemma write_run behaviour (now : nat) (data : JsString) (t : VirtualTerminal) :
  write behaviour now data t
  = match render (buffer t) with
    | None => mkOutcome (Throw TypeError) t None []
    | Some w0 =>
        let t1 := stateAfter (processChars data) t in
        match completionOf (processChars data) t with
        | Throw e => mkOutcome (Throw e) t1 None []
        | Normal _ =>
            match render (buffer t1) with
            | None => mkOutcome (Throw TypeError) t1 None []
            | Some w1 =>
                if list_eq_dec Nat.eq_dec w0 w1
                then mkOutcome (Normal tt) t1 None []
                else
                  let t3 := withEvents (frameCounter t1 + 1) true t1 in
                  let changeData :=
                    mkChangeData (frameCounter t3) now w0 w1 (getCursorPosition t3) data in
                  mkOutcome (Normal tt) t3 (Some changeData)
                    (notifyChangeListeners behaviour (changeListeners t3) changeData)
            end
        end
    end.
Proof.
  unfold write. rewrite toString_run.
  destruct (render (buffer t)) as [w0|]; [|reflexivity].
  cbv zeta. unfold completionOf, stateAfter.
  destruct (processChars data t) as [[[]|e] t1]; [|reflexivity].
  cbn [fst snd]. rewrite toString_run.
  destruct (render (buffer t1)) as [w1|]; reflexivity.
Qed.

Ltac chunks_done :=
  repeat split;
  cbn [after completion frameCounter withEvents set_hasChangedSinceLastCheck
       set_frameCounter];
  lia.

(** X22.  Writing in two chunks shows what writing in one does.  When
    [write(a)] returns, [write(b)] after it completes as [write(a ++ b)]
    does on the terminal before, and leaves the same terminal (buffer,
    cursor, parser state, attributes, alternate screen, listeners) up
    to the frame counter and the unread-change flag; the chunk may end
    anywhere, also inside an escape sequence.  The two calls fire at
    least as many change events as the single one. *)
Theorem write_in_chunks :
  forall behaviour now1 now2 now a b t,
    completion (write behaviour now1 a t) = Normal tt ->
    completion (write behaviour now2 b (after (write behaviour now1 a t)))
    = completion (write behaviour now (a ++ b) t) /\
    sameButEvents (after (write behaviour now (a ++ b) t))
                  (after (write behaviour now2 b (after (write behaviour now1 a t)))) /\
    frameCounter (after (write behaviour now (a ++ b) t))
    <= frameCounter (after (write behaviour now2 b (after (write behaviour now1 a t)))).
Proof.
  intros behaviour now1 now2 now a b t Ha.
  pose proof (processChars_sameHost a t) as (_ & _ & Hfa & _).
  pose proof (processChars_sameHost b (stateAfter (processChars a) t))
    as (_ & _ & Hfb & _).
  assert (Hab : processChars (a ++ b) t
                = (processChars a ;; processChars b) t) by apply processChars_app.
  rewrite (write_run behaviour now (a ++ b) t).
  rewrite (write_run behaviour now1 a t) in *.
  unfold completionOf, stateAfter in Hab |- *. rewrite Hab, bind_run. clear Hab.
  fold (completionOf (processChars a) t) in *.
  fold (stateAfter (processChars a) t) in *.
  destruct (render (buffer t)) as [w0|] eqn:E0; [|discriminate Ha].
  cbv zeta in *. rewrite (run_pair (processChars a) t).
  set (t1 := stateAfter (processChars a) t) in *.
  destruct (completionOf (processChars a) t) as [[]|e]; [|discriminate Ha].
  destruct (render (buffer t1)) as [w1|] eqn:E1; [|discriminate Ha].
  fold (completionOf (processChars b) t1). fold (stateAfter (processChars b) t1).
  set (t2 := stateAfter (processChars b) t1) in *.
  destruct (list_eq_dec Nat.eq_dec w0 w1) as [Hw|Hw]; cbn [after].
  - subst w1. rewrite (write_run behaviour now2 b t1), E1. cbv zeta. fold t2.
    destruct (completionOf (processChars b) t1) as [[]|e]; [|chunks_done].
    destruct (render (buffer t2)) as [w2|]; [|chunks_done].
    destruct (list_eq_dec Nat.eq_dec w0 w2); chunks_done.
  - rewrite (write_run behaviour now2 b (withEvents (frameCounter t1 + 1) true t1)).
    assert (Hc : completionOf (processChars b) (withEvents (frameCounter t1 + 1) true t1)
                 = completionOf (processChars b) t1)
      by (unfold completionOf at 1; now rewrite processChars_ignoresEvents).
    assert (Hs : stateAfter (processChars b) (withEvents (frameCounter t1 + 1) true t1)
                 = withEvents (frameCounter t1 + 1) true t2)
      by (unfold stateAfter at 1; now rewrite processChars_ignoresEvents).
    cbv zeta. rewrite Hc, Hs.
    cbn [withEvents buffer set_hasChangedSinceLastCheck set_frameCounter frameCounter].
    rewrite E1.
    destruct (completionOf (processChars b) t1) as [[]|e];
      [|chunks_done].
    destruct (render (buffer t2)) as [w2|]; [|chunks_done].
    destruct (list_eq_dec Nat.eq_dec w0 w2), (list_eq_dec Nat.eq_dec w1 w2);
      chunks_done.
Qed.

(** The statement of X22 at work: a cursor-position sequence cut in
    two after its first parameter. *)
Lemma write_in_chunks_witness :
  completion (write quiet 1 (str "3HX")
                (after (write quiet 0 (str "Hi" ++ ESC :: str "[2;") (new 10 3))))
  = completion (write quiet 0 ((str "Hi" ++ ESC :: str "[2;") ++ str "3HX") (new 10 3)) /\
  sameButEvents
    (after (write quiet 0 ((str "Hi" ++ ESC :: str "[2;") ++ str "3HX") (new 10 3)))
    (after (write quiet 1 (str "3HX")
              (after (write quiet 0 (str "Hi" ++ ESC :: str "[2;") (new 10 3))))) /\
  frameCounter
    (after (write quiet 0 ((str "Hi" ++ ESC :: str "[2;") ++ str "3HX") (new 10 3)))
  <= frameCounter
       (after (write quiet 1 (str "3HX")
                 (after (write quiet 0 (str "Hi" ++ ESC :: str "[2;") (new 10 3))))).
Proof.
  apply (write_in_chunks quiet 0 1 0 (str "Hi" ++ ESC :: str "[2;") (str "3HX")
           (new 10 3)).
  vm_compute. reflexivity.
Defined.
